(** * A shallow embedding of the RESP fuzzing harness (redis_fuzzer.py)

    The development follows the Python source function by function:
    the RESP codec ([encode_resp], [decode_resp]), the argument and command
    generators of [RedisCommandGenerator], the seed parsing and mixing of
    [AFLFuzzer.parse_afl_input] and the command loop of
    [AFLFuzzer.execute_tests].

    Python data is modelled as the interpreter has it:
    - a [str] is a sequence of Unicode code points ([pystr], a list of [N]);
    - a [bytes] object is a list of [Byte.byte]; indexing it yields an [int];
    - integers are unbounded ([Z]);
    - the module [random] is a stream of raw draws threaded through every
      call; [random.random()] is the grid value [k / 2^53];
    - raising is a [Raise] result, [try]/[except] is [try_except]. *)

From Stdlib Require Import List ZArith NArith QArith Lia Bool String Ascii.
From Stdlib Require Import DecimalString Permutation.
From Stdlib.Strings Require Import Byte.
Import ListNotations.

#[local] Close Scope Q_scope.
#[local] Open Scope Z_scope.

Set Implicit Arguments.
Set Warnings "-register-all".

(** ** Python sequences: [len], indexing, slicing, [find], [split], [join] *)

Module PySeq.
Section Seq.
Context {A : Type}.
Variable eqA : A -> A -> bool.

Definition len (l : list A) : Z := Z.of_nat (List.length l).

(** [l[i]]: a negative index counts from the end; [None] is [IndexError]. *)
Definition index (l : list A) (i : Z) : option A :=
  let j := if i <? 0 then i + len l else i in
  if (j <? 0) || (len l <=? j) then None else nth_error l (Z.to_nat j).

(** Normalisation of one slice bound against a length. *)
Definition clamp (n i : Z) : Z :=
  if i <? 0 then Z.max 0 (i + n) else Z.min i n.

(** [l[lo:hi]]; an omitted bound is [None]. *)
Definition slice (l : list A) (lo hi : option Z) : list A :=
  let n := len l in
  let a := match lo with Some i => clamp n i | None => 0 end in
  let b := match hi with Some i => clamp n i | None => n end in
  firstn (Z.to_nat (b - a)) (skipn (Z.to_nat a) l).

Fixpoint starts_with (sub l : list A) : bool :=
  match sub, l with
  | [], _ => true
  | _ :: _, [] => false
  | a :: sub', b :: l' => eqA a b && starts_with sub' l'
  end.

Fixpoint find_at (sub l : list A) (i : Z) : Z :=
  match l with
  | [] => if starts_with sub [] then i else -1
  | _ :: t => if starts_with sub l then i else find_at sub t (i + 1)
  end.

(** [l.find(sub, start)]: lowest index of [sub] at or after [start], or -1. *)
Definition find (sub l : list A) (start : Z) : Z :=
  let n := len l in
  let s := if start <? 0 then Z.max 0 (start + n) else start in
  if n <? s then -1 else find_at sub (skipn (Z.to_nat s) l) s.

(** [sub in l] for sequences of the same kind (substring test). *)
Definition contains (sub l : list A) : bool := 0 <=? find_at sub l 0.

(** [l.split(sep)] for a non-empty separator: [skip] counts the elements
    of a separator just matched that are still to be passed over. *)
Fixpoint split_go (sep l : list A) (skip : nat) (cur : list A)
  : list (list A) :=
  match l with
  | [] => [rev cur]
  | x :: t =>
      match skip with
      | S k => split_go sep t k cur
      | O =>
          if starts_with sep l
          then rev cur :: split_go sep t (List.length sep - 1) []
          else split_go sep t 0 (x :: cur)
      end
  end.

Definition split (sep l : list A) : list (list A) := split_go sep l 0 [].

(** [sep.join(parts)] *)
Fixpoint join (sep : list A) (parts : list (list A)) : list A :=
  match parts with
  | [] => []
  | [p] => p
  | p :: ps => p ++ sep ++ join sep ps
  end.

End Seq.
End PySeq.

(** ** Python [str] and [bytes] *)

Definition pystr := list N.
Definition pybytes := list byte.

(** The text of an ASCII literal of the source. *)
Definition lit (s : string) : pystr := map N_of_ascii (list_ascii_of_string s).

(** The [bytes] of an ASCII literal of the source. *)
Definition ascii_bytes (s : string) : pybytes :=
  map byte_of_ascii (list_ascii_of_string s).

Definition CR : N := 13%N.
Definition LF : N := 10%N.
Definition CRLF : pystr := [CR; LF].
Definition bCRLF : pybytes := [x0d; x0a].

Fixpoint str_eqb (a b : pystr) : bool :=
  match a, b with
  | [], [] => true
  | x :: a', y :: b' => N.eqb x y && str_eqb a' b'
  | _, _ => false
  end.

Fixpoint bytes_eqb (a b : pybytes) : bool :=
  match a, b with
  | [], [] => true
  | x :: a', y :: b' => Byte.eqb x y && bytes_eqb a' b'
  | _, _ => false
  end.

Definition byte_of_N (n : N) : byte :=
  match Byte.of_N (n mod 256) with Some b => b | None => x00 end.

(** [str(n)] and [f"{n}"] for an [int]: the decimal digits, with a sign. *)
Definition str_of_int (z : Z) : pystr := lit (NilZero.string_of_int (Z.to_int z)).

(** *** UTF-8 *)

(** One code point; [None] where [str.encode("utf-8")] raises
    [UnicodeEncodeError] (a lone surrogate). *)
Definition utf8_encode_cp (c : N) : option pybytes :=
  (if c <? 128 then Some [byte_of_N c]
   else if c <? 2048 then
     Some [byte_of_N (192 + c / 64); byte_of_N (128 + c mod 64)]
   else if c <? 65536 then
     if (55296 <=? c) && (c <=? 57343) then None
     else Some [byte_of_N (224 + c / 4096);
                byte_of_N (128 + (c / 64) mod 64);
                byte_of_N (128 + c mod 64)]
   else if c <? 1114112 then
     Some [byte_of_N (240 + c / 262144);
           byte_of_N (128 + (c / 4096) mod 64);
           byte_of_N (128 + (c / 64) mod 64);
           byte_of_N (128 + c mod 64)]
   else None)%N.

Fixpoint utf8_encode (s : pystr) : option pybytes :=
  match s with
  | [] => Some []
  | c :: s' =>
      match utf8_encode_cp c, utf8_encode s' with
      | Some b, Some bs => Some (b ++ bs)
      | _, _ => None
      end
  end.

Definition is_cont (c : N) : bool := ((128 <=? c) && (c <=? 191))%N.

(** The second byte of a sequence led by [c0]: a continuation byte, in the
    narrower range after E0, ED, F0 and F4. *)
Definition second_ok (c0 c1 : N) : bool :=
  (let lo := if c0 =? 224 then 160 else if c0 =? 240 then 144 else 128 in
   let hi := if c0 =? 237 then 159 else if c0 =? 244 then 143 else 191 in
   (lo <=? c1) && (c1 <=? hi))%N.

(** [bytes.decode("utf-8", errors="ignore")]: an ill-formed sequence is
    dropped up to the byte that broke it, and decoding resumes there. *)
Fixpoint utf8_decode_ignore (bs : pybytes) : pystr :=
  match bs with
  | [] => []
  | b0 :: r0 =>
    let c0 := Byte.to_N b0 in
    (if c0 <? 128 then c0 :: utf8_decode_ignore r0
     else if (c0 <? 194) || (244 <? c0) then utf8_decode_ignore r0
     else
       match r0 with
       | [] => []
       | b1 :: r1 =>
         let c1 := Byte.to_N b1 in
         if negb (second_ok c0 c1) then utf8_decode_ignore r0
         else if c0 <? 224 then
           ((c0 - 192) * 64 + (c1 - 128)) :: utf8_decode_ignore r1
         else
           match r1 with
           | [] => []
           | b2 :: r2 =>
             let c2 := Byte.to_N b2 in
             if negb (is_cont c2) then utf8_decode_ignore r1
             else if c0 <? 240 then
               ((c0 - 224) * 4096 + (c1 - 128) * 64 + (c2 - 128))
                 :: utf8_decode_ignore r2
             else
               match r2 with
               | [] => []
               | b3 :: r3 =>
                 let c3 := Byte.to_N b3 in
                 if negb (is_cont c3) then utf8_decode_ignore r2
                 else
                   ((c0 - 240) * 262144 + (c1 - 128) * 4096
                    + (c2 - 128) * 64 + (c3 - 128))
                     :: utf8_decode_ignore r3
               end
           end
       end)%N
  end.

(** ** Exceptions *)

Inductive exn_class : Type :=
| ValueError | IndexError | KeyError | UnicodeEncodeError
| socket_error | socket_timeout | OtherException.

Record exn : Type := Exn { exn_cls : exn_class; exn_msg : pystr }.

Inductive result (A : Type) : Type :=
| Ok (a : A)
| Raise (e : exn).
Arguments Ok {A} a.
Arguments Raise {A} e.

Definition rbind {A B} (r : result A) (k : A -> result B) : result B :=
  match r with Ok a => k a | Raise e => Raise e end.

Declare Scope res_scope.
Delimit Scope res_scope with res.
Notation "'let?' x ':=' r 'in' k" := (rbind r (fun x => k))
  (at level 10, x pattern, r at level 99, k at level 200) : res_scope.
#[local] Open Scope res_scope.

(** ** [int(b)] for a [bytes] argument *)

Definition is_ascii_space (c : N) : bool :=
  ((c =? 32) || ((9 <=? c) && (c <=? 13)))%N.

Definition is_digit (c : N) : bool := ((48 <=? c) && (c <=? 57))%N.

Fixpoint lstrip_with (p : N -> bool) (s : list N) : list N :=
  match s with
  | c :: s' => if p c then lstrip_with p s' else s
  | [] => []
  end.

Definition strip_with (p : N -> bool) (s : list N) : list N :=
  rev (lstrip_with p (rev (lstrip_with p s))).

(** Digits with single underscores between them; [prev] tells whether the
    previous character was a digit. *)
Fixpoint int_digits (s : list N) (acc : Z) (prev : bool) : option Z :=
  match s with
  | [] => if prev then Some acc else None
  | c :: s' =>
      if is_digit c then int_digits s' (10 * acc + Z.of_N (c - 48)) true
      else if (c =? 95)%N && prev then
        match s' with
        | d :: _ => if is_digit d then int_digits s' acc false else None
        | [] => None
        end
      else None
  end.

Definition int_of_text (s : list N) : option Z :=
  match strip_with is_ascii_space s with
  | 43%N :: ds => int_digits ds 0 false
  | 45%N :: ds => option_map Z.opp (int_digits ds 0 false)
  | ds => int_digits ds 0 false
  end.

Definition int_of_bytes (b : pybytes) : result Z :=
  match int_of_text (map Byte.to_N b) with
  | Some z => Ok z
  | None => Raise (Exn ValueError (lit "invalid literal for int() with base 10"))
  end.

(** ** The RESP codec *)

(** What [encode_resp] is handed: a [str], an [int] (a [bool] is an [int]
    for [isinstance]), a [list], [None], or any other object, which only
    contributes the text that formatting it yields. *)
Inductive pydata : Type :=
| DStr (s : pystr)
| DInt (z : Z)
| DBool (b : bool)
| DList (l : list pydata)
| DNone
| DOther (text : pystr).

(** What [decode_resp] returns: [None], a [str], an [int], the dictionary
    [{"error": msg}], or a list of such values. *)
Inductive reply : Type :=
| RNone
| RStr (s : pystr)
| RInt (z : Z)
| RError (msg : pystr)
| RList (l : list reply).

Definition str_of_bool (b : bool) : pystr :=
  if b then lit "True" else lit "False".

Fixpoint encode_resp (data : pydata) : pystr :=
  match data with
  | DStr s => lit "$" ++ str_of_int (PySeq.len s) ++ CRLF ++ s ++ CRLF
  | DInt z => lit ":" ++ str_of_int z ++ CRLF
  | DBool b => lit ":" ++ str_of_bool b ++ CRLF
  | DList l =>
      fold_left (fun resp item => resp ++ encode_resp item) l
                (lit "*" ++ str_of_int (PySeq.len l) ++ CRLF)
  | DNone => lit "$-1" ++ CRLF
  | DOther text => lit "+" ++ text ++ CRLF
  end.

(** The value that a round trip should give back for [v]: defined for the
    values built from text, integers, [None] and lists of such values. *)
Fixpoint reply_of (v : pydata) : option reply :=
  match v with
  | DStr s => Some (RStr s)
  | DInt z => Some (RInt z)
  | DNone => Some RNone
  | DList l =>
      option_map RList
        ((fix all (l : list pydata) : option (list reply) :=
            match l with
            | [] => Some []
            | x :: l' =>
                match reply_of x, all l' with
                | Some r, Some rs => Some (r :: rs)
                | _, _ => None
                end
            end) l)
  | DBool _ | DOther _ => None
  end.

(** The two kinds of object that [decode_resp] compares with [==]: the
    [int] that indexing a [bytes] object yields, and [bytes] literals.
    Objects of different kinds are never equal. *)
Inductive pyobj : Type :=
| OInt (z : Z)
| OBytes (b : pybytes).

Definition py_eq (a b : pyobj) : bool :=
  match a, b with
  | OInt x, OInt y => x =? y
  | OBytes x, OBytes y => bytes_eqb x y
  | _, _ => false
  end.

Definition ord (b : byte) : Z := Z.of_N (Byte.to_N b).

(** [parts[0]] of the result of a [split], which is never empty. *)
Definition item0 (parts : list pybytes) : pybytes :=
  match parts with p :: _ => p | [] => [] end.

Definition IndexError_bytes : exn := Exn IndexError (lit "index out of range").

(** The [for _ in range(length)] loop of the array branch; [n] is the
    number of iterations left, [Ok] is reached by exhaustion or [break]. *)
Fixpoint decode_items (n : nat) (part_data : pybytes) (pos : Z)
         (res : list reply) : result (list reply) :=
  match n with
  | O => Ok res
  | S n' =>
    if PySeq.len part_data <=? pos then Ok res
    else
      match PySeq.index part_data pos with
      | None => Raise IndexError_bytes
      | Some b =>
        let here := OInt (ord b) in
        let end_pos := PySeq.find Byte.eqb bCRLF part_data pos in
        if py_eq here (OInt (ord x24)) then
          let? bulk_len :=
            int_of_bytes (PySeq.slice part_data (Some (pos + 1)) (Some end_pos)) in
          if bulk_len =? -1 then
            decode_items n' part_data (end_pos + 2) (res ++ [RNone])
          else
            let string_start := end_pos + 2 in
            let string_end := string_start + bulk_len in
            decode_items n' part_data (string_end + 2)
              (res ++ [RStr (utf8_decode_ignore
                         (PySeq.slice part_data (Some string_start)
                                      (Some string_end)))])
        else if py_eq here (OInt (ord x3a)) then
          let? z :=
            int_of_bytes (PySeq.slice part_data (Some (pos + 1)) (Some end_pos)) in
          decode_items n' part_data (end_pos + 2) (res ++ [RInt z])
        else if py_eq here (OInt (ord x2b)) then
          decode_items n' part_data (end_pos + 2)
            (res ++ [RStr (utf8_decode_ignore
                       (PySeq.slice part_data (Some (pos + 1)) (Some end_pos)))])
        else if py_eq here (OInt (ord x2d)) then
          decode_items n' part_data (end_pos + 2)
            (res ++ [RError (utf8_decode_ignore
                       (PySeq.slice part_data (Some (pos + 1)) (Some end_pos)))])
        else Ok res
      end
  end.

(** [decode_resp(data)] for a [bytes] buffer.  [data[0]] is an [int]; the
    source compares it with one-byte [bytes] literals. *)
Definition decode_resp (data : pybytes) : result reply :=
  match data with
  | [] => Ok RNone
  | b0 :: _ =>
    let data_type := OInt (ord b0) in
    let line1 :=
      item0 (PySeq.split Byte.eqb bCRLF (PySeq.slice data (Some 1) None)) in
    if py_eq data_type (OBytes [x2b]) then
      Ok (RStr (utf8_decode_ignore line1))
    else if py_eq data_type (OBytes [x2d]) then
      Ok (RError (utf8_decode_ignore line1))
    else if py_eq data_type (OBytes [x3a]) then
      let? z := int_of_bytes line1 in Ok (RInt z)
    else if py_eq data_type (OBytes [x24]) then
      let? length := int_of_bytes line1 in
      if length =? -1 then Ok RNone
      else
        let start := PySeq.find Byte.eqb bCRLF data 0 + 2 in
        Ok (RStr (utf8_decode_ignore
                    (PySeq.slice data (Some start) (Some (start + length)))))
    else if py_eq data_type (OBytes [x2a]) then
      let parts := PySeq.split Byte.eqb bCRLF data in
      let? length :=
        int_of_bytes (PySeq.slice (item0 parts) (Some 1) None) in
      if length =? -1 then Ok RNone
      else
        let part_data := PySeq.join bCRLF (PySeq.slice parts (Some 1) None) in
        let? items := decode_items (Z.to_nat length) part_data 0 [] in
        Ok (RList items)
    else Ok (RStr (utf8_decode_ignore data))
  end.

(** The bytes put on the wire for a value: [encode_resp(v).encode("utf-8")],
    as [RedisClient.execute_command] sends it. *)
Definition wire (v : pydata) : option pybytes := utf8_encode (encode_resp v).

Definition decode_wire (v : pydata) : option (result reply) :=
  option_map decode_resp (wire v).

(** A bulk string that announces ten bytes and holds three. *)
Definition truncated_bulk : pybytes :=
  ascii_bytes "$10" ++ bCRLF ++ ascii_bytes "abc".

(** ** State, exceptions and the module [random] *)

(** The state of the generator is the stream of raw draws still to come;
    past its end every draw is 0.  An exception leaves the state where the
    failing call left it. *)
Definition rng := list N.

(** Stateful code that may raise: state in, result and state out. *)
Definition SM (S A : Type) : Type := S -> result A * S.

Definition M (A : Type) : Type := SM rng A.

Definition ret {S A} (a : A) : SM S A := fun s => (Ok a, s).

Definition bind {S A B} (m : SM S A) (k : A -> SM S B) : SM S B :=
  fun s => match m s with
           | (Ok a, s') => k a s'
           | (Raise e, s') => (Raise e, s')
           end.

Definition raise {S A} (e : exn) : SM S A := fun s => (Raise e, s).

(** [try: body except Exception as e: handler(e)] *)
Definition try_except {S A} (body : SM S A) (handler : exn -> SM S A)
  : SM S A :=
  fun s => match body s with
           | (Ok a, s') => (Ok a, s')
           | (Raise e, s') => handler e s'
           end.

Declare Scope py_scope.
Delimit Scope py_scope with py.
Notation "x <- m ;; k" := (bind m (fun x => k))
  (at level 61, m at next level, right associativity) : py_scope.
Notation "' pat <- m ;; k" := (bind m (fun x => match x with pat => k end))
  (at level 61, pat pattern, m at next level, right associativity) : py_scope.
#[local] Open Scope py_scope.

(** A [for] loop that threads an accumulator. *)
Fixpoint for_each {S A B} (l : list A) (acc : B) (body : B -> A -> SM S B)
  : SM S B :=
  match l with
  | [] => ret acc
  | x :: l' => acc' <- body acc x ;; for_each l' acc' body
  end.

Module random.

Definition draw : M N :=
  fun r => match r with [] => (Ok 0%N, []) | k :: r' => (Ok k, r') end.

(** [random.random()]: the float [k / 2^53], [0 <= k < 2^53], as the
    rational it denotes. *)
Definition random : M Q :=
  k <- draw ;; ret (Z.of_N (k mod 2 ^ 53) # 2 ^ 53)%Q.

(** The internal [_randbelow(n)], for [0 < n]. *)
Definition randbelow (n : nat) : M nat :=
  k <- draw ;; ret (N.to_nat (k mod N.of_nat n)).

(** [random.choice(seq)] *)
Definition choice {A} (seq : list A) : M A :=
  match seq with
  | [] => raise (Exn IndexError (lit "Cannot choose from an empty sequence"))
  | x :: _ => j <- randbelow (List.length seq) ;; ret (nth j seq x)
  end.

(** [random.randint(a, b)] *)
Definition randint (a b : Z) : M Z :=
  if b <? a then raise (Exn ValueError (lit "empty range for randrange()"))
  else j <- randbelow (Z.to_nat (b - a + 1)) ;; ret (a + Z.of_nat j).

(** [k] items taken out of the pool one after the other, each at a
    uniformly drawn position among those still there (the library keeps
    its pool in another order and, for large populations, remembers the
    positions taken instead; either way no position is taken twice). *)
Fixpoint sample_loop {A} (k : nat) (pool : list A) : M (list A) :=
  match k with
  | O => ret []
  | S k' =>
      match pool with
      | [] => ret []
      | x :: _ =>
          j <- randbelow (List.length pool) ;;
          rest <- sample_loop k' (firstn j pool ++ skipn (S j) pool) ;;
          ret (nth j pool x :: rest)
      end
  end.

(** [random.sample(population, k)]: sampling without replacement. *)
Definition sample {A} (population : list A) (k : Z) : M (list A) :=
  if (k <? 0) || (PySeq.len population <? k)
  then raise (Exn ValueError (lit "Sample larger than population or is negative"))
  else sample_loop (Z.to_nat k) population.

(** [x[i] = v] *)
Fixpoint upd {A} (i : nat) (v : A) (x : list A) : list A :=
  match x, i with
  | [], _ => []
  | _ :: t, O => v :: t
  | h :: t, S i' => h :: upd i' v t
  end.

(** [x[i], x[j] = x[j], x[i]] *)
Definition swap {A} (x : list A) (i j : nat) : list A :=
  match nth_error x i, nth_error x j with
  | Some a, Some b => upd j a (upd i b x)
  | _, _ => x
  end.

(** [for i in reversed(range(1, len(x)))]: [i] runs from [n] down to 1. *)
Fixpoint shuffle_loop {A} (n : nat) (x : list A) : M (list A) :=
  match n with
  | O => ret x
  | S n' => j <- randbelow (S n) ;; shuffle_loop n' (swap x n j)
  end.

(** [random.shuffle(x)]; the list after the call is returned. *)
Definition shuffle {A} (x : list A) : M (list A) :=
  shuffle_loop (List.length x - 1) x.

End random.

Definition Qltb (a b : Q) : bool := negb (Qle_bool b a).

(** The float literals that the generators compare [random.random()]
    with, each as the rational that the double denotes (0.5 is exact). *)
Definition float_0_2 : Q := 3602879701896397 # 18014398509481984.
Definition float_0_3 : Q := 5404319552844595 # 18014398509481984.
Definition float_0_4 : Q := 3602879701896397 # 9007199254740992.
Definition float_0_6 : Q := 5404319552844595 # 9007199254740992.
Definition float_0_7 : Q := 3152519739159347 # 4503599627370496.
Definition float_0_8 : Q := 3602879701896397 # 4503599627370496.

(** ** The schema tables of redis_commands.py *)

Record command_info : Type := {
  args : list pystr;
  optional_args : list pystr
}.

(** A value generator of the tables (a [lambda] of no argument): it draws
    from [random] and returns a [str]. *)
Definition gen := rng -> pystr * rng.

Definition call (g : gen) : M pystr := fun r => let (v, r') := g r in (Ok v, r').

(** An entry of [ARG_TYPE_MAP]: the name of a data type, or a callable. *)
Inductive arg_type_entry : Type :=
| TypeName (type_name : pystr)
| Callable (g : gen).

(** A dictionary in insertion order. *)
Definition dict (V : Type) := list (pystr * V).

Definition keys {V} (d : dict V) : list pystr := map fst d.

Fixpoint lookup {V} (d : dict V) (k : pystr) : option V :=
  match d with
  | [] => None
  | (k', v) :: d' => if str_eqb k k' then Some v else lookup d' k
  end.

Definition has_key {V} (d : dict V) (k : pystr) : bool :=
  match lookup d k with Some _ => true | None => false end.

(** [d[k]], [KeyError] when absent. *)
Definition getitem {V} (d : dict V) (k : pystr) : M V :=
  match lookup d k with
  | Some v => ret v
  | None => raise (Exn KeyError k)
  end.

(** [x in l] for a list of strings. *)
Definition str_in (x : pystr) (l : list pystr) : bool := existsb (str_eqb x) l.

(** A generated or parsed command: [(command, args)]. *)
Definition command := (pystr * list pystr)%type.

(** ** [RedisCommandGenerator], [TestCase] and [AFLFuzzer.parse_afl_input] *)

(** [str.isspace] for one code point, as [str.strip()] uses it. *)
Definition is_py_space (c : N) : bool :=
  (((9 <=? c) && (c <=? 13)) || ((28 <=? c) && (c <=? 32))
   || (c =? 133) || (c =? 160) || (c =? 5760)
   || ((8192 <=? c) && (c <=? 8202))
   || (c =? 8232) || (c =? 8233) || (c =? 8239) || (c =? 8287)
   || (c =? 12288))%N.

Definition py_strip (s : pystr) : pystr := strip_with is_py_space s.

(** [int.from_bytes(b, byteorder="little")] *)
Fixpoint int_from_bytes_little (b : pybytes) : Z :=
  match b with
  | [] => 0
  | x :: b' => ord x + 256 * int_from_bytes_little b'
  end.

Section Fuzzer.

(** The module globals.  [EXCLUDED_COMMANDS] is imported from
    redis_commands.py but not defined in the sources at hand: it is a
    collection of command names that the code only tests with [in]. *)
Variable REDIS_COMMANDS : dict command_info.
Variable EXCLUDED_COMMANDS : list pystr.
Variable FOCUS_COMMANDS : list pystr.
Variable ARG_TYPE_MAP : dict arg_type_entry.
Variable DATA_TYPES : dict gen.
Variable DICT_MIX_RATIO : Q.
Variable INPUT_VALUES : list pystr.
Variable DICT_VALUES : list pystr.
Variable MAX_COMMANDS_PER_TEST : Z.

(** [random.seed(s)]: the stream of draws that the seed [s] determines. *)
Variable seed_stream : Z -> rng.

(** [str.upper()] on the code points outside ASCII (the Unicode tables). *)
Variable unicode_upper : N -> pystr.

Definition py_upper (s : pystr) : pystr :=
  flat_map (fun c => if ((97 <=? c) && (c <=? 122))%N then [(c - 32)%N]
                     else if (c <? 128)%N then [c]
                     else unicode_upper c) s.

Definition seed (s : Z) : M unit := fun _ => (Ok tt, seed_stream s).

(** [get_value_from_dictionary(arg_type)]; [None] is returned when the
    branch taken has no pool to choose from. *)
Definition get_value_from_dictionary (arg_type : pystr) : M (option pystr) :=
  match INPUT_VALUES with
  | _ :: _ =>
      u <- random.random ;;
      if Qltb u (1 # 2) then
        v <- random.choice INPUT_VALUES ;; ret (Some v)
      else
        match DICT_VALUES with
        | _ :: _ => v <- random.choice DICT_VALUES ;; ret (Some v)
        | [] => ret None
        end
  | [] =>
      match DICT_VALUES with
      | _ :: _ => v <- random.choice DICT_VALUES ;; ret (Some v)
      | [] => ret None
      end
  end.

(** The part of [generate_random_arg] below the dictionary stage
    ("If no dictionary value or ratio check failed, generate a value").
    The argument is a [str] of the schema, so [callable(arg_type)] is
    false. *)
Definition synthesize_arg (arg_type : pystr) : M pystr :=
  match lookup ARG_TYPE_MAP arg_type with
  | Some (Callable g) => call g
  | Some (TypeName type_name) =>
      variant_decision <- random.random ;;
      let stringy :=
        str_in type_name [lit "string"; lit "value"; lit "message"; lit "element"] in
      if Qltb variant_decision float_0_2
         && has_key DATA_TYPES (lit "special_" ++ type_name) then
        g <- getitem DATA_TYPES (lit "special_" ++ type_name) ;; call g
      else if Qltb variant_decision float_0_4
              && has_key DATA_TYPES (lit "escaped_" ++ type_name) then
        g <- getitem DATA_TYPES (lit "escaped_" ++ type_name) ;; call g
      else if Qltb variant_decision float_0_6 && stringy then
        g <- getitem DATA_TYPES (lit "mixed_string") ;; call g
      else if Qltb variant_decision float_0_8 && stringy then
        g <- getitem DATA_TYPES (lit "binary_string") ;; call g
      else
        g <- getitem DATA_TYPES type_name ;; call g
  | None => ret arg_type
  end.

Definition generate_random_arg (arg_type : pystr) : M pystr :=
  u <- random.random ;;
  if Qltb u DICT_MIX_RATIO then
    dict_value <- get_value_from_dictionary arg_type ;;
    match dict_value with
    | Some (c :: v) => ret (c :: v)
    | _ => synthesize_arg arg_type
    end
  else synthesize_arg arg_type.

Definition not_excluded (cmd : pystr) : bool :=
  negb (str_in cmd EXCLUDED_COMMANDS).

Definition available_commands : list pystr :=
  match filter not_excluded (keys REDIS_COMMANDS) with
  | [] => keys REDIS_COMMANDS
  | l => l
  end.

Definition focus_candidates : list pystr :=
  filter not_excluded FOCUS_COMMANDS.

(** The choice of the command name in [generate_random_command]. *)
Definition select_command : M pystr :=
  match focus_candidates with
  | [] => random.choice available_commands
  | [only] =>
      u <- random.random ;;
      if Qltb u float_0_3 then ret only
      else random.choice available_commands
  | _ =>
      u <- random.random ;;
      if Qltb u (50 # 100) then random.choice focus_candidates
      else random.choice available_commands
  end.

(** The body of the loop over the sampled optional arguments: [args]
    after one [opt_arg] has been handled. *)
Definition expand_optional (args : list pystr) (opt_arg : pystr)
  : M (list pystr) :=
  if PySeq.contains N.eqb (lit " ") opt_arg then
    let opt_parts := PySeq.split N.eqb (lit " ") opt_arg in
    let part0 := nth 0 opt_parts [] in
    if PySeq.contains N.eqb (lit "|") part0 then
      let choices := PySeq.split N.eqb (lit "|") part0 in
      c <- random.choice choices ;; ret (args ++ [c])
    else
      if 1 <? PySeq.len opt_parts then
        v <- generate_random_arg (nth 1 opt_parts []) ;;
        ret (args ++ [part0] ++ [v])
      else ret (args ++ [part0])
  else ret (args ++ [opt_arg]).

Definition generate_random_command : M command :=
  command <- select_command ;;
  command_info <- getitem REDIS_COMMANDS command ;;
  args <- for_each command_info.(args) []
            (fun args arg => v <- generate_random_arg arg ;; ret (args ++ [v])) ;;
  match command_info.(optional_args) with
  | [] => ret (command, args)
  | _ :: _ =>
      u <- random.random ;;
      if Qltb u float_0_7 then
        k <- random.randint 0 (PySeq.len command_info.(optional_args)) ;;
        sampled <- random.sample command_info.(optional_args) k ;;
        args <- for_each sampled args expand_optional ;;
        ret (command, args)
      else ret (command, args)
  end.

(** [range(num_commands)] iterations of the generation loop. *)
Fixpoint generate_commands (n : nat) (acc : list command) : M (list command) :=
  match n with
  | O => ret acc
  | S n' => c <- generate_random_command ;; generate_commands n' (acc ++ [c])
  end.

(** [TestCase(seed)] *)
Definition TestCase_init (s : option Z) : M unit :=
  match s with Some z => seed z | None => ret tt end.

(** [TestCase.generate_test_case(num_commands)] *)
Definition generate_test_case (num_commands : option Z) : M (list command) :=
  n <- match num_commands with
       | Some n => ret n
       | None => random.randint 1 MAX_COMMANDS_PER_TEST
       end ;;
  generate_commands (Z.to_nat n) [].

(** One line of the input: the command it holds, if it is accepted. *)
Definition parse_line (line : pybytes) : option command :=
  match line with
  | [] => None
  | _ :: _ =>
      let parts :=
        PySeq.split N.eqb (lit " ") (py_strip (utf8_decode_ignore line)) in
      match parts with
      | [] => None
      | p0 :: rest =>
          let command := py_upper p0 in
          let args := if 1 <? PySeq.len parts then rest else [] in
          if has_key REDIS_COMMANDS command && not_excluded command
          then Some (command, args)
          else None
      end
  end.

(** The loop over the lines: [parsed_commands]. *)
Fixpoint parse_lines (lines : list pybytes) : list command :=
  match lines with
  | [] => []
  | line :: lines' =>
      match parse_line line with
      | Some c => c :: parse_lines lines'
      | None => parse_lines lines'
      end
  end.

Definition parsed_commands (afl_input : pybytes) : list command :=
  parse_lines (PySeq.split Byte.eqb [x0a] afl_input).

(** The [while len(self.test_cases) < num_commands] loop; [fuel] bounds
    the number of iterations by the number of commands missing. *)
Fixpoint pad_with_generated (fuel : nat) (num_commands : Z)
         (test_cases : list command) : M (list command) :=
  match fuel with
  | O => ret test_cases
  | S fuel' =>
      if PySeq.len test_cases <? num_commands then
        c <- generate_random_command ;;
        pad_with_generated fuel' num_commands (test_cases ++ [c])
      else ret test_cases
  end.

(** The body of the [try] of [parse_afl_input]. *)
Definition mix_with_generated (afl_input : pybytes) : M (list command) :=
  let parsed := parsed_commands afl_input in
  let test_case_seed :=
    if 4 <=? PySeq.len afl_input
    then Some (int_from_bytes_little (PySeq.slice afl_input None (Some 4)))
    else None in
  _ <- TestCase_init test_case_seed ;;
  num_commands <- random.randint 1 MAX_COMMANDS_PER_TEST ;;
  test_cases <-
    match parsed with
    | _ :: _ =>
        let num_parsed := Z.min (PySeq.len parsed) (num_commands / 2 + 1) in
        picked <- random.sample parsed num_parsed ;;
        pad_with_generated (Z.to_nat (num_commands - PySeq.len picked))
                           num_commands picked
    | [] => generate_test_case (Some num_commands)
    end ;;
  random.shuffle test_cases.

(** [parse_afl_input]: the flag returned and [self.test_cases] after the
    call ([old] when the method leaves it untouched). *)
Definition parse_afl_input (afl_input : option pybytes) (old : list command)
  : M (bool * list command) :=
  match afl_input with
  | None | Some [] => ret (false, old)
  | Some data =>
      try_except
        (tc <- mix_with_generated data ;; ret (true, tc))
        (fun _ =>
           _ <- TestCase_init None ;;
           tc <- generate_test_case None ;;
           ret (true, tc))
  end.

(** The tables are closed: every type name of [ARG_TYPE_MAP] and the two
    string variants are keys of [DATA_TYPES], and the focus commands are
    commands of the catalog (redis_commands.py keeps only those). *)
Definition entry_ok (e : arg_type_entry) : bool :=
  match e with
  | TypeName type_name => has_key DATA_TYPES type_name
  | Callable _ => true
  end.

Definition tables_ok : bool :=
  forallb (fun kv => entry_ok (snd kv)) ARG_TYPE_MAP
  && has_key DATA_TYPES (lit "mixed_string")
  && has_key DATA_TYPES (lit "binary_string")
  && forallb (has_key REDIS_COMMANDS) FOCUS_COMMANDS.

End Fuzzer.

(** ** The transport: [socket] *)

Module Net.

(** What the network will do, call by call: the outcome of each
    [socket.socket()], [connect], [sendall] and [recv] still to come
    ([None]: the call succeeds).  Past the end of a script the call
    succeeds, except [recv], which then times out: the socket has a
    timeout and no more data arrives.  [sent] logs the payloads handed to
    [sendall]. *)
Record world : Type := {
  socket_results : list (option exn);
  connect_results : list (option exn);
  send_results : list (option exn);
  recv_results : list (result pybytes);
  sent : list pybytes
}.

Definition IO (A : Type) : Type := SM world A.

Definition timed_out : exn := Exn socket_timeout (lit "timed out").

Definition outcome (o : option exn) : result unit :=
  match o with None => Ok tt | Some e => Raise e end.

Definition socket_socket : IO unit :=
  fun w => match w.(socket_results) with
           | [] => (Ok tt, w)
           | o :: t =>
               (outcome o,
                {| socket_results := t; connect_results := w.(connect_results);
                   send_results := w.(send_results);
                   recv_results := w.(recv_results); sent := w.(sent) |})
           end.

Definition sock_connect : IO unit :=
  fun w => match w.(connect_results) with
           | [] => (Ok tt, w)
           | o :: t =>
               (outcome o,
                {| socket_results := w.(socket_results); connect_results := t;
                   send_results := w.(send_results);
                   recv_results := w.(recv_results); sent := w.(sent) |})
           end.

Definition sendall (payload : pybytes) : IO unit :=
  fun w =>
    let o := match w.(send_results) with [] => None | o :: _ => o end in
    (outcome o,
     {| socket_results := w.(socket_results);
        connect_results := w.(connect_results);
        send_results := tl w.(send_results);
        recv_results := w.(recv_results);
        sent := w.(sent) ++ [payload] |}).

(** The receive loop of [execute_command]: one [recv(4096)] per
    iteration, until an empty chunk, a CRLF in the data so far, or an
    exception. *)
Fixpoint recv_until (pending : list (result pybytes)) (data : pybytes)
  : result pybytes * list (result pybytes) :=
  match pending with
  | [] => (Raise timed_out, [])
  | Raise e :: rest => (Raise e, rest)
  | Ok chunk :: rest =>
      match chunk with
      | [] => (Ok data, rest)
      | _ :: _ =>
          let data' := data ++ chunk in
          if PySeq.contains Byte.eqb bCRLF data' then (Ok data', rest)
          else recv_until rest data'
      end
  end.

Definition receive_response : IO pybytes :=
  fun w =>
    let (r, rest) := recv_until w.(recv_results) [] in
    (r, {| socket_results := w.(socket_results);
           connect_results := w.(connect_results);
           send_results := w.(send_results);
           recv_results := rest; sent := w.(sent) |}).

(** A single [recv(1024)] *)
Definition recv : IO pybytes :=
  fun w =>
    match w.(recv_results) with
    | [] => (Raise timed_out, w)
    | r :: rest =>
        (r, {| socket_results := w.(socket_results);
               connect_results := w.(connect_results);
               send_results := w.(send_results);
               recv_results := rest; sent := w.(sent) |})
    end.

End Net.

(** [except (socket.error, socket.timeout)] catches these classes. *)
Definition is_socket_exn (e : exn) : bool :=
  match e.(exn_cls) with
  | socket_error | socket_timeout => true
  | _ => false
  end.

Definition is_timeout (e : exn) : bool :=
  match e.(exn_cls) with socket_timeout => true | _ => false end.

(** ** [RedisClient] *)

Record RedisClient : Type := {
  host : pystr;
  port : Z;
  sock : option unit
}.

Definition with_sock (c : RedisClient) (s : option unit) : RedisClient :=
  {| host := c.(host); port := c.(port); sock := s |}.

(** [connect]: [self.sock] is assigned as soon as the socket exists, before
    the connection is attempted. *)
Definition connect (c : RedisClient) : Net.IO (bool * RedisClient) :=
  try_except
    (_ <- Net.socket_socket ;;
     let c' := with_sock c (Some tt) in
     try_except
       (_ <- Net.sock_connect ;; ret (true, c'))
       (fun e => if is_socket_exn e then ret (false, c') else raise e))
    (fun e => if is_socket_exn e then ret (false, c) else raise e).

(** [RedisClient(host, port)] *)
Definition RedisClient_init (h : pystr) (p : Z) : Net.IO RedisClient :=
  '(_, c) <- connect {| host := h; port := p; sock := None |} ;; ret c.

Definition close (c : RedisClient) : RedisClient := with_sock c None.

Definition lift {S A} (r : result A) : SM S A := fun s => (r, s).

Definition execute_command (c : RedisClient) (command : pystr)
           (args : list pystr) : Net.IO (reply * RedisClient) :=
  '(connected, c) <- match c.(sock) with
                     | Some _ => ret (true, c)
                     | None => connect c
                     end ;;
  if negb connected then
    ret (RError (lit "No connection to Redis at " ++ c.(host) ++ lit ":"
                   ++ str_of_int c.(port)), c)
  else
    r <- try_except
           (let cmd_parts := DList (map DStr (command :: args)) in
            let resp_command := encode_resp cmd_parts in
            payload <- match utf8_encode resp_command with
                       | Some b => ret b
                       | None => raise (Exn UnicodeEncodeError
                                            (lit "surrogates not allowed"))
                       end ;;
            _ <- Net.sendall payload ;;
            data <- Net.receive_response ;;
            lift (decode_resp data))
           (fun e =>
              if is_socket_exn e
              then ret (RError (lit "Command execution error: " ++ e.(exn_msg)))
              else ret (RError (lit "Unknown error: " ++ e.(exn_msg)))) ;;
    ret (r, c).



(** ** [AFLFuzzer.execute_tests] *)

(** An element of [self.results]: [{"command", "args", "result"}] or
    [{"command", "args", "error"}]. *)
Inductive entry : Type :=
| WithResult (command : pystr) (args : list pystr) (result : reply)
| WithError (command : pystr) (args : list pystr) (error : pystr).

Definition entry_command (e : entry) : command :=
  match e with
  | WithResult c a _ => (c, a)
  | WithError c a _ => (c, a)
  end.

Record stats : Type := {
  total_executions : Z;
  successful_executions : Z;
  error_executions : Z;
  timeouts : Z
}.

Record AFLFuzzer : Type := {
  test_cases : list command;
  results : list entry;
  run_stats : stats
}.

(** The body of the loop over [self.test_cases]. *)
Definition execute_one (st : AFLFuzzer * RedisClient) (cmd : command)
  : Net.IO (AFLFuzzer * RedisClient) :=
  let '(f, c) := st in
  let '(command, args) := cmd in
  let s := f.(run_stats) in
  '(f1, c1) <-
    try_except
      ('(result, c') <- execute_command c command args ;;
       ret ({| test_cases := f.(test_cases);
               results := f.(results) ++ [WithResult command args result];
               run_stats :=
                 {| total_executions := s.(total_executions);
                    successful_executions := s.(successful_executions) + 1;
                    error_executions := s.(error_executions);
                    timeouts := s.(timeouts) |} |}, c'))
      (fun e =>
         if is_timeout e then
           ret ({| test_cases := f.(test_cases);
                   results := f.(results) ++ [WithError command args (lit "Timeout")];
                   run_stats :=
                     {| total_executions := s.(total_executions);
                        successful_executions := s.(successful_executions);
                        error_executions := s.(error_executions);
                        timeouts := s.(timeouts) + 1 |} |}, c)
         else
           ret ({| test_cases := f.(test_cases);
                   results := f.(results) ++ [WithError command args e.(exn_msg)];
                   run_stats :=
                     {| total_executions := s.(total_executions);
                        successful_executions := s.(successful_executions);
                        error_executions := s.(error_executions) + 1;
                        timeouts := s.(timeouts) |} |}, c)) ;;
  let s1 := f1.(run_stats) in
  ret ({| test_cases := f1.(test_cases); results := f1.(results);
          run_stats :=
            {| total_executions := s1.(total_executions) + 1;
               successful_executions := s1.(successful_executions);
               error_executions := s1.(error_executions);
               timeouts := s1.(timeouts) |} |}, c1).

(** The manual INFO probe made when the client has no socket; whatever it
    raises is caught. *)
Definition manual_info_test : Net.IO unit :=
  try_except
    (_ <- Net.socket_socket ;;
     _ <- Net.sock_connect ;;
     _ <- Net.sendall [x2a; x31; x0d; x0a; x24; x34; x0d; x0a;
                       x49; x4e; x46; x4f; x0d; x0a] ;;
     _ <- Net.recv ;;
     ret tt)
    (fun _ => ret tt).

(** [execute_tests]: the list returned and the fuzzer after the call. *)
Definition execute_tests (h : pystr) (p : Z) (f : AFLFuzzer)
  : Net.IO (list entry * AFLFuzzer) :=
  redis_client <- RedisClient_init h p ;;
  match redis_client.(sock) with
  | None =>
      _ <- manual_info_test ;;
      let s := f.(run_stats) in
      ret ([], {| test_cases := f.(test_cases); results := f.(results);
                  run_stats :=
                    {| total_executions := s.(total_executions);
                       successful_executions := s.(successful_executions);
                       error_executions :=
                         s.(error_executions) + PySeq.len f.(test_cases);
                       timeouts := s.(timeouts) |} |})
  | Some _ =>
      '(f', c) <- for_each f.(test_cases) (f, redis_client) execute_one ;;
      let _ := close c in
      ret (f'.(results), f')
  end.

(** The client built by [execute_tests] came out of its constructor
    holding a socket. *)
Definition client_ready (h : pystr) (p : Z) (w : Net.world) : bool :=
  match RedisClient_init h p w with
  | (Ok c, _) => match c.(sock) with Some _ => true | None => false end
  | (Raise _, _) => false
  end.

(** The fuzzer after one command was executed and answered by [r]. *)
Definition recorded (f : AFLFuzzer) (cmd : command) (r : reply) : AFLFuzzer :=
  {| test_cases := f.(test_cases);
     results := f.(results) ++ [WithResult (fst cmd) (snd cmd) r];
     run_stats :=
       {| total_executions := f.(run_stats).(total_executions) + 1;
          successful_executions := f.(run_stats).(successful_executions) + 1;
          error_executions := f.(run_stats).(error_executions);
          timeouts := f.(run_stats).(timeouts) |} |}.

(** The replies collected along a run of the loop: each is what
    [execute_command] returned for its command, in the state of the
    network the commands before it left. *)
Inductive replies_of (c : RedisClient)
  : list command -> Net.world -> list reply -> Net.world -> Prop :=
| replies_nil w : replies_of c [] w [] w
| replies_cons cmd cmds w r w1 rs w2 :
    execute_command c (fst cmd) (snd cmd) w = (Ok (r, c), w1) ->
    replies_of c cmds w1 rs w2 ->
    replies_of c (cmd :: cmds) w (r :: rs) w2.


Definition entries (cmds : list command) (rs : list reply) : list entry :=
  map (fun p => WithResult (fst (fst p)) (snd (fst p)) (snd p)) (combine cmds rs).

(** A network where the first [sendall] fails and the second command is
    answered: both commands get their result, the first carrying the
    failure. *)
Definition flaky_world : Net.world :=
  {| Net.socket_results := []; Net.connect_results := [];
     Net.send_results := [Some (Exn socket_error (lit "Broken pipe")); None];
     Net.recv_results := [Ok (ascii_bytes "+OK" ++ bCRLF)];
     Net.sent := [] |}.

Definition two_commands : AFLFuzzer :=
  {| test_cases := [(lit "GET", [lit "k"]); (lit "PING", [])];
     results := [];
     run_stats := {| total_executions := 0; successful_executions := 0;
                     error_executions := 0; timeouts := 0 |} |}.

(** The input of the seed mixing scenario: two lines, GET foo and
    BADCMD x, each ended by a newline. *)
Definition scenario_input : pybytes :=
  ascii_bytes "GET foo" ++ [x0a] ++ ascii_bytes "BADCMD x" ++ [x0a].

(** ** An excerpt of the tables of redis_commands.py

    The entries for GET, SET and EXPIRE, the argument types they use and
    the generators of those types, as the source writes them. *)

Module Excerpt.

Definition lowercase_digits : pystr := lit "abcdefghijklmnopqrstuvwxyz0123456789".
Definition upper_lower_digits : pystr :=
  lit "ABCDEFGHIJKLMNOPQRSTUVWXYZabcdefghijklmnopqrstuvwxyz0123456789".
(** [string.ascii_letters + string.digits] *)
Definition letters_digits : pystr :=
  lit "abcdefghijklmnopqrstuvwxyzABCDEFGHIJKLMNOPQRSTUVWXYZ0123456789".

Definition SPECIAL_CHARS : pystr :=
  lit "!@#$%^&*()-_=+[]{}|;:'" ++ [34%N] ++ lit ",.<>/?\".

(** The raw literals: a backslash and one more character. *)
Definition ESCAPED_CHARS : list pystr :=
  map (fun c => [92%N; c])
      [92; 110; 114; 116; 34; 39; 48; 97; 98; 102; 118]%N.

(** [total m] is the generator that [m] denotes; the generators of the
    tables raise nothing. *)
Definition total (m : M pystr) : gen :=
  fun r => match m r with
           | (Ok v, r') => (v, r')
           | (Raise _, r') => ([], r')
           end.

(** ["".join(item for _ in range(n))] *)
Fixpoint join_draws (n : nat) (item : M pystr) : M pystr :=
  match n with
  | O => ret []
  | S n' => x <- item ;; rest <- join_draws n' item ;; ret (x ++ rest)
  end.

Definition one_of (alphabet : pystr) : M pystr :=
  c <- random.choice alphabet ;; ret [c].

(** [prefix + "".join(random.choice(alphabet) for _ in range(random.randint(a, b)))] *)
Definition random_word (prefix alphabet : pystr) (a b : Z) : M pystr :=
  n <- random.randint a b ;;
  w <- join_draws (Z.to_nat n) (one_of alphabet) ;;
  ret (prefix ++ w).

Definition key_gen : M pystr := random_word (lit "key:") lowercase_digits 1 10.
Definition value_gen : M pystr := random_word [] upper_lower_digits 1 50.
Definition seconds_gen : M pystr :=
  n <- random.randint 1 3600 ;; ret (str_of_int n).
Definition milliseconds_gen : M pystr :=
  n <- random.randint 1 3600000 ;; ret (str_of_int n).

Definition mixed_string_gen : M pystr :=
  n <- random.randint 5 20 ;;
  join_draws (Z.to_nat n)
    (f <- random.choice [one_of letters_digits; one_of SPECIAL_CHARS;
                         random.choice ESCAPED_CHARS] ;; f).

Definition hex_digit (d : Z) : N :=
  nth (Z.to_nat d) (lit "0123456789abcdef") 48%N.

(** [format(n, "02x")] *)
Definition format_02x (n : Z) : pystr :=
  if n <? 16 then [48%N; hex_digit n]
  else if n <? 256 then [hex_digit (n / 16); hex_digit (n mod 16)]
  else [].

Definition binary_string_gen : M pystr :=
  n <- random.randint 1 10 ;;
  w <- join_draws (Z.to_nat n)
         (b <- random.randint 0 255 ;; ret (format_02x b)) ;;
  ret (lit "\x" ++ w).

(** [DATA_TYPES[k]() + random.choice(SPECIAL_CHARS)] *)
Definition special_of (base : M pystr) : M pystr :=
  v <- base ;; c <- random.choice SPECIAL_CHARS ;; ret (v ++ [c]).

Definition escaped_of (base : M pystr) : M pystr :=
  v <- base ;; e <- random.choice ESCAPED_CHARS ;; ret (v ++ e).

Definition DATA_TYPES : dict gen :=
  [ (lit "key", total key_gen);
    (lit "seconds", total seconds_gen);
    (lit "milliseconds", total milliseconds_gen);
    (lit "value", total value_gen);
    (lit "mixed_string", total mixed_string_gen);
    (lit "binary_string", total binary_string_gen);
    (lit "special_key", total (special_of key_gen));
    (lit "escaped_key", total (escaped_of key_gen));
    (lit "special_value", total (special_of value_gen));
    (lit "escaped_value", total (escaped_of value_gen)) ].

Definition ARG_TYPE_MAP : dict arg_type_entry :=
  [ (lit "key", TypeName (lit "key"));
    (lit "value", TypeName (lit "value"));
    (lit "seconds", TypeName (lit "seconds"));
    (lit "milliseconds", TypeName (lit "milliseconds"));
    (lit "bit", Callable (total (random.choice [lit "0"; lit "1"]))) ].

Definition REDIS_COMMANDS : dict command_info :=
  [ (lit "EXPIRE", {| args := [lit "key"; lit "seconds"];
                      optional_args := [lit "NX|XX|GT|LT"] |});
    (lit "SET", {| args := [lit "key"; lit "value"];
                   optional_args := [lit "EX seconds"; lit "PX milliseconds";
                                     lit "NX|XX"] |});
    (lit "GET", {| args := [lit "key"]; optional_args := [] |}) ].

(** The concrete runs hold ASCII text only; outside ASCII this stand-in
    maps every character to itself, which [str.upper] does not. *)
Definition unicode_upper (c : N) : pystr := [c].

(** A stand-in for the seeding of the generator: the seed is the one draw
    of the stream. *)
Definition seed_stream (s : Z) : rng := [Z.to_N s].

End Excerpt.

(** ** The rest of the harness *)

(** *** [TestCase.execute_test_case] *)

(** The client object after a call of [execute_command] that raised.  Only
    [connect] raises out of [execute_command]; by then it has assigned the
    socket, unless [socket.socket()] itself failed. *)
Definition client_after_raise (c : RedisClient) (w : Net.world) : RedisClient :=
  match c.(sock) with
  | Some _ => c
  | None =>
      match w.(Net.socket_results) with
      | Some _ :: _ => c
      | _ => with_sock c (Some tt)
      end
  end.

(** The body of the loop of [execute_test_case]: [self.results] and the
    client after one command. *)
Definition test_case_step (st : list entry * RedisClient) (cmd : command)
  : Net.IO (list entry * RedisClient) :=
  fun w =>
    let '(results, c) := st in
    let '(command, args) := cmd in
    match execute_command c command args w with
    | (Ok (result, c'), w') =>
        (Ok (results ++ [WithResult command args result], c'), w')
    | (Raise e, w') =>
        (Ok (results ++ [WithError command args e.(exn_msg)],
             client_after_raise c w), w')
    end.

(** [execute_test_case]: the list returned, which is [self.results]. *)
Definition execute_test_case (h : pystr) (p : Z) (commands : list command)
  : Net.IO (list entry) :=
  redis_client <- RedisClient_init h p ;;
  '(results, c) <- for_each commands ([], redis_client) test_case_step ;;
  let _ := close c in
  ret results.

(** *** [AFLFuzzer.read_afl_input] and [AFLFuzzer.run] *)

(** [stdin] is what [sys.stdin.buffer.read()] does: the bytes read, or the
    exception raised.  The flag returned and [self.afl_input] after the
    call. *)
Definition read_afl_input (stdin : result pybytes) (afl_input : option pybytes)
  : bool * option pybytes :=
  match stdin with
  | Ok data => (true, Some data)
  | Raise _ => (false, afl_input)
  end.

Definition with_test_cases (f : AFLFuzzer) (tc : list command) : AFLFuzzer :=
  {| test_cases := tc; results := f.(results); run_stats := f.(run_stats) |}.

Section Run.
Variable REDIS_COMMANDS : dict command_info.
Variable EXCLUDED_COMMANDS : list pystr.
Variable FOCUS_COMMANDS : list pystr.
Variable ARG_TYPE_MAP : dict arg_type_entry.
Variable DATA_TYPES : dict gen.
Variable DICT_MIX_RATIO : Q.
Variable INPUT_VALUES : list pystr.
Variable DICT_VALUES : list pystr.
Variable MAX_COMMANDS_PER_TEST : Z.
Variable seed_stream : Z -> rng.
Variable unicode_upper : N -> pystr.

(** The first statement of [run]: [self.test_cases] once the input was
    read and parsed, or generated when either step said no. *)
Definition build_test_cases (stdin : result pybytes) (old : list command)
  : M (list command) :=
  let '(was_read, afl_input) := read_afl_input stdin None in
  let fresh :=
    _ <- TestCase_init seed_stream None ;;
    generate_test_case REDIS_COMMANDS EXCLUDED_COMMANDS FOCUS_COMMANDS
                       ARG_TYPE_MAP DATA_TYPES DICT_MIX_RATIO INPUT_VALUES
                       DICT_VALUES MAX_COMMANDS_PER_TEST None in
  if was_read then
    '(was_parsed, tc) <-
      parse_afl_input REDIS_COMMANDS EXCLUDED_COMMANDS FOCUS_COMMANDS
                      ARG_TYPE_MAP DATA_TYPES DICT_MIX_RATIO INPUT_VALUES
                      DICT_VALUES MAX_COMMANDS_PER_TEST seed_stream
                      unicode_upper afl_input old ;;
    if was_parsed then ret tc else fresh
  else fresh.

(** [run]: the fuzzer after the call; the state is the random stream and
    the network. *)
Definition run (stdin : result pybytes) (h : pystr) (p : Z) (f : AFLFuzzer)
  : SM (rng * Net.world) AFLFuzzer :=
  fun s =>
    let '(r, w) := s in
    match build_test_cases stdin f.(test_cases) r with
    | (Raise e, r') => (Raise e, (r', w))
    | (Ok tc, r') =>
        match execute_tests h p (with_test_cases f tc) w with
        | (Ok (_, f'), w') => (Ok f', (r', w'))
        | (Raise e, w') => (Raise e, (r', w'))
        end
    end.

(** *** The focus commands (redis_commands.py) *)

(** [FOCUS_COMMANDS] for a value of the environment variable
    REDIS_FOCUS_COMMANDS ([None]: not set). *)
Definition focus_commands_of_env (env : option pystr) : list pystr :=
  let raw := py_strip (match env with Some v => v | None => [] end) in
  match raw with
  | [] => []
  | _ :: _ =>
      let potential :=
        map (fun cmd => py_upper unicode_upper (py_strip cmd))
            (filter (fun cmd => match py_strip cmd with [] => false | _ => true end)
                    (PySeq.split N.eqb (lit ",") raw)) in
      let valid_commands := filter (has_key REDIS_COMMANDS) potential in
      match valid_commands with
      | [] => []
      | _ :: _ => valid_commands
      end
  end.

End Run.

(** *** The mix ratio (redis_commands.py) *)

(** A [float]: a finite value as the rational it denotes, an infinity or
    a NaN. *)
Inductive pyfloat : Type :=
| FFinite (q : Q)
| FInf (negative : bool)
| FNaN.

(** [a <= b] on floats: false as soon as a NaN is involved. *)
Definition float_le (a b : pyfloat) : bool :=
  match a, b with
  | FNaN, _ | _, FNaN => false
  | FInf true, _ => true
  | _, FInf false => true
  | FInf false, _ => false
  | _, FInf true => false
  | FFinite x, FFinite y => Qle_bool x y
  end.

(** The float 0.9. *)
Definition default_mix_ratio : Q := 8106479329266893 # 9007199254740992.

(** [DICT_MIX_RATIO] for a value of the environment variable of that name;
    [float_of_str] is [float()], [None] where it raises [ValueError]. *)
Definition dict_mix_ratio_of_env (float_of_str : pystr -> option pyfloat)
           (env : option pystr) : Q :=
  match env with
  | None => default_mix_ratio
  | Some text =>
      match float_of_str text with
      | Some parsed =>
          if float_le (FFinite 0) parsed && float_le parsed (FFinite 1) then
            match parsed with
            | FFinite q => q
            | _ => default_mix_ratio
            end
          else default_mix_ratio
      | None => default_mix_ratio
      end
  end.

(** *** Loading the corpus and the dictionary *)

(** A text file as the loaders see it: the lines that iterating over it
    yields, and the exception that ends the reading, if any (raised on
    opening, with no line, or while reading). *)
Record text_file : Type := {
  filename : pystr;
  file_lines : list pystr;
  read_error : option exn
}.

(** [s.endswith(suffix)] and [s.startswith(prefix)] *)
Definition endswith (s suffix : pystr) : bool :=
  PySeq.starts_with N.eqb (rev suffix) (rev s).

Definition startswith (s prefix : pystr) : bool :=
  PySeq.starts_with N.eqb prefix s.

(** [line.split(" ", 1)] *)
Fixpoint split_once (sep : N) (l cur : pystr) : list pystr :=
  match l with
  | [] => [rev cur]
  | c :: t => if (c =? sep)%N then [rev cur; t] else split_once sep t (c :: cur)
  end.

(** What one line of an input file adds to the corpus. *)
Definition input_value_of_line (line : pystr) : list pystr :=
  match py_strip line with
  | [] => []
  | stripped =>
      match split_once 32 stripped [] with
      | _ :: value :: _ => [value]
      | _ => []
      end
  end.

(** [load_input_dict()]; [input_dir] lists the files of INPUT_DIR, [None]
    when the directory does not exist. *)
Definition load_input_dict (input_dir : option (list text_file)) : list pystr :=
  match input_dir with
  | None => []
  | Some files =>
      flat_map (fun f => if endswith f.(filename) (lit ".txt")
                         then flat_map input_value_of_line f.(file_lines)
                         else [])
               files
  end.

(** What one line of the dictionary file adds to [DICT_VALUES]. *)
Definition dict_value_of_line (line : pystr) : list pystr :=
  match py_strip line with
  | [] => []
  | stripped =>
      if startswith stripped [34%N] && endswith stripped [34%N]
      then [PySeq.slice stripped (Some 1) (Some (-1))]
      else []
  end.

(** The loading of [DICT_VALUES] (redis_fuzzer.py, at import and in
    [main]); [None] when DICT_FILE does not exist. *)
Definition load_dict_values (dict_file : option text_file) : list pystr :=
  match dict_file with
  | None => []
  | Some f => flat_map dict_value_of_line f.(file_lines)
  end.

(** *** Writing dictionary entries (redis_dict_generator.py) *)

(** The [re.sub] applied to every generated value: a backslash is put
    before every backslash and every double quote. *)
Definition escape_for_dictionary (value : pystr) : pystr :=
  flat_map (fun c => if ((c =? 92) || (c =? 34))%N then [92%N; c] else [c])
           value.

(** The entry appended for a generated value: the escaped value between
    double quotes. *)
Definition dictionary_entry (value : pystr) : pystr :=
  [34%N] ++ escape_for_dictionary value ++ [34%N].

(** The lines of the file that [f.write(chr(10).join(dictionary))] leaves,
    as iterating over the file yields them, for entries without a line
    break: every entry but the last one is followed by a newline. *)
Fixpoint written_lines (dictionary : list pystr) : list pystr :=
  match dictionary with
  | [] => []
  | [entry] => [entry]
  | entry :: rest => (entry ++ [10%N]) :: written_lines rest
  end.

(** * Properties *)

(** ** The state-and-exception monad *)

Section MonadFacts.
Context {S A B : Type}.

Lemma bind_Ok (m : SM S A) (k : A -> SM S B) s b s' :
  bind m k s = (Ok b, s') ->
  exists a s1, m s = (Ok a, s1) /\ k a s1 = (Ok b, s').
Proof.
  unfold bind. destruct (m s) as [[a | e] s1]; intros H.
  - exists a, s1. split; [reflexivity | exact H].
  - discriminate H.
Qed.

Lemma bind_step (m : SM S A) (k : A -> SM S B) s a s1 :
  m s = (Ok a, s1) -> bind m k s = k a s1.
Proof. unfold bind. intros ->. reflexivity. Qed.

Lemma ret_Ok (a a' : A) (s s' : S) :
  ret a s = (Ok a', s') -> a = a' /\ s = s'.
Proof. unfold ret. intros H. inversion H. split; reflexivity. Qed.
End MonadFacts.
Arguments bind_step {S A B} m k {s a s1} _.

(** Splits a successful run of a sequence of binds into its steps. *)
Ltac inv_bind H :=
  let a := fresh "v" in
  let s := fresh "s" in
  let H1 := fresh "Hrun" in
  apply bind_Ok in H; destruct H as (a & s & H1 & H).

(** ** The codec *)

Lemma fold_left_append {A B} (f : A -> list B) (l : list A) (init : list B) :
  fold_left (fun resp item => resp ++ f item) l init = init ++ List.concat (map f l).
Proof.
  revert init. induction l as [| x l IH]; intros init; simpl.
  - now rewrite app_nil_r.
  - rewrite IH. now rewrite <- app_assoc.
Qed.

(** The frame of an array: the header, then the frames of the items in
    their order. *)
Lemma encode_resp_list (l : list pydata) :
  encode_resp (DList l) =
  lit "*" ++ str_of_int (PySeq.len l) ++ CRLF ++ List.concat (map encode_resp l).
Proof.
  cbn [encode_resp]. rewrite fold_left_append.
  change (lit "*") with [42%N]. cbn [app].
  now rewrite <- app_assoc.
Qed.

(** The dispatch on the first byte compares an [int] with [bytes]
    literals: no branch but the last is ever taken. *)
Lemma decode_resp_nonempty (b : byte) (data : pybytes) :
  decode_resp (b :: data) = Ok (RStr (utf8_decode_ignore (b :: data))).
Proof. reflexivity. Qed.


(** No buffer decodes to an error value, to a list or to an integer. *)
Lemma decode_resp_untyped (data : pybytes) (v : reply) :
  decode_resp data = Ok v ->
  match v with
  | RNone => data = []
  | RStr s => s = utf8_decode_ignore data
  | RInt _ | RError _ | RList _ => False
  end.
Proof.
  destruct data as [| b data].
  - intros H. inversion H. reflexivity.
  - rewrite decode_resp_nonempty. intros H. inversion H. reflexivity.
Qed.

(** C2: the bulk string that announces ten bytes and holds three decodes
    to neither an error value nor a partial result: the bulk branch, which
    reads the length 10 and slices out the three bytes [abc], is not
    entered, since the first byte, an [int], is compared with the [bytes]
    literal of the marker, and the whole buffer comes back as text, marker
    and length included.  Nothing is raised, and no buffer at all decodes
    to an error value or to a list. *)
Theorem decode_resp_truncated_bulk :
  decode_resp truncated_bulk = Ok (RStr (lit "$10" ++ CRLF ++ lit "abc"))
  /\ py_eq (OInt (ord x24)) (OBytes [x24]) = false
  /\ int_of_bytes
       (item0 (PySeq.split Byte.eqb bCRLF
                 (PySeq.slice truncated_bulk (Some 1) None)))
     = Ok 10
  /\ utf8_decode_ignore
       (PySeq.slice truncated_bulk
          (Some (PySeq.find Byte.eqb bCRLF truncated_bulk 0 + 2))
          (Some (PySeq.find Byte.eqb bCRLF truncated_bulk 0 + 2 + 10)))
     = lit "abc"
  /\ (forall data msg, decode_resp data <> Ok (RError msg))
  /\ (forall data l, decode_resp data <> Ok (RList l)).
Proof.
  repeat split; try reflexivity.
  - intros data msg H. exact (decode_resp_untyped _ H).
  - intros data l H. exact (decode_resp_untyped _ H).
Qed.

(** C1: the value decoded from the frame of the text [foo] is not [foo]
    but the text of the whole frame; likewise for an integer, for [None]
    and for a nested array. *)
Theorem decode_encode_returns_frame_text :
  decode_wire (DStr (lit "foo"))
    = Some (Ok (RStr (lit "$3" ++ CRLF ++ lit "foo" ++ CRLF)))
  /\ decode_wire (DInt 42) = Some (Ok (RStr (lit ":42" ++ CRLF)))
  /\ decode_wire DNone = Some (Ok (RStr (lit "$-1" ++ CRLF)))
  /\ decode_wire (DList [DInt 1; DList [DStr (lit "a")]])
     = Some (Ok (RStr (lit "*2" ++ CRLF ++ lit ":1" ++ CRLF ++ lit "*1" ++ CRLF
                         ++ lit "$1" ++ CRLF ++ lit "a" ++ CRLF))).
Proof. repeat split; reflexivity. Qed.

(** C10: the empty buffer decodes to [None], and the nil bulk string to
    the text of its frame. *)
Theorem decode_resp_empty_and_nil :
  decode_resp [] = Ok RNone
  /\ decode_resp [x24; x2d; x31; x0d; x0a] = Ok (RStr (lit "$-1" ++ CRLF)).
Proof. split; reflexivity. Qed.

(** The frames of the scalars, as [encode_resp] writes them; the length
    of a text is its number of code points. *)
Lemma encode_resp_frames (s text : pystr) (z : Z) :
  encode_resp (DStr s) = lit "$" ++ str_of_int (PySeq.len s) ++ CRLF ++ s ++ CRLF
  /\ encode_resp (DInt z) = lit ":" ++ str_of_int z ++ CRLF
  /\ encode_resp DNone = lit "$-1" ++ CRLF
  /\ encode_resp (DOther text) = lit "+" ++ text ++ CRLF
  /\ encode_resp (DBool true) = lit ":True" ++ CRLF.
Proof. repeat split; reflexivity. Qed.

(** For ASCII text the number of code points is the number of bytes. *)
Lemma utf8_encode_ascii (s : pystr) :
  Forall (fun c => (c < 128)%N) s -> utf8_encode s = Some (map byte_of_N s).
Proof.
  induction 1 as [| c s Hc _ IH]; cbn [utf8_encode map]; [reflexivity |].
  unfold utf8_encode_cp. destruct (N.ltb_spec c 128); [| lia].
  now rewrite IH.
Qed.

Lemma bulk_length_ascii (s : pystr) (bs : pybytes) :
  Forall (fun c => (c < 128)%N) s -> utf8_encode s = Some bs ->
  PySeq.len bs = PySeq.len s.
Proof.
  intros Hs E. rewrite (utf8_encode_ascii Hs) in E.
  inversion E; subst. unfold PySeq.len. now rewrite length_map.
Qed.

(** C6: for the one-character text U+00E9 the frame announces length 1,
    while the text takes two bytes on the wire. *)
Theorem encode_resp_counts_code_points :
  encode_resp (DStr [233%N]) = lit "$1" ++ CRLF ++ [233%N] ++ CRLF
  /\ utf8_encode [233%N] = Some [xc3; xa9]
  /\ wire (DStr [233%N]) = Some [x24; x31; x0d; x0a; xc3; xa9; x0d; x0a].
Proof. repeat split; reflexivity. Qed.

(** *** UTF-8: decoding what was encoded *)

Section UTF8.

Lemma to_N_byte_of_N (n : N) : (n < 256)%N -> Byte.to_N (byte_of_N n) = n.
Proof.
  intros H. unfold byte_of_N. rewrite N.mod_small by exact H.
  destruct (Byte.of_N n) eqn:E.
  - now apply Byte.to_of_N.
  - apply Byte.of_N_None_iff in E. lia.
Qed.

Ltac settle :=
  repeat (match goal with
          | |- context [N.eqb ?a ?b] => destruct (N.eqb_spec a b); try lia
          | |- context [N.ltb ?a ?b] => destruct (N.ltb_spec a b); try lia
          | |- context [N.leb ?a ?b] => destruct (N.leb_spec a b); try lia
          end; cbn [orb andb negb]).

Lemma decode_two (q m : N) (rest : pybytes) :
  (2 <= q < 32)%N -> (m < 64)%N ->
  utf8_decode_ignore (byte_of_N (192 + q) :: byte_of_N (128 + m) :: rest)
  = (q * 64 + m)%N :: utf8_decode_ignore rest.
Proof.
  intros Hq Hm. cbn [utf8_decode_ignore].
  rewrite !to_N_byte_of_N by lia. unfold second_ok, is_cont. settle.
  f_equal. lia.
Qed.

Lemma decode_three (a b m : N) (rest : pybytes) :
  (a < 16)%N -> (b < 64)%N -> (m < 64)%N ->
  (a = 0 -> 32 <= b)%N -> (a = 13 -> b < 32)%N ->
  utf8_decode_ignore (byte_of_N (224 + a) :: byte_of_N (128 + b)
                        :: byte_of_N (128 + m) :: rest)
  = (a * 4096 + b * 64 + m)%N :: utf8_decode_ignore rest.
Proof.
  intros Ha Hb Hm H0 H13. cbn [utf8_decode_ignore].
  rewrite !to_N_byte_of_N by lia. unfold second_ok, is_cont. settle.
  all: f_equal; lia.
Qed.

Lemma decode_four (a b d m : N) (rest : pybytes) :
  (a <= 4)%N -> (b < 64)%N -> (d < 64)%N -> (m < 64)%N ->
  (a = 0 -> 16 <= b)%N -> (a = 4 -> b < 16)%N ->
  utf8_decode_ignore (byte_of_N (240 + a) :: byte_of_N (128 + b)
                        :: byte_of_N (128 + d) :: byte_of_N (128 + m) :: rest)
  = (a * 262144 + b * 4096 + d * 64 + m)%N :: utf8_decode_ignore rest.
Proof.
  intros Ha Hb Hd Hm H0 H4. cbn [utf8_decode_ignore].
  rewrite !to_N_byte_of_N by lia. unfold second_ok, is_cont. settle.
  all: f_equal; lia.
Qed.
Lemma Some_eq {A} (x y : A) : Some x = Some y -> x = y.
Proof. congruence. Qed.

Lemma utf8_cp_roundtrip (c : N) (b rest : pybytes) :
  utf8_encode_cp c = Some b ->
  utf8_decode_ignore (b ++ rest) = c :: utf8_decode_ignore rest.
Proof.
  unfold utf8_encode_cp.
  pose proof (N.div_mod' c 64) as E64.
  pose proof (N.mod_lt c 64 ltac:(discriminate)) as M64.
  pose proof (N.div_mod' (c / 64) 64) as E4096.
  pose proof (N.mod_lt (c / 64) 64 ltac:(discriminate)) as M4096.
  rewrite (N.Div0.div_div c 64 64) in E4096. change (64 * 64)%N with 4096%N in E4096.
  pose proof (N.div_mod' (c / 4096) 64) as E262144.
  pose proof (N.mod_lt (c / 4096) 64 ltac:(discriminate)) as M262144.
  rewrite (N.Div0.div_div c 4096 64) in E262144.
  change (4096 * 64)%N with 262144%N in E262144.
  remember ((c / 64) mod 64)%N as m2 eqn:Em2.
  remember ((c / 4096) mod 64)%N as m3 eqn:Em3.
  remember (c mod 64)%N as m1 eqn:Em1.
  remember (c / 64)%N as q1 eqn:Eq1.
  remember (c / 4096)%N as q2 eqn:Eq2.
  remember (c / 262144)%N as q3 eqn:Eq3.
  clear Em1 Em2 Em3 Eq1 Eq2 Eq3.
  destruct (N.ltb_spec c 128).
  { intros E. apply Some_eq in E. subst b. cbn [app utf8_decode_ignore].
    rewrite to_N_byte_of_N by lia. settle. reflexivity. }
  destruct (N.ltb_spec c 2048).
  { intros E. apply Some_eq in E. subst b. cbn [app].
    rewrite decode_two by lia. f_equal. lia. }
  destruct (N.ltb_spec c 65536).
  { destruct (N.leb_spec 55296 c); destruct (N.leb_spec c 57343);
      cbn [andb]; try discriminate;
      intros E; apply Some_eq in E; subst b; cbn [app];
      rewrite decode_three by lia; f_equal; lia. }
  destruct (N.ltb_spec c 1114112); [| discriminate].
  intros E. apply Some_eq in E. subst b. cbn [app].
  rewrite decode_four by lia. f_equal. lia.
Qed.

Lemma utf8_roundtrip (s : pystr) (bs : pybytes) :
  utf8_encode s = Some bs -> utf8_decode_ignore bs = s.
Proof.
  revert bs. induction s as [| c s IH]; intros bs; cbn [utf8_encode].
  - intros E. apply Some_eq in E. now subst.
  - destruct (utf8_encode_cp c) as [b |] eqn:Ec; [| discriminate].
    destruct (utf8_encode s) as [bs' |]; [| discriminate].
    intros E. apply Some_eq in E. subst bs.
    rewrite (@utf8_cp_roundtrip c b bs' Ec). f_equal. now apply IH.
Qed.
End UTF8.

Lemma encode_resp_nonempty (v : pydata) :
  exists c s, encode_resp v = c :: s.
Proof.
  destruct v as [s | z | b | l | | t].
  - cbn. eauto.
  - cbn. eauto.
  - destruct b; cbn; eauto.
  - rewrite encode_resp_list. cbn. eauto.
  - cbn. eauto.
  - cbn. eauto.
Qed.

(** The frame of a text is not that text. *)
Lemma encode_resp_str_longer (s : pystr) : encode_resp (DStr s) <> s.
Proof.
  intros E. apply (f_equal (@List.length N)) in E.
  cbn [encode_resp] in E. rewrite !length_app in E. cbn in E. lia.
Qed.

(** What comes back from the wire is the text of the frame that was
    sent, for every value. *)
Lemma decode_wire_is_frame_text (v : pydata) (bs : pybytes) :
  wire v = Some bs -> decode_resp bs = Ok (RStr (encode_resp v)).
Proof.
  unfold wire. intros H. pose proof (utf8_roundtrip _ H) as Hrt.
  destruct bs as [| b bs].
  - destruct (encode_resp_nonempty v) as (c & s & E).
    rewrite E in Hrt. discriminate Hrt.
  - rewrite decode_resp_nonempty. now rewrite Hrt.
Qed.

(** Hence no value built from text, integers, [None] and lists is given
    back by decoding its frame. *)
Lemma roundtrip_never_reconstructs (v : pydata) (bs : pybytes) (r : reply) :
  wire v = Some bs -> reply_of v = Some r -> decode_resp bs <> Ok r.
Proof.
  intros Hw Hr. rewrite (decode_wire_is_frame_text _ Hw). intros E.
  inversion E; subst r.
  destruct v; cbn in Hr; try discriminate.
  - inversion Hr as [Hs]. apply (@encode_resp_str_longer s).
    symmetry. exact Hs.
  - destruct ((fix all (l : list pydata) : option (list reply) := _) l);
      discriminate.
Qed.

(** ** The module [random] *)

Module RandomFacts.
Import random.

Lemma draw_total (r : rng) : exists k r', draw r = (Ok k, r').
Proof. destruct r as [| k r]; simpl; eauto. Qed.

Lemma random_total (r : rng) :
  exists k r', draw r = (Ok k, r')
               /\ random r = (Ok (Z.of_N (k mod 2 ^ 53) # 2 ^ 53)%Q, r').
Proof.
  destruct (draw_total r) as (k & r' & Hd). exists k, r'. split; [exact Hd |].
  unfold random. now rewrite (bind_step _ _ Hd).
Qed.

(** A draw of [random.random()] is never below zero. *)
Lemma random_not_negative (r : rng) u r' :
  random r = (Ok u, r') -> Qltb u 0 = false.
Proof.
  destruct (random_total r) as (k & r1 & _ & Hr). rewrite Hr.
  intros H. inversion H; subst. unfold Qltb, Qle_bool. cbn [Qnum Qden].
  apply negb_false_iff, Z.leb_le.
  rewrite Z.mul_0_l, Z.mul_1_r. apply N2Z.is_nonneg.
Qed.

(** ... and always below one. *)
Lemma random_below_one (r : rng) u r' :
  random r = (Ok u, r') -> Qltb u 1 = true.
Proof.
  destruct (random_total r) as (k & r1 & _ & Hr). rewrite Hr.
  intros H. inversion H; subst. unfold Qltb, Qle_bool. cbn [Qnum Qden].
  apply negb_true_iff, Z.leb_gt.
  rewrite Z.mul_1_l, Z.mul_1_r.
  change (Z.pos (2 ^ 53)) with (Z.of_N (N.pos (2 ^ 53))).
  apply N2Z.inj_lt, N.mod_lt. discriminate.
Qed.

Lemma randbelow_total (n : nat) (r : rng) :
  exists j r', randbelow n r = (Ok j, r').
Proof.
  destruct (draw_total r) as (k & r' & Hd).
  unfold randbelow. rewrite (bind_step _ _ Hd). unfold ret. eauto.
Qed.

Lemma randbelow_lt (n : nat) (r : rng) j r' :
  (0 < n)%nat -> randbelow n r = (Ok j, r') -> (j < n)%nat.
Proof.
  intros Hn H. unfold randbelow in H. inv_bind H.
  apply ret_Ok in H as [<- _].
  pose proof (N.mod_lt v (N.of_nat n)). lia.
Qed.

Lemma choice_In {A} (seq : list A) (r : rng) x r' :
  choice seq r = (Ok x, r') -> In x seq.
Proof.
  destruct seq as [| a seq]; [discriminate |].
  unfold choice. intros H. inv_bind H. apply ret_Ok in H as [<- _].
  apply nth_In. eapply randbelow_lt; [| eassumption]. simpl; lia.
Qed.

Lemma choice_total {A} (seq : list A) (r : rng) :
  seq <> [] -> exists x r', choice seq r = (Ok x, r').
Proof.
  destruct seq as [| a seq]; [congruence | intros _].
  destruct (randbelow_total (List.length (a :: seq)) r) as (j & r' & Hj).
  unfold choice. rewrite (bind_step _ _ Hj). unfold ret. eauto.
Qed.

Lemma randint_range (a b : Z) (r : rng) n r' :
  randint a b r = (Ok n, r') -> a <= n <= b.
Proof.
  unfold randint. destruct (b <? a) eqn:Hab; [discriminate |].
  apply Z.ltb_ge in Hab. intros H. inv_bind H. apply ret_Ok in H as [<- _].
  apply randbelow_lt in Hrun; lia.
Qed.

Lemma randint_total (a b : Z) (r : rng) :
  a <= b -> exists n r', randint a b r = (Ok n, r').
Proof.
  intros Hab. unfold randint.
  destruct (b <? a) eqn:E; [apply Z.ltb_lt in E; lia |].
  destruct (randbelow_total (Z.to_nat (b - a + 1)) r) as (j & r' & Hj).
  rewrite (bind_step _ _ Hj). unfold ret. eauto.
Qed.

Lemma take_out_Permutation {A} (pool : list A) (j : nat) (d : A) :
  (j < List.length pool)%nat ->
  Permutation pool (nth j pool d :: firstn j pool ++ skipn (S j) pool).
Proof.
  revert j. induction pool as [| a pool IH]; intros [| j] Hj; simpl in *;
    try lia.
  - reflexivity.
  - rewrite (IH j) at 1 by lia. apply perm_swap.
Qed.

Lemma sample_loop_total {A} (k : nat) (pool : list A) (r : rng) :
  exists l r', sample_loop k pool r = (Ok l, r').
Proof.
  revert pool r. induction k as [| k IH]; intros pool r; simpl.
  - unfold ret; eauto.
  - destruct pool as [| a pool]; [unfold ret; eauto |].
    destruct (randbelow_total (List.length (a :: pool)) r) as (j & r1 & Hj).
    rewrite (bind_step _ _ Hj).
    destruct (IH (firstn j (a :: pool) ++ skipn (S j) (a :: pool)) r1)
      as (l & r2 & Hl).
    rewrite (bind_step _ _ Hl). unfold ret. eauto.
Qed.

(** The sample and what is left of the pool make up the pool: no item
    is taken twice. *)
Lemma sample_loop_spec {A} (k : nat) (pool : list A) (r : rng) l r' :
  sample_loop k pool r = (Ok l, r') ->
  List.length l = Nat.min k (List.length pool)
  /\ exists rest, Permutation pool (l ++ rest).
Proof.
  revert pool r l r'. induction k as [| k IH]; intros pool r l r' H; simpl in H.
  - apply ret_Ok in H as [<- _]. split; [reflexivity |].
    exists pool. reflexivity.
  - destruct pool as [| a pool].
    + apply ret_Ok in H as [<- _]. split; [reflexivity |]. exists []. reflexivity.
    + inv_bind H. inv_bind H. apply ret_Ok in H as [<- _].
      apply randbelow_lt in Hrun; [| simpl; lia].
      apply IH in Hrun0 as [Hlen [rest Hperm]].
      split.
      * cbn [List.length]. rewrite Hlen.
        rewrite length_app, length_firstn, length_skipn.
        cbn [List.length] in *. lia.
      * exists rest. cbn [app].
        rewrite (take_out_Permutation (a :: pool) a Hrun) at 1.
        now apply perm_skip.
Qed.

Lemma sample_total {A} (population : list A) (k : Z) (r : rng) :
  0 <= k <= PySeq.len population ->
  exists l r', sample population k r = (Ok l, r').
Proof.
  intros Hk. unfold sample.
  destruct ((k <? 0) || (PySeq.len population <? k)) eqn:E.
  - apply orb_true_iff in E as [E | E]; apply Z.ltb_lt in E; lia.
  - apply sample_loop_total.
Qed.

Lemma sample_spec {A} (population : list A) (k : Z) (r : rng) l r' :
  sample population k r = (Ok l, r') ->
  PySeq.len l = k /\ exists rest, Permutation population (l ++ rest).
Proof.
  unfold sample.
  destruct ((k <? 0) || (PySeq.len population <? k)) eqn:E; [discriminate |].
  apply orb_false_iff in E as [E1 E2].
  apply Z.ltb_ge in E1, E2. intros H.
  apply sample_loop_spec in H as [Hlen Hperm]. split; [| exact Hperm].
  unfold PySeq.len in *. lia.
Qed.

Lemma upd_take {A} (t : list A) (j : nat) (a b : A) :
  nth_error t j = Some b -> Permutation (b :: upd j a t) (a :: t).
Proof.
  revert j. induction t as [| h t IH]; intros [| j] H; simpl in *;
    try discriminate.
  - inversion H; subst. apply perm_swap.
  - rewrite perm_swap. rewrite (IH j H). apply perm_swap.
Qed.

Lemma swap_Permutation {A} (x : list A) (i j : nat) :
  Permutation (swap x i j) x.
Proof.
  unfold swap.
  destruct (nth_error x i) as [a |] eqn:Hi; [| reflexivity].
  destruct (nth_error x j) as [b |] eqn:Hj; [| reflexivity].
  revert i j Hi Hj. induction x as [| h t IH]; intros [| i] [| j] Hi Hj;
    simpl in *; try discriminate.
  - inversion Hi; inversion Hj; subst. reflexivity.
  - inversion Hi; subst. now apply upd_take.
  - inversion Hj; subst. now apply upd_take.
  - apply perm_skip. now apply IH.
Qed.

Lemma shuffle_loop_spec {A} (n : nat) (x : list A) (r : rng) :
  exists y r', shuffle_loop n x r = (Ok y, r') /\ Permutation y x.
Proof.
  revert x r. induction n as [| n IH]; intros x r; simpl.
  - exists x, r. split; reflexivity.
  - destruct (randbelow_total (S (S n)) r) as (j & r1 & Hj).
    rewrite (bind_step _ _ Hj).
    destruct (IH (swap x (S n) j) r1) as (y & r2 & Hy & Hp).
    exists y, r2. split; [exact Hy |].
    rewrite Hp. apply swap_Permutation.
Qed.

(** [random.shuffle] always returns, with a rearrangement of its list. *)
Lemma shuffle_spec {A} (x : list A) (r : rng) :
  exists y r', shuffle x r = (Ok y, r') /\ Permutation y x.
Proof. apply shuffle_loop_spec. Qed.

End RandomFacts.

(** ** Strings, dictionaries *)

Lemma str_eqb_eq (a b : pystr) : str_eqb a b = true <-> a = b.
Proof.
  revert b. induction a as [| x a IH]; intros [| y b]; simpl;
    try (split; [discriminate | congruence]).
  - split; reflexivity.
  - rewrite andb_true_iff, N.eqb_eq, IH. split.
    + intros [-> ->]. reflexivity.
    + intros H. inversion H. split; reflexivity.
Qed.

Lemma str_in_In (x : pystr) (l : list pystr) : str_in x l = true <-> In x l.
Proof.
  unfold str_in. rewrite existsb_exists. split.
  - intros (y & Hy & E). apply str_eqb_eq in E. now subst.
  - intros H. exists x. split; [exact H | now apply str_eqb_eq].
Qed.

Lemma has_key_In {V} (d : dict V) (k : pystr) :
  has_key d k = true <-> In k (keys d).
Proof.
  unfold has_key. induction d as [| [k' v] d IH]; simpl.
  - split; [discriminate | tauto].
  - destruct (str_eqb k k') eqn:E.
    + apply str_eqb_eq in E. subst. split; auto.
    + rewrite IH. split; [auto |]. intros [-> | H]; [| exact H].
      assert (str_eqb k k = true) by now apply str_eqb_eq. congruence.
Qed.

Lemma getitem_Ok {V} (d : dict V) (k : pystr) (r : rng) v r' :
  getitem d k r = (Ok v, r') -> lookup d k = Some v /\ r = r'.
Proof.
  unfold getitem. destruct (lookup d k); [| discriminate].
  intros H. apply ret_Ok in H as [-> ->]. split; reflexivity.
Qed.

Lemma getitem_has_key {V} (d : dict V) (k : pystr) (r : rng) :
  has_key d k = true -> exists v, lookup d k = Some v /\ getitem d k r = (Ok v, r).
Proof.
  unfold has_key, getitem. destruct (lookup d k) as [v |]; [| discriminate].
  intros _. exists v. split; reflexivity.
Qed.

(** ** The argument generator *)

Section ArgumentFacts.
Variable ARG_TYPE_MAP : dict arg_type_entry.
Variable DATA_TYPES : dict gen.

Local Abbreviation synth := (synthesize_arg ARG_TYPE_MAP DATA_TYPES).
Local Abbreviation gen_arg := (generate_random_arg ARG_TYPE_MAP DATA_TYPES).
Local Abbreviation expand := (expand_optional ARG_TYPE_MAP DATA_TYPES).

Lemma generate_random_arg_ratio_zero
      (INPUT_VALUES DICT_VALUES : list pystr) (arg_type : pystr) (r : rng) :
  gen_arg 0%Q INPUT_VALUES DICT_VALUES arg_type r
  = (_ <- random.random ;; synth arg_type) r.
Proof.
  unfold generate_random_arg.
  destruct (RandomFacts.random_total r) as (k & r1 & _ & Hr).
  rewrite !(bind_step _ _ Hr).
  now rewrite (RandomFacts.random_not_negative _ Hr).
Qed.

(** C9: with mix ratio 0.0 the argument generator is the synthetic stage
    run after the one uniform draw, for every argument type and whatever
    the corpus and the dictionary hold: the pools are not consulted, and
    the result is the same with any other pools. *)
Theorem mix_ratio_zero_synthesizes
        (INPUT_VALUES DICT_VALUES : list pystr) (arg_type : pystr) (r : rng) :
  gen_arg 0%Q INPUT_VALUES DICT_VALUES arg_type r
  = (_ <- random.random ;; synth arg_type) r
  /\ forall I' D',
      gen_arg 0%Q I' D' arg_type r
      = gen_arg 0%Q INPUT_VALUES DICT_VALUES arg_type r.
Proof.
  split; [apply generate_random_arg_ratio_zero |].
  intros I' D'. now rewrite !generate_random_arg_ratio_zero.
Qed.

(** The corpus alone, and a second draw not below one half: no literal
    is returned, although the corpus has some. *)
Lemma corpus_only_miss (v : pystr) (INPUT_VALUES : list pystr)
      (arg_type : pystr) (k : N) (r : rng) :
  Qltb (Z.of_N (k mod 2 ^ 53) # 2 ^ 53) (1 # 2) = false ->
  get_value_from_dictionary (v :: INPUT_VALUES) [] arg_type (k :: r)
  = (Ok None, r).
Proof.
  intros Hk. unfold get_value_from_dictionary.
  assert (Hr : random.random (k :: r)
               = (Ok (Z.of_N (k mod 2 ^ 53) # 2 ^ 53)%Q, r)) by reflexivity.
  rewrite (bind_step _ _ Hr). now rewrite Hk.
Qed.

(** Both pools at hand: the corpus is chosen exactly when the second
    draw is below one half, that is for [2^52] of the [2^53] grid values. *)
Lemma pool_chosen_by_coin (i0 d0 : pystr) (I D : list pystr)
      (arg_type : pystr) (k : N) (r : rng) :
  get_value_from_dictionary (i0 :: I) (d0 :: D) arg_type (k :: r)
  = (if (k mod 2 ^ 53 <? 2 ^ 52)%N
     then (v <- random.choice (i0 :: I) ;; ret (Some v)) r
     else (v <- random.choice (d0 :: D) ;; ret (Some v)) r).
Proof.
  unfold get_value_from_dictionary.
  assert (Hr : random.random (k :: r)
               = (Ok (Z.of_N (k mod 2 ^ 53) # 2 ^ 53)%Q, r)) by reflexivity.
  rewrite (bind_step _ _ Hr).
  assert (Hcoin : Qltb (Z.of_N (k mod 2 ^ 53) # 2 ^ 53) (1 # 2)
                  = (k mod 2 ^ 53 <? 2 ^ 52)%N).
  { unfold Qltb, Qle_bool. cbn [Qnum Qden].
    generalize (k mod 2 ^ 53)%N. intros m.
    change (Z.pos (2 ^ 53)) with (2 * Z.of_N (2 ^ 52)).
    destruct (N.ltb_spec m (2 ^ 52)) as [Hm | Hm].
    - apply negb_true_iff, Z.leb_gt. apply N2Z.inj_lt in Hm. lia.
    - apply negb_false_iff, Z.leb_le. apply N2Z.inj_le in Hm. lia. }
  rewrite Hcoin. now destruct (_ <? _)%N.
Qed.

(** What the dictionary stage returns is a literal of one of the pools. *)
Lemma get_value_from_dictionary_In
      (INPUT_VALUES DICT_VALUES : list pystr) (arg_type : pystr)
      (r : rng) v r' :
  get_value_from_dictionary INPUT_VALUES DICT_VALUES arg_type r
  = (Ok (Some v), r') ->
  In v INPUT_VALUES \/ In v DICT_VALUES.
Proof.
  unfold get_value_from_dictionary.
  assert (Hc : forall (l : list pystr) s s',
             (x <- random.choice l ;; ret (Some x)) s = (Ok (Some v), s') ->
             In v l).
  { intros l s s' H. inv_bind H. apply ret_Ok in H as [H _].
    inversion H; subst. eapply RandomFacts.choice_In; eassumption. }
  destruct INPUT_VALUES as [| i0 I]; destruct DICT_VALUES as [| d0 D]; intros H.
  - discriminate H.
  - right. eapply Hc; eassumption.
  - inv_bind H. destruct (Qltb v0 (1 # 2)).
    + left. eapply Hc; eassumption.
    + discriminate H.
  - inv_bind H. destruct (Qltb v0 (1 # 2)).
    + left. eapply Hc; eassumption.
    + right. eapply Hc; eassumption.
Qed.

(** With a dictionary at hand the dictionary stage always yields a
    literal, from the corpus exactly when there is a corpus and the
    second draw is below one half. *)
Lemma get_value_from_dictionary_hit
      (INPUT_VALUES DICT_VALUES : list pystr) (arg_type : pystr) (r : rng) :
  DICT_VALUES <> [] ->
  exists v r',
    get_value_from_dictionary INPUT_VALUES DICT_VALUES arg_type r
    = (Ok (Some v), r').
Proof.
  intros HD. unfold get_value_from_dictionary.
  assert (Hc : forall (l : list pystr) s, l <> [] ->
             exists v s', (x <- random.choice l ;; ret (Some x)) s
                          = (Ok (Some v), s')).
  { intros l s Hl. destruct (RandomFacts.choice_total s Hl) as (x & s' & Hx).
    exists x, s'. now rewrite (bind_step _ _ Hx). }
  destruct DICT_VALUES as [| d0 D]; [congruence |].
  destruct INPUT_VALUES as [| i0 I].
  - apply Hc. discriminate.
  - destruct (RandomFacts.random_total r) as (k & r1 & _ & Hr).
    rewrite (bind_step _ _ Hr).
    destruct (Qltb _ (1 # 2)); apply Hc; discriminate.
Qed.

(** The dictionary stage of [generate_random_arg]: below the mix ratio,
    with a dictionary at hand and no empty literal in the pools, the
    value returned is a literal of the pools. *)
Lemma dictionary_stage_returns_literal
      (DICT_MIX_RATIO : Q) (INPUT_VALUES DICT_VALUES : list pystr)
      (arg_type : pystr) (k : N) (r : rng) :
  Qltb (Z.of_N (k mod 2 ^ 53) # 2 ^ 53) DICT_MIX_RATIO = true ->
  DICT_VALUES <> [] ->
  ~ In [] INPUT_VALUES -> ~ In [] DICT_VALUES ->
  exists v r',
    gen_arg DICT_MIX_RATIO INPUT_VALUES DICT_VALUES arg_type (k :: r)
    = (Ok v, r')
    /\ (In v INPUT_VALUES \/ In v DICT_VALUES).
Proof.
  intros Hk HD HI0 HD0. unfold generate_random_arg.
  assert (Hr : random.random (k :: r)
               = (Ok (Z.of_N (k mod 2 ^ 53) # 2 ^ 53)%Q, r)) by reflexivity.
  rewrite (bind_step _ _ Hr). rewrite Hk.
  destruct (get_value_from_dictionary_hit INPUT_VALUES arg_type r HD)
    as (v & r' & Hv).
  rewrite (bind_step _ _ Hv).
  pose proof (get_value_from_dictionary_In _ _ _ _ Hv) as Hin.
  destruct v as [| c v].
  - destruct Hin; contradiction.
  - exists (c :: v), r'. split; [reflexivity | exact Hin].
Qed.

(** C5: the optional argument spec "NX|XX" of SET, a set of two
    alternatives, is appended as it stands, without a draw; neither
    alternative is chosen. *)
Theorem bare_alternatives_appended_raw
        (DICT_MIX_RATIO : Q) (INPUT_VALUES DICT_VALUES : list pystr)
        (args : list pystr) (r : rng) :
  expand DICT_MIX_RATIO INPUT_VALUES DICT_VALUES args (lit "NX|XX") r
  = (Ok (args ++ [lit "NX|XX"]), r)
  /\ PySeq.split N.eqb (lit "|") (lit "NX|XX") = [lit "NX"; lit "XX"]
  /\ ~ In (lit "NX|XX") [lit "NX"; lit "XX"].
Proof.
  repeat split; try reflexivity.
  intros [H | [H | []]]; discriminate H.
Qed.

(** Any spec without a space is appended verbatim. *)
Lemma expand_optional_bare
      (DICT_MIX_RATIO : Q) (INPUT_VALUES DICT_VALUES : list pystr)
      (args : list pystr) (opt_arg : pystr) (r : rng) :
  PySeq.contains N.eqb (lit " ") opt_arg = false ->
  expand DICT_MIX_RATIO INPUT_VALUES DICT_VALUES args opt_arg r
  = (Ok (args ++ [opt_arg]), r).
Proof. intros H. unfold expand_optional. now rewrite H. Qed.

(** A token and a type: the token, then one generated value. *)
Lemma expand_optional_token_type
      (DICT_MIX_RATIO : Q) (INPUT_VALUES DICT_VALUES : list pystr)
      (args : list pystr) (r : rng) :
  expand DICT_MIX_RATIO INPUT_VALUES DICT_VALUES args (lit "EX seconds") r
  = (v <- gen_arg DICT_MIX_RATIO INPUT_VALUES DICT_VALUES (lit "seconds") ;;
     ret (args ++ [lit "EX"; v])) r.
Proof. reflexivity. Qed.

(** Alternatives followed by a space and more text: one alternative is
    drawn, and the rest of the spec is left out. *)
Lemma expand_optional_alternatives_spaced
      (DICT_MIX_RATIO : Q) (INPUT_VALUES DICT_VALUES : list pystr)
      (args : list pystr) (r : rng) :
  expand DICT_MIX_RATIO INPUT_VALUES DICT_VALUES args (lit "A|B x") r
  = (c <- random.choice [lit "A"; lit "B"] ;; ret (args ++ [c])) r.
Proof. reflexivity. Qed.

End ArgumentFacts.

(** C4: a corpus of one literal, no dictionary, mix ratio 1.0: the first
    draw is below the ratio, the second is one half, and the value returned
    for the type [key] is synthesized, not the literal of the corpus. *)
Theorem corpus_only_value_synthesized :
  generate_random_arg Excerpt.ARG_TYPE_MAP Excerpt.DATA_TYPES 1%Q
                      [lit "foo"] [] (lit "key")
                      [0; 2 ^ 52; 2 ^ 53 - 1; 0; 0]%N
  = (Ok (lit "key:a"), [])
  /\ ~ In (lit "key:a") [lit "foo"].
Proof.
  split; [vm_compute; reflexivity |].
  intros [H | []]; discriminate H.
Qed.

(** ** The command generator and the seed parser *)

Section CommandFacts.
Variable REDIS_COMMANDS : dict command_info.
Variable EXCLUDED_COMMANDS : list pystr.
Variable FOCUS_COMMANDS : list pystr.
Variable ARG_TYPE_MAP : dict arg_type_entry.
Variable DATA_TYPES : dict gen.
Variable DICT_MIX_RATIO : Q.
Variable INPUT_VALUES : list pystr.
Variable DICT_VALUES : list pystr.
Variable unicode_upper : N -> pystr.

Local Abbreviation excluded := (fun c => str_in c EXCLUDED_COMMANDS).
Local Abbreviation allowed := (not_excluded EXCLUDED_COMMANDS).
Local Abbreviation available := (available_commands REDIS_COMMANDS EXCLUDED_COMMANDS).
Local Abbreviation focus := (focus_candidates EXCLUDED_COMMANDS FOCUS_COMMANDS).
Local Abbreviation select :=
  (select_command REDIS_COMMANDS EXCLUDED_COMMANDS FOCUS_COMMANDS).
Local Abbreviation gen_arg :=
  (generate_random_arg ARG_TYPE_MAP DATA_TYPES DICT_MIX_RATIO INPUT_VALUES
                       DICT_VALUES).
Local Abbreviation expand :=
  (expand_optional ARG_TYPE_MAP DATA_TYPES DICT_MIX_RATIO INPUT_VALUES
                   DICT_VALUES).
Local Abbreviation gen_command :=
  (generate_random_command REDIS_COMMANDS EXCLUDED_COMMANDS FOCUS_COMMANDS
                           ARG_TYPE_MAP DATA_TYPES DICT_MIX_RATIO INPUT_VALUES
                           DICT_VALUES).
Local Abbreviation parsed :=
  (parsed_commands REDIS_COMMANDS EXCLUDED_COMMANDS unicode_upper).

Lemma available_In_keys (c : pystr) :
  In c available -> In c (keys REDIS_COMMANDS).
Proof.
  unfold available_commands.
  destruct (filter allowed (keys REDIS_COMMANDS)) as [| x l] eqn:E;
    [tauto |].
  rewrite <- E. intros H. now apply filter_In in H.
Qed.

Lemma available_allowed (c : pystr) :
  existsb allowed (keys REDIS_COMMANDS) = true ->
  In c available -> allowed c = true.
Proof.
  intros Hex. unfold available_commands.
  destruct (filter allowed (keys REDIS_COMMANDS)) as [| x l] eqn:E.
  - apply existsb_exists in Hex as (y & Hy & Hay).
    assert (In y (filter allowed (keys REDIS_COMMANDS)))
      by (apply filter_In; split; assumption).
    rewrite E in H. contradiction.
  - rewrite <- E. intros H. now apply filter_In in H.
Qed.

Lemma focus_allowed (c : pystr) : In c focus -> allowed c = true.
Proof. unfold focus_candidates. intros H. now apply filter_In in H. Qed.

Lemma select_command_In (r : rng) c r' :
  select r = (Ok c, r') -> In c available \/ In c focus.
Proof.
  unfold select_command.
  destruct focus as [| f1 [| f2 fs]] eqn:E; intros H.
  - left. eapply RandomFacts.choice_In; eassumption.
  - inv_bind H. destruct (Qltb v float_0_3).
    + apply ret_Ok in H as [<- _]. right. now left.
    + left. eapply RandomFacts.choice_In; eassumption.
  - inv_bind H. destruct (Qltb v (50 # 100)).
    + right. eapply RandomFacts.choice_In; eassumption.
    + left. eapply RandomFacts.choice_In; eassumption.
Qed.

(** The name of a generated command is the one selected, and it is a key
    of the catalog. *)
Lemma generate_random_command_name (r : rng) c a r' :
  gen_command r = (Ok (c, a), r') ->
  exists r1, select r = (Ok c, r1) /\ has_key REDIS_COMMANDS c = true.
Proof.
  unfold generate_random_command. intros H.
  inv_bind H. inv_bind H. inv_bind H.
  apply getitem_Ok in Hrun0 as [Hlook _].
  assert (Hk : has_key REDIS_COMMANDS v = true)
    by (unfold has_key; now rewrite Hlook).
  assert (c = v); [| subst; eauto].
  destruct (optional_args v0).
  - apply ret_Ok in H as [H _]. now inversion H.
  - inv_bind H. destruct (Qltb v2 float_0_7).
    + inv_bind H. inv_bind H. inv_bind H.
      apply ret_Ok in H as [H _]. now inversion H.
    + apply ret_Ok in H as [H _]. now inversion H.
Qed.

Lemma generated_allowed (r : rng) c a r' :
  existsb allowed (keys REDIS_COMMANDS) = true ->
  gen_command r = (Ok (c, a), r') -> allowed c = true.
Proof.
  intros Hex H. apply generate_random_command_name in H as (r1 & Hs & _).
  apply select_command_In in Hs as [Hs | Hs].
  - now apply available_allowed.
  - now apply focus_allowed.
Qed.

Lemma parse_line_accepts (line : pybytes) c a :
  parse_line REDIS_COMMANDS EXCLUDED_COMMANDS unicode_upper line = Some (c, a) ->
  has_key REDIS_COMMANDS c = true /\ allowed c = true.
Proof.
  unfold parse_line. destruct line as [| b line]; [discriminate |].
  destruct (PySeq.split _ _ _) as [| p0 rest]; [discriminate |].
  destruct (has_key REDIS_COMMANDS (py_upper unicode_upper p0)
            && allowed (py_upper unicode_upper p0)) eqn:E; [| discriminate].
  intros H. inversion H; subst. now apply andb_true_iff in E.
Qed.

Lemma parse_lines_In (lines : list pybytes) (c : command) :
  In c (parse_lines REDIS_COMMANDS EXCLUDED_COMMANDS unicode_upper lines) ->
  exists line, In line lines
    /\ parse_line REDIS_COMMANDS EXCLUDED_COMMANDS unicode_upper line = Some c.
Proof.
  induction lines as [| line lines IH]; simpl; [tauto |].
  destruct (parse_line _ _ _ line) as [c' |] eqn:E.
  - intros [<- | H].
    + exists line. auto.
    + destruct (IH H) as (l & Hl & Hp). exists l. auto.
  - intros H. destruct (IH H) as (l & Hl & Hp). exists l. auto.
Qed.

(** C3 (as amended): a generated command is a command of the catalog;
    it is outside the exclusion set as soon as one command of the catalog
    is; and a command accepted from the fuzzer input is a command of the
    catalog outside the exclusion set, whatever that set holds. *)
Theorem exclusion_enforced :
  (forall r c a r',
      gen_command r = (Ok (c, a), r') ->
      has_key REDIS_COMMANDS c = true
      /\ (existsb allowed (keys REDIS_COMMANDS) = true -> excluded c = false))
  /\ (forall afl_input c a,
        In (c, a) (parsed afl_input) ->
        has_key REDIS_COMMANDS c = true /\ excluded c = false).
Proof.
  split.
  - intros r c a r' H. split.
    + now apply generate_random_command_name in H as (_ & _ & Hk).
    + intros Hex. apply (generated_allowed _ Hex) in H.
      now apply negb_true_iff in H.
  - intros afl_input c a H. unfold parsed_commands in H.
    apply parse_lines_In in H as (line & _ & Hp).
    apply parse_line_accepts in Hp as [Hk Ha].
    split; [exact Hk | now apply negb_true_iff in Ha].
Qed.

End CommandFacts.

(** C3, where the claim fails: with every command of the catalog excluded
    the generator falls back to the whole catalog and returns EXPIRE, a
    member of the exclusion set. *)
Lemma generated_command_excluded :
  generate_random_command Excerpt.REDIS_COMMANDS
                          [lit "EXPIRE"; lit "SET"; lit "GET"] []
                          Excerpt.ARG_TYPE_MAP Excerpt.DATA_TYPES (9 # 10)
                          [] [] []
  = (Ok (lit "EXPIRE", [lit "key:a!"; lit "1"]), [])
  /\ str_in (lit "EXPIRE") [lit "EXPIRE"; lit "SET"; lit "GET"] = true.
Proof. split; vm_compute; reflexivity. Qed.

Lemma exclusion_enforced_witness :
  existsb (not_excluded [lit "SET"]) (keys Excerpt.REDIS_COMMANDS) = true
  /\ generate_random_command Excerpt.REDIS_COMMANDS [lit "SET"] []
                             Excerpt.ARG_TYPE_MAP Excerpt.DATA_TYPES (9 # 10)
                             [] [] [1%N]
     = (Ok (lit "GET", [lit "key:a!"]), [])
  /\ str_in (lit "GET") [lit "SET"] = false
  /\ parsed_commands Excerpt.REDIS_COMMANDS [lit "SET"] Excerpt.unicode_upper
                     [x67; x65; x74; x20; x6b; x0a; x53; x45; x54; x20; x6b]
     = [(lit "GET", [lit "k"])].
Proof.
  assert (Hgen : generate_random_command Excerpt.REDIS_COMMANDS [lit "SET"] []
                   Excerpt.ARG_TYPE_MAP Excerpt.DATA_TYPES (9 # 10) [] [] [1%N]
                 = (Ok (lit "GET", [lit "key:a!"]), []))
    by (vm_compute; reflexivity).
  assert (Hex : existsb (not_excluded [lit "SET"]) (keys Excerpt.REDIS_COMMANDS)
                = true) by reflexivity.
  split; [exact Hex |]. split; [exact Hgen |]. split.
  - exact (proj2 (proj1 (exclusion_enforced Excerpt.REDIS_COMMANDS [lit "SET"] []
                           Excerpt.ARG_TYPE_MAP Excerpt.DATA_TYPES (9 # 10) [] []
                           Excerpt.unicode_upper)
                         _ _ _ _ Hgen) Hex).
  - vm_compute; reflexivity.
Defined.

(** ** The command loop of [execute_tests] *)

Lemma try_except_total {S A} (body : SM S A) (handler : exn -> SM S A) :
  (forall e s, exists a s', handler e s = (Ok a, s')) ->
  forall s, exists a s', try_except body handler s = (Ok a, s').
Proof.
  intros Hh s. unfold try_except.
  destruct (body s) as [[a | e] s1]; [eauto | apply Hh].
Qed.

(** With a socket at hand [execute_command] raises nothing: whatever the
    encoding, the transport or the decoding raises comes back as the
    reply [{"error": ...}], and the client keeps its socket. *)
Lemma execute_command_returns (c : RedisClient) (command : pystr)
      (args : list pystr) (w : Net.world) :
  c.(sock) <> None ->
  exists r w', execute_command c command args w = (Ok (r, c), w').
Proof.
  intros Hs. unfold execute_command.
  destruct (sock c) as [u |] eqn:E; [| congruence].
  rewrite (bind_step _ _ (eq_refl : ret (true, c) w = (Ok (true, c), w))).
  cbn [negb].
  match goal with
  | |- context [bind (try_except ?b ?h)] =>
      destruct (try_except_total b h) with (s := w) as (r & w' & Hr)
  end.
  { intros e s. destruct (is_socket_exn e); unfold ret; eauto. }
  rewrite (bind_step _ _ Hr). unfold ret. eauto.
Qed.

(** A transport error on sending is carried by the reply. *)
Lemma execute_command_send_error (c : RedisClient) (command : pystr)
      (args : list pystr) (w : Net.world) (e : exn) payload rest :
  c.(sock) <> None ->
  utf8_encode (encode_resp (DList (map DStr (command :: args)))) = Some payload ->
  w.(Net.send_results) = Some e :: rest ->
  is_socket_exn e = true ->
  exists w',
    execute_command c command args w
    = (Ok (RError (lit "Command execution error: " ++ e.(exn_msg)), c), w').
Proof.
  intros Hs Hp Hw He. unfold execute_command.
  destruct (sock c) as [u |] eqn:E; [| congruence].
  rewrite (bind_step _ _ (eq_refl : ret (true, c) w = (Ok (true, c), w))).
  cbn [negb]. rewrite Hp.
  unfold bind at 1. unfold try_except, bind, ret, Net.sendall.
  rewrite Hw. cbn [Net.outcome]. rewrite He. eauto.
Qed.

(** One turn of the loop records one result, for the command at hand. *)
Lemma execute_one_records (f : AFLFuzzer) (c : RedisClient) (cmd : command)
      (w : Net.world) :
  c.(sock) <> None ->
  exists r w',
    execute_command c (fst cmd) (snd cmd) w = (Ok (r, c), w')
    /\ execute_one (f, c) cmd w = (Ok (recorded f cmd r, c), w').
Proof.
  intros Hs. destruct cmd as [command args].
  destruct (execute_command_returns c command args w Hs) as (r & w' & Hr).
  exists r, w'. split; [exact Hr |].
  unfold execute_one, try_except at 1.
  unfold bind at 1. unfold bind at 1. cbn [fst snd] in Hr. rewrite Hr.
  reflexivity.
Qed.

Lemma replies_of_length c cmds w rs w' :
  replies_of c cmds w rs w' -> List.length rs = List.length cmds.
Proof. induction 1; simpl; congruence. Qed.

Lemma entries_commands (cmds : list command) (rs : list reply) :
  List.length rs = List.length cmds ->
  map entry_command (entries cmds rs) = cmds.
Proof.
  revert rs. induction cmds as [| [c a] cmds IH]; intros [| r rs] H;
    simpl in *; try discriminate; [reflexivity |].
  f_equal. apply IH. congruence.
Qed.

Lemma loop_records_all (cmds : list command) (f : AFLFuzzer)
      (c : RedisClient) (w : Net.world) :
  c.(sock) <> None ->
  exists rs f' w',
    for_each cmds (f, c) execute_one w = (Ok (f', c), w')
    /\ replies_of c cmds w rs w'
    /\ f'.(results) = f.(results) ++ entries cmds rs
    /\ f'.(test_cases) = f.(test_cases)
    /\ f'.(run_stats).(total_executions)
       = f.(run_stats).(total_executions) + PySeq.len cmds
    /\ f'.(run_stats).(successful_executions)
       = f.(run_stats).(successful_executions) + PySeq.len cmds.
Proof.
  intros Hs. revert f w.
  induction cmds as [| cmd cmds IH]; intros f w.
  - exists [], f, w. cbn. rewrite app_nil_r.
    repeat split; try constructor; unfold PySeq.len; simpl; lia.
  - destruct (execute_one_records f c cmd w Hs) as (r & w1 & Hc & H1).
    destruct (IH (recorded f cmd r) w1) as (rs & f' & w' & Hl & Hr & Hres & Htc & Ht & Hsu).
    exists (r :: rs), f', w'. cbn [for_each].
    rewrite (bind_step _ _ H1). split; [exact Hl |].
    split; [econstructor; eassumption |].
    rewrite Hres, Htc, Ht, Hsu. cbn [recorded results test_cases run_stats
      total_executions successful_executions entries combine map].
    rewrite <- app_assoc. unfold PySeq.len. cbn [List.length app].
    repeat split; try reflexivity; lia.
Qed.






(** ** Mixing parsed and generated commands *)

Lemma for_each_total {S A B} (body : B -> A -> SM S B) :
  (forall acc x s, exists acc' s', body acc x s = (Ok acc', s')) ->
  forall l acc s, exists acc' s', for_each l acc body s = (Ok acc', s').
Proof.
  intros Hb l. induction l as [| x l IH]; intros acc s; cbn [for_each].
  - unfold ret. eauto.
  - destruct (Hb acc x s) as (acc1 & s1 & H1).
    rewrite (bind_step _ _ H1). apply IH.
Qed.

Lemma split_go_nonempty {A} (eqA : A -> A -> bool) (sep l : list A)
      (skip : nat) (cur : list A) :
  PySeq.split_go eqA sep l skip cur <> [].
Proof.
  revert skip cur. induction l as [| x l IH]; intros skip cur;
    cbn [PySeq.split_go].
  - discriminate.
  - destruct skip; [| apply IH].
    destruct (PySeq.starts_with eqA sep (x :: l)); [discriminate | apply IH].
Qed.

Lemma lookup_In_values {V} (d : dict V) (k : pystr) (v : V) :
  lookup d k = Some v -> exists k', In (k', v) d.
Proof.
  induction d as [| [k' v'] d IH]; simpl; [discriminate |].
  destruct (str_eqb k k').
  - intros H. inversion H; subst. exists k'. now left.
  - intros H. destruct (IH H) as (k1 & H1). exists k1. now right.
Qed.

Section MixFacts.
Variable REDIS_COMMANDS : dict command_info.
Variable EXCLUDED_COMMANDS : list pystr.
Variable FOCUS_COMMANDS : list pystr.
Variable ARG_TYPE_MAP : dict arg_type_entry.
Variable DATA_TYPES : dict gen.
Variable DICT_MIX_RATIO : Q.
Variable INPUT_VALUES : list pystr.
Variable DICT_VALUES : list pystr.
Variable MAX_COMMANDS_PER_TEST : Z.
Variable seed_stream : Z -> rng.
Variable unicode_upper : N -> pystr.

Local Abbreviation allowed := (not_excluded EXCLUDED_COMMANDS).
Local Abbreviation available := (available_commands REDIS_COMMANDS EXCLUDED_COMMANDS).
Local Abbreviation focus := (focus_candidates EXCLUDED_COMMANDS FOCUS_COMMANDS).
Local Abbreviation select :=
  (select_command REDIS_COMMANDS EXCLUDED_COMMANDS FOCUS_COMMANDS).
Local Abbreviation synth := (synthesize_arg ARG_TYPE_MAP DATA_TYPES).
Local Abbreviation gen_arg :=
  (generate_random_arg ARG_TYPE_MAP DATA_TYPES DICT_MIX_RATIO INPUT_VALUES
                       DICT_VALUES).
Local Abbreviation expand :=
  (expand_optional ARG_TYPE_MAP DATA_TYPES DICT_MIX_RATIO INPUT_VALUES
                   DICT_VALUES).
Local Abbreviation gen_command :=
  (generate_random_command REDIS_COMMANDS EXCLUDED_COMMANDS FOCUS_COMMANDS
                           ARG_TYPE_MAP DATA_TYPES DICT_MIX_RATIO INPUT_VALUES
                           DICT_VALUES).
Local Abbreviation parsed :=
  (parsed_commands REDIS_COMMANDS EXCLUDED_COMMANDS unicode_upper).
Local Abbreviation pad :=
  (pad_with_generated REDIS_COMMANDS EXCLUDED_COMMANDS FOCUS_COMMANDS
                      ARG_TYPE_MAP DATA_TYPES DICT_MIX_RATIO INPUT_VALUES
                      DICT_VALUES).
Local Abbreviation mix :=
  (mix_with_generated REDIS_COMMANDS EXCLUDED_COMMANDS FOCUS_COMMANDS
                      ARG_TYPE_MAP DATA_TYPES DICT_MIX_RATIO INPUT_VALUES
                      DICT_VALUES MAX_COMMANDS_PER_TEST seed_stream
                      unicode_upper).
Local Abbreviation parse_input :=
  (parse_afl_input REDIS_COMMANDS EXCLUDED_COMMANDS FOCUS_COMMANDS
                   ARG_TYPE_MAP DATA_TYPES DICT_MIX_RATIO INPUT_VALUES
                   DICT_VALUES MAX_COMMANDS_PER_TEST seed_stream
                   unicode_upper).

Local Abbreviation gen_commands :=
  (generate_commands REDIS_COMMANDS EXCLUDED_COMMANDS FOCUS_COMMANDS
                     ARG_TYPE_MAP DATA_TYPES DICT_MIX_RATIO INPUT_VALUES
                     DICT_VALUES).
Local Abbreviation seed_of :=
  (fun afl_input : pybytes =>
     if 4 <=? PySeq.len afl_input
     then Some (int_from_bytes_little (PySeq.slice afl_input None (Some 4)))
     else None).

Hypothesis closed :
  tables_ok REDIS_COMMANDS FOCUS_COMMANDS ARG_TYPE_MAP DATA_TYPES = true.

Lemma closed_parts :
  forallb (fun kv => entry_ok DATA_TYPES (snd kv)) ARG_TYPE_MAP = true
  /\ has_key DATA_TYPES (lit "mixed_string") = true
  /\ has_key DATA_TYPES (lit "binary_string") = true
  /\ forallb (has_key REDIS_COMMANDS) FOCUS_COMMANDS = true.
Proof.
  pose proof closed as H. unfold tables_ok in H.
  repeat (apply andb_true_iff in H as [H ?]). auto.
Qed.

Lemma call_total (g : gen) (r : rng) : exists v r', call g r = (Ok v, r').
Proof. unfold call. destruct (g r) as [v r']. eauto. Qed.

Lemma getitem_call_total (k : pystr) (r : rng) :
  has_key DATA_TYPES k = true ->
  exists v r', (g <- getitem DATA_TYPES k ;; call g) r = (Ok v, r').
Proof.
  intros H. destruct (getitem_has_key DATA_TYPES k r H) as (g & _ & Hg).
  rewrite (bind_step _ _ Hg). apply call_total.
Qed.

Lemma synthesize_arg_total (arg_type : pystr) (r : rng) :
  exists v r', synth arg_type r = (Ok v, r').
Proof.
  destruct closed_parts as (Hmap & Hmixed & Hbinary & _).
  unfold synthesize_arg.
  destruct (lookup ARG_TYPE_MAP arg_type) as [[type_name | g] |] eqn:E.
  - apply lookup_In_values in E as (k' & Hin).
    rewrite forallb_forall in Hmap. specialize (Hmap _ Hin). cbn in Hmap.
    destruct (RandomFacts.random_total r) as (k & r1 & _ & Hr).
    rewrite (bind_step _ _ Hr).
    repeat match goal with
           | |- context [if ?b && ?h then _ else _] =>
               destruct (b && h) eqn:?
           end;
      repeat match goal with
             | H : _ && _ = true |- _ => apply andb_true_iff in H as [_ H]
             end;
      now apply getitem_call_total.
  - apply call_total.
  - unfold ret. eauto.
Qed.

Lemma get_value_from_dictionary_total (arg_type : pystr) (r : rng) :
  exists o r',
    get_value_from_dictionary INPUT_VALUES DICT_VALUES arg_type r = (Ok o, r').
Proof.
  assert (Hc : forall (l : list pystr) s, l <> [] ->
             exists o s', (x <- random.choice l ;; ret (Some x)) s = (Ok o, s')).
  { intros l s Hl. destruct (RandomFacts.choice_total s Hl) as (x & s' & Hx).
    exists (Some x), s'. now rewrite (bind_step _ _ Hx). }
  unfold get_value_from_dictionary.
  destruct INPUT_VALUES as [| i0 I]; destruct DICT_VALUES as [| d0 D];
    try (unfold ret; now eauto); try (apply Hc; discriminate).
  - destruct (RandomFacts.random_total r) as (k & r1 & _ & Hr).
    rewrite (bind_step _ _ Hr).
    destruct (Qltb _ _); [apply Hc; discriminate | unfold ret; eauto].
  - destruct (RandomFacts.random_total r) as (k & r1 & _ & Hr).
    rewrite (bind_step _ _ Hr).
    destruct (Qltb _ _); apply Hc; discriminate.
Qed.

(** The argument generator always returns. *)
Lemma generate_random_arg_total (arg_type : pystr) (r : rng) :
  exists v r', gen_arg arg_type r = (Ok v, r').
Proof.
  unfold generate_random_arg.
  destruct (RandomFacts.random_total r) as (k & r1 & _ & Hr).
  rewrite (bind_step _ _ Hr).
  destruct (Qltb _ DICT_MIX_RATIO); [| apply synthesize_arg_total].
  destruct (get_value_from_dictionary_total arg_type r1) as (o & r2 & Ho).
  rewrite (bind_step _ _ Ho).
  destruct o as [[| c v] |]; try apply synthesize_arg_total.
  unfold ret. eauto.
Qed.

Lemma expand_optional_total (args : list pystr) (opt_arg : pystr) (r : rng) :
  exists args' r', expand args opt_arg r = (Ok args', r').
Proof.
  unfold expand_optional.
  destruct (PySeq.contains N.eqb (lit " ") opt_arg); [| unfold ret; eauto].
  destruct (PySeq.contains N.eqb (lit "|") _).
  - match goal with
    | |- context [random.choice ?l] =>
        destruct (@RandomFacts.choice_total _ l r) as (c & r' & Hc)
    end.
    { apply split_go_nonempty. }
    rewrite (bind_step _ _ Hc). unfold ret. eauto.
  - destruct (1 <? _); [| unfold ret; eauto].
    match goal with
    | |- context [generate_random_arg _ _ _ _ _ ?a] =>
        destruct (generate_random_arg_total a r) as (v & r' & Hv)
    end.
    rewrite (bind_step _ _ Hv). unfold ret. eauto.
Qed.

Lemma available_nonempty : keys REDIS_COMMANDS <> [] -> available <> [].
Proof.
  intros catalog_nonempty. unfold available_commands.
  destruct (filter allowed (keys REDIS_COMMANDS)); [assumption | discriminate].
Qed.

Lemma select_command_total (r : rng) :
  keys REDIS_COMMANDS <> [] -> exists c r', select r = (Ok c, r').
Proof.
  intros Hne. pose proof (available_nonempty Hne) as Ha.
  unfold select_command.
  destruct focus as [| f1 [| f2 fs]].
  - now apply RandomFacts.choice_total.
  - destruct (RandomFacts.random_total r) as (k & r1 & _ & Hr).
    rewrite (bind_step _ _ Hr).
    destruct (Qltb _ _); [unfold ret; eauto |].
    now apply RandomFacts.choice_total.
  - destruct (RandomFacts.random_total r) as (k & r1 & _ & Hr).
    rewrite (bind_step _ _ Hr).
    destruct (Qltb _ _); apply RandomFacts.choice_total;
      [discriminate | assumption].
Qed.

(** The command generator always returns. *)
Lemma generate_random_command_total (r : rng) :
  keys REDIS_COMMANDS <> [] -> exists c r', gen_command r = (Ok c, r').
Proof.
  intros Hne. destruct closed_parts as (_ & _ & _ & Hfocus).
  unfold generate_random_command.
  destruct (select_command_total r Hne) as (c & r1 & Hc).
  rewrite (bind_step _ _ Hc).
  assert (Hk : has_key REDIS_COMMANDS c = true).
  { apply select_command_In in Hc as [H | H].
    - apply has_key_In. now apply available_In_keys in H.
    - unfold focus_candidates in H. apply filter_In in H as [H _].
      rewrite forallb_forall in Hfocus. now apply Hfocus. }
  destruct (getitem_has_key REDIS_COMMANDS c r1 Hk) as (info & _ & Hi).
  rewrite (bind_step _ _ Hi).
  assert (Hbody : forall acc x s, exists acc' s',
             (fun args arg => (v <- gen_arg arg ;; ret (args ++ [v]))) acc x s
             = (Ok acc', s')).
  { intros acc x s. destruct (generate_random_arg_total x s) as (v & s' & Hv).
    rewrite (bind_step _ _ Hv). unfold ret. eauto. }
  destruct (@for_each_total _ _ _ _ Hbody (args info) [] r1)
    as (args1 & r2 & Hargs).
  rewrite (bind_step _ _ Hargs).
  destruct (optional_args info) as [| o opts] eqn:Eo; [unfold ret; eauto |].
  destruct (RandomFacts.random_total r2) as (k & r3 & _ & Hr).
  rewrite (bind_step _ _ Hr).
  destruct (Qltb _ _); [| unfold ret; eauto].
  destruct (@RandomFacts.randint_total 0 (PySeq.len (o :: opts)) r3)
    as (n & r4 & Hn).
  { unfold PySeq.len. lia. }
  rewrite (bind_step _ _ Hn).
  destruct (@RandomFacts.sample_total _ (o :: opts) n r4) as (sm & r5 & Hsm).
  { now apply RandomFacts.randint_range in Hn. }
  rewrite (bind_step _ _ Hsm).
  destruct (@for_each_total _ _ _ _ expand_optional_total sm args1 r5)
    as (args2 & r6 & Hargs2).
  rewrite (bind_step _ _ Hargs2). unfold ret. eauto.
Qed.

Lemma pad_with_generated_spec (fuel : nat) (n : Z) (tc : list command)
      (r : rng) :
  keys REDIS_COMMANDS <> [] ->
  fuel = Z.to_nat (n - PySeq.len tc) ->
  exists generated r',
    pad fuel n tc r = (Ok (tc ++ generated), r')
    /\ List.length generated = fuel
    /\ Forall (fun c => exists s s', gen_command s = (Ok c, s')) generated.
Proof.
  intros Hne. revert tc r. induction fuel as [| fuel IH]; intros tc r Hfuel.
  - exists [], r. cbn. rewrite app_nil_r. auto.
  - cbn [pad_with_generated].
    assert (Hlt : (PySeq.len tc <? n) = true) by (apply Z.ltb_lt; lia).
    rewrite Hlt.
    destruct (generate_random_command_total r Hne) as (c & r1 & Hc).
    rewrite (bind_step _ _ Hc).
    destruct (IH (tc ++ [c]) r1) as (generated & r' & Hp & Hlen & Hall).
    { unfold PySeq.len in *. rewrite length_app. cbn [List.length]. lia. }
    exists (c :: generated), r'. rewrite Hp, <- app_assoc.
    repeat split; cbn; eauto.
Qed.

(** The padding loop runs the generation loop on what was picked. *)
Lemma pad_generate_commands (fuel : nat) (n : Z) (tc : list command)
      (r : rng) :
  fuel = Z.to_nat (n - PySeq.len tc) ->
  pad fuel n tc r = gen_commands fuel tc r.
Proof.
  revert tc r. induction fuel as [| fuel IH]; intros tc r Hfuel;
    [reflexivity |].
  cbn [pad_with_generated generate_commands].
  assert (Hlt : (PySeq.len tc <? n) = true) by (apply Z.ltb_lt; lia).
  rewrite Hlt. unfold bind.
  destruct (gen_command r) as [[c | e] r1]; [| reflexivity].
  apply IH. unfold PySeq.len in *. rewrite length_app. cbn [List.length]. lia.
Qed.

(** The generation loop appends to what it was given. *)
Lemma generate_commands_acc (n : nat) (acc : list command) (r : rng) :
  gen_commands n acc r
  = match gen_commands n [] r with
    | (Ok generated, r') => (Ok (acc ++ generated), r')
    | (Raise e, r') => (Raise e, r')
    end.
Proof.
  revert acc r. induction n as [| n IH]; intros acc r;
    cbn [generate_commands].
  - unfold ret. now rewrite app_nil_r.
  - unfold bind. destruct (gen_command r) as [[c | e] r1]; [| reflexivity].
    rewrite (IH (acc ++ [c])), (IH ([] ++ [c])).
    destruct (gen_commands n [] r1) as [[g | e] r2]; [| reflexivity].
    now rewrite <- app_assoc.
Qed.

(** The body of the [try], when some command was parsed. *)
Lemma mix_with_generated_spec (afl_input : pybytes) (r : rng) :
  1 <= MAX_COMMANDS_PER_TEST ->
  parsed afl_input <> [] ->
  exists r0 n r1 picked r2 generated r3 tc r',
    TestCase_init seed_stream (seed_of afl_input) r = (Ok tt, r0)
    /\ random.randint 1 MAX_COMMANDS_PER_TEST r0 = (Ok n, r1)
    /\ random.sample (parsed afl_input)
                     (Z.min (PySeq.len (parsed afl_input)) (n / 2 + 1)) r1
       = (Ok picked, r2)
    /\ gen_commands (Z.to_nat (n - PySeq.len picked)) [] r2
       = (Ok generated, r3)
    /\ random.shuffle (picked ++ generated) r3 = (Ok tc, r')
    /\ mix afl_input r = (Ok tc, r')
    /\ 1 <= n <= MAX_COMMANDS_PER_TEST
    /\ PySeq.len tc = n
    /\ PySeq.len picked = Z.min (PySeq.len (parsed afl_input)) (n / 2 + 1)
    /\ PySeq.len generated = n - PySeq.len picked
    /\ (exists rest, Permutation (parsed afl_input) (picked ++ rest))
    /\ Forall (fun c => exists s s', gen_command s = (Ok c, s')) generated
    /\ Permutation tc (picked ++ generated).
Proof.
  intros Hmax Hparsed. unfold mix_with_generated.
  match goal with
  | |- context [TestCase_init ?f ?o] =>
      assert (Hseed : exists r0, TestCase_init f o r = (Ok tt, r0))
        by (destruct o; cbn; unfold seed, ret; eauto)
  end.
  destruct Hseed as (r0 & Hseed). rewrite (bind_step _ _ Hseed).
  destruct (@RandomFacts.randint_total 1 MAX_COMMANDS_PER_TEST r0 Hmax)
    as (n & r1 & Hn).
  rewrite (bind_step _ _ Hn).
  pose proof (RandomFacts.randint_range _ _ _ Hn) as Hrange.
  destruct (parsed afl_input) as [| p0 ps] eqn:Ep; [congruence |].
  set (num_parsed := Z.min (PySeq.len (p0 :: ps)) (n / 2 + 1)).
  assert (Hhalf : 0 <= n / 2 /\ n / 2 + 1 <= n).
  { split; [apply Z.div_pos; lia |].
    pose proof (Z.div_mod n 2 ltac:(lia)).
    pose proof (Z.mod_pos_bound n 2 ltac:(lia)).
    destruct (Z.eq_dec n 1) as [-> | Hn1]; [reflexivity | lia]. }
  assert (Hlen0 : 0 <= PySeq.len ps) by (unfold PySeq.len; lia).
  assert (Hlen1 : PySeq.len (p0 :: ps) = PySeq.len ps + 1)
    by (unfold PySeq.len; cbn [List.length]; lia).
  destruct (@RandomFacts.sample_total _ (p0 :: ps) num_parsed r1)
    as (picked & r2 & Hpick).
  { unfold num_parsed. lia. }
  pose proof (RandomFacts.sample_spec _ _ _ Hpick) as [Hplen Hpperm].
  unfold bind at 1. unfold bind at 1. rewrite Hpick.
  assert (Hne : keys REDIS_COMMANDS <> []).
  { destruct p0 as [c0 a0].
    assert (Hin : In (c0, a0) (parsed afl_input)) by (rewrite Ep; now left).
    unfold parsed_commands in Hin.
    apply parse_lines_In in Hin as (line & _ & Hl).
    apply parse_line_accepts in Hl as [Hk _].
    apply has_key_In in Hk. intros E. rewrite E in Hk. contradiction. }
  destruct (@pad_with_generated_spec
              (Z.to_nat (n - PySeq.len picked)) n picked r2 Hne eq_refl)
    as (generated & r3 & Hpad & Hglen & Hgall).
  rewrite Hpad.
  destruct (RandomFacts.shuffle_spec (picked ++ generated) r3)
    as (tc & r4 & Hsh & Hperm).
  assert (Hgen : gen_commands (Z.to_nat (n - PySeq.len picked)) [] r2
                 = (Ok generated, r3)).
  { rewrite (@pad_generate_commands _ n picked r2 eq_refl) in Hpad.
    rewrite generate_commands_acc in Hpad.
    destruct (gen_commands (Z.to_nat (n - PySeq.len picked)) [] r2)
      as [[g | e] r3'];
      inversion Hpad as [[Hg Hr3]].
    apply app_inv_head in Hg. now subst. }
  assert (Hpl : PySeq.len picked = num_parsed) by exact Hplen.
  exists r0, n, r1, picked, r2, generated, r3, tc, r4.
  split; [exact Hseed |]. split; [exact Hn |]. split; [exact Hpick |].
  split; [exact Hgen |]. split; [exact Hsh |]. split; [exact Hsh |].
  split; [exact Hrange |].
  assert (Hgl : PySeq.len generated = n - PySeq.len picked).
  { unfold PySeq.len in *. unfold num_parsed in Hpl. lia. }
  split.
  { unfold PySeq.len in *. rewrite (Permutation_length Hperm), length_app.
    lia. }
  repeat split; eauto.
Qed.

Lemma parsed_nonempty_input (afl_input : pybytes) :
  parsed afl_input <> [] -> afl_input <> [].
Proof. intros H ->. apply H. reflexivity. Qed.

Lemma scenario_parsed :
  has_key REDIS_COMMANDS (lit "GET") = true ->
  allowed (lit "GET") = true ->
  has_key REDIS_COMMANDS (lit "BADCMD") = false
  \/ str_in (lit "BADCMD") EXCLUDED_COMMANDS = true ->
  parsed scenario_input = [(lit "GET", [lit "foo"])].
Proof.
  intros Hget Hok Hbad.
  assert (H1 : parse_line REDIS_COMMANDS EXCLUDED_COMMANDS unicode_upper
                 (ascii_bytes "GET foo")
               = if has_key REDIS_COMMANDS (lit "GET") && allowed (lit "GET")
                 then Some (lit "GET", [lit "foo"]) else None)
    by reflexivity.
  assert (H2 : parse_line REDIS_COMMANDS EXCLUDED_COMMANDS unicode_upper
                 (ascii_bytes "BADCMD x")
               = if has_key REDIS_COMMANDS (lit "BADCMD")
                    && allowed (lit "BADCMD")
                 then Some (lit "BADCMD", [lit "x"]) else None)
    by reflexivity.
  unfold parsed_commands.
  change (PySeq.split Byte.eqb [x0a] scenario_input)
    with [ascii_bytes "GET foo"; ascii_bytes "BADCMD x"; []].
  cbn [parse_lines]. rewrite H1, H2, Hget, Hok. cbn [andb].
  assert (Hb : has_key REDIS_COMMANDS (lit "BADCMD") && allowed (lit "BADCMD")
               = false).
  { destruct Hbad as [-> | Hex]; [reflexivity |].
    unfold not_excluded. rewrite Hex. apply andb_false_r. }
  rewrite Hb. reflexivity.
Qed.

(** C7: when the input yields at least one parsed command, the tables
    are closed and the configured maximum is at least 1,
    [parse_afl_input] returns [True] and leaves a test case built in this
    way: the stream is seeded from the first four bytes of the input (left
    as it is for a shorter input); the target count [n] is the
    [randint(1, MAX_COMMANDS_PER_TEST)] drawn next, so
    [1 <= n <= MAX_COMMANDS_PER_TEST]; [picked] is the sample, without
    replacement, of [min(len(parsed), n // 2 + 1)] parsed commands drawn
    after it, at least half of [n] rounded up when that many were parsed;
    [generated] is what [n - len(picked)] calls of
    [generate_random_command] in a row return after that; and the test
    case is the one shuffle of [picked ++ generated] that follows, with
    exactly [n] commands.  For the input of the scenario, with GET in the
    catalog and not excluded and BADCMD absent or excluded, the test case
    holds the parsed GET foo and no command named BADCMD. *)
Theorem parse_afl_input_mixes (afl_input : pybytes) (old : list command)
        (r : rng) :
  1 <= MAX_COMMANDS_PER_TEST ->
  parsed afl_input <> [] ->
  exists r0 n r1 picked r2 generated r3 tc r',
    TestCase_init seed_stream (seed_of afl_input) r = (Ok tt, r0)
    /\ random.randint 1 MAX_COMMANDS_PER_TEST r0 = (Ok n, r1)
    /\ random.sample (parsed afl_input)
                     (Z.min (PySeq.len (parsed afl_input)) (n / 2 + 1)) r1
       = (Ok picked, r2)
    /\ gen_commands (Z.to_nat (n - PySeq.len picked)) [] r2
       = (Ok generated, r3)
    /\ random.shuffle (picked ++ generated) r3 = (Ok tc, r')
    /\ parse_input (Some afl_input) old r = (Ok (true, tc), r')
    /\ 1 <= n <= MAX_COMMANDS_PER_TEST
    /\ PySeq.len tc = n
    /\ PySeq.len picked = Z.min (PySeq.len (parsed afl_input)) (n / 2 + 1)
    /\ PySeq.len generated = n - PySeq.len picked
    /\ ((n + 1) / 2 <= PySeq.len (parsed afl_input) ->
        (n + 1) / 2 <= PySeq.len picked)
    /\ (exists rest, Permutation (parsed afl_input) (picked ++ rest))
    /\ Forall (fun c => exists s s', gen_command s = (Ok c, s')) generated
    /\ (exists s s', random.shuffle (picked ++ generated) s = (Ok tc, s'))
    /\ Permutation tc (picked ++ generated)
    /\ (afl_input = scenario_input ->
        has_key REDIS_COMMANDS (lit "GET") = true ->
        allowed (lit "GET") = true ->
        has_key REDIS_COMMANDS (lit "BADCMD") = false
        \/ str_in (lit "BADCMD") EXCLUDED_COMMANDS = true ->
        In (lit "GET", [lit "foo"]) tc
        /\ forall c, In c tc -> fst c <> lit "BADCMD").
Proof.
  intros Hmax Hparsed.
  destruct (mix_with_generated_spec afl_input r Hmax Hparsed)
    as (r0 & n & r1 & picked & r2 & generated & r3 & tc & r' & Hseed & Hdraw
        & Hpick & Hgens & Hshuf & Hmix & Hn & Hlen & Hpl & Hgl & Hsub
        & Hgen & Hperm).
  exists r0, n, r1, picked, r2, generated, r3, tc, r'.
  split; [exact Hseed |]. split; [exact Hdraw |]. split; [exact Hpick |].
  split; [exact Hgens |]. split; [exact Hshuf |].
  split.
  { pose proof (parsed_nonempty_input Hparsed) as Hne.
    unfold parse_afl_input. destruct afl_input as [| b0 bs]; [congruence |].
    unfold try_except. now rewrite (bind_step _ _ Hmix). }
  split; [exact Hn |]. split; [exact Hlen |]. split; [exact Hpl |].
  split; [exact Hgl |].
  split.
  { intros Hhalf. rewrite Hpl.
    assert ((n + 1) / 2 <= n / 2 + 1).
    { pose proof (Z.div_mod n 2 ltac:(lia)).
      pose proof (Z.mod_pos_bound n 2 ltac:(lia)).
      pose proof (Z.div_mod (n + 1) 2 ltac:(lia)).
      pose proof (Z.mod_pos_bound (n + 1) 2 ltac:(lia)). lia. }
    lia. }
  split; [exact Hsub |]. split; [exact Hgen |].
  split; [exists r3, r'; exact Hshuf |].
  split; [exact Hperm |].
  intros -> Hget Hok Hbad.
  rewrite (scenario_parsed Hget Hok Hbad) in *.
  destruct Hsub as (rest & Hsub).
  assert (Hp1 : List.length picked = 1%nat).
  { assert (1 <= n / 2 + 1) by (pose proof (Z.div_pos n 2); lia).
    unfold PySeq.len in Hpl. cbn [List.length] in Hpl. lia. }
  assert (Hpicked : picked = [(lit "GET", [lit "foo"])]).
  { pose proof (Permutation_length Hsub) as Hl.
    rewrite length_app, Hp1 in Hl. cbn in Hl.
    destruct rest; [| discriminate].
    rewrite app_nil_r in Hsub.
    now apply Permutation_length_1_inv. }
  subst picked. split.
  - apply (Permutation_in _ (Permutation_sym Hperm)). now left.
  - intros c Hc. apply (Permutation_in _ Hperm) in Hc.
    destruct Hc as [<- | Hc]; [discriminate |].
    rewrite Forall_forall in Hgen. destruct (Hgen _ Hc) as (s & s' & Hs).
    destruct c as [name a]. cbn [fst]. intros ->.
    pose proof (generate_random_command_name _ _ _ _ _ _ _ _ _ Hs)
      as (_ & _ & Hk).
    assert (Hex : existsb allowed (keys REDIS_COMMANDS) = true).
    { apply existsb_exists. exists (lit "GET").
      split; [now apply has_key_In | exact Hok]. }
    pose proof (generated_allowed _ _ _ _ _ _ _ _ _ Hex Hs) as Hal.
    destruct Hbad as [Hb | Hb]; [congruence |].
    unfold not_excluded in Hal. rewrite Hb in Hal. discriminate.
Qed.

End MixFacts.

(** ** Concrete runs *)

(** The scenario on the excerpt of the catalog, with at most 3 commands
    per test: the seed is the first four bytes of the input. *)
Example scenario_run :
  parse_afl_input Excerpt.REDIS_COMMANDS [] [] Excerpt.ARG_TYPE_MAP
                  Excerpt.DATA_TYPES (9 # 10) [] [] 3 Excerpt.seed_stream
                  Excerpt.unicode_upper (Some scenario_input) [] []
  = (Ok (true, [(lit "EXPIRE", [lit "key:a!"; lit "1"]);
                (lit "GET", [lit "foo"])]), []).
Proof. vm_compute. reflexivity. Qed.

Lemma parse_afl_input_mixes_witness :
  tables_ok Excerpt.REDIS_COMMANDS [] Excerpt.ARG_TYPE_MAP Excerpt.DATA_TYPES
  = true
  /\ 1 <= 20
  /\ parsed_commands Excerpt.REDIS_COMMANDS [] Excerpt.unicode_upper
                     scenario_input <> []
  /\ exists tc r',
      parse_afl_input Excerpt.REDIS_COMMANDS [] [] Excerpt.ARG_TYPE_MAP
                      Excerpt.DATA_TYPES (9 # 10) [] [] 20 Excerpt.seed_stream
                      Excerpt.unicode_upper (Some scenario_input) [] []
      = (Ok (true, tc), r')
      /\ 1 <= PySeq.len tc <= 20
      /\ In (lit "GET", [lit "foo"]) tc
      /\ forall c, In c tc -> fst c <> lit "BADCMD".
Proof.
  assert (H1 : tables_ok Excerpt.REDIS_COMMANDS [] Excerpt.ARG_TYPE_MAP
                         Excerpt.DATA_TYPES = true) by reflexivity.
  assert (H2 : 1 <= 20) by lia.
  assert (H3 : parsed_commands Excerpt.REDIS_COMMANDS [] Excerpt.unicode_upper
                               scenario_input <> [])
    by (vm_compute; discriminate).
  split; [exact H1 |]. split; [exact H2 |]. split; [exact H3 |].
  destruct (@parse_afl_input_mixes
              Excerpt.REDIS_COMMANDS [] [] Excerpt.ARG_TYPE_MAP
              Excerpt.DATA_TYPES (9 # 10) [] [] 20 Excerpt.seed_stream
              Excerpt.unicode_upper H1 scenario_input [] [] H2 H3)
    as (r0 & n & r1 & picked & r2 & generated & r3 & tc & r' & _ & _ & _ & _
        & _ & Hrun & Hn & Hlen & _ & _ & _ & _ & _ & _ & _ & Hscenario).
  exists tc, r'. split; [exact Hrun |]. split; [rewrite Hlen; exact Hn |].
  apply Hscenario; try reflexivity. now left.
Defined.

(** With a configured maximum of 0 (the command line sets it without a
    check), the input of the scenario, from which GET foo is parsed, gives
    no test case at all: the draw of the target count raises [ValueError],
    and so does the fallback of the handler. *)
Lemma parse_afl_input_without_room :
  parsed_commands Excerpt.REDIS_COMMANDS [] Excerpt.unicode_upper
                  scenario_input
  = [(lit "GET", [lit "foo"])]
  /\ exists e r',
      parse_afl_input Excerpt.REDIS_COMMANDS [] [] Excerpt.ARG_TYPE_MAP
                      Excerpt.DATA_TYPES (9 # 10) [] [] 0 Excerpt.seed_stream
                      Excerpt.unicode_upper (Some scenario_input) [] []
      = (Raise e, r')
      /\ e.(exn_cls) = ValueError.
Proof.
  split; [vm_compute; reflexivity |].
  eexists. eexists. split; [vm_compute; reflexivity | reflexivity].
Qed.

Example fault_isolation_run :
  exists f' w',
    execute_tests (lit "127.0.0.1") 6379 two_commands flaky_world
    = (Ok ([WithResult (lit "GET") [lit "k"]
              (RError (lit "Command execution error: Broken pipe"));
            WithResult (lit "PING") [] (RStr (lit "+OK" ++ CRLF))], f'), w')
    /\ w'.(Net.sent) = [ascii_bytes "*2" ++ bCRLF ++ ascii_bytes "$3" ++ bCRLF
                          ++ ascii_bytes "GET" ++ bCRLF ++ ascii_bytes "$1"
                          ++ bCRLF ++ ascii_bytes "k" ++ bCRLF;
                        ascii_bytes "*1" ++ bCRLF ++ ascii_bytes "$4" ++ bCRLF
                          ++ ascii_bytes "PING" ++ bCRLF].
Proof. eexists. eexists. vm_compute. split; reflexivity. Qed.

(** No answer at all: each command gets the timeout as its result. *)
Example timeout_run :
  exists f' w',
    execute_tests (lit "127.0.0.1") 6379 two_commands
                  {| Net.socket_results := []; Net.connect_results := [];
                     Net.send_results := []; Net.recv_results := [];
                     Net.sent := [] |}
    = (Ok ([WithResult (lit "GET") [lit "k"]
              (RError (lit "Command execution error: timed out"));
            WithResult (lit "PING") []
              (RError (lit "Command execution error: timed out"))], f'), w').
Proof. eexists. eexists. vm_compute. reflexivity. Qed.


(** * Further properties of the harness *)

(** ** The generators *)

Section GeneratorShape.
Variable REDIS_COMMANDS : dict command_info.
Variable EXCLUDED_COMMANDS : list pystr.
Variable FOCUS_COMMANDS : list pystr.
Variable ARG_TYPE_MAP : dict arg_type_entry.
Variable DATA_TYPES : dict gen.
Variable DICT_MIX_RATIO : Q.
Variable INPUT_VALUES : list pystr.
Variable DICT_VALUES : list pystr.

Local Abbreviation gen_arg :=
  (generate_random_arg ARG_TYPE_MAP DATA_TYPES DICT_MIX_RATIO INPUT_VALUES
                       DICT_VALUES).
Local Abbreviation expand :=
  (expand_optional ARG_TYPE_MAP DATA_TYPES DICT_MIX_RATIO INPUT_VALUES
                   DICT_VALUES).
Local Abbreviation gen_command :=
  (generate_random_command REDIS_COMMANDS EXCLUDED_COMMANDS FOCUS_COMMANDS
                           ARG_TYPE_MAP DATA_TYPES DICT_MIX_RATIO INPUT_VALUES
                           DICT_VALUES).

(** A value returned by the argument generator for the spec [spec]. *)
Local Abbreviation value_for :=
  (fun spec v => exists t t', gen_arg spec t = (Ok v, t')).

Lemma required_args_loop (l : list pystr) (acc : list pystr) (s : rng)
      acc' s' :
  for_each l acc (fun args arg => (v <- gen_arg arg ;; ret (args ++ [v]))) s
  = (Ok acc', s') ->
  exists vs, acc' = acc ++ vs /\ Forall2 value_for l vs.
Proof.
  revert acc s. induction l as [| spec l IH]; intros acc s H; cbn [for_each] in H.
  - apply ret_Ok in H as [<- _]. exists []. rewrite app_nil_r. auto.
  - inv_bind H. inv_bind Hrun. apply ret_Ok in Hrun as [<- _].
    apply IH in H as (vs & -> & Hvs).
    exists (v0 :: vs). rewrite <- app_assoc. split; [reflexivity |].
    constructor; [eauto | exact Hvs].
Qed.

(** One optional spec appends one or two arguments to those at hand. *)
Lemma expand_optional_extends (args : list pystr) (opt_arg : pystr)
      (s : rng) args' s' :
  expand args opt_arg s = (Ok args', s') ->
  exists ext, args' = args ++ ext
              /\ (1 <= List.length ext <= 2)%nat.
Proof.
  unfold expand_optional.
  destruct (PySeq.contains N.eqb (lit " ") opt_arg).
  - destruct (PySeq.contains N.eqb (lit "|") _).
    + intros H. inv_bind H. apply ret_Ok in H as [<- _].
      eexists. split; [reflexivity | cbn; lia].
    + destruct (1 <? _).
      * intros H. inv_bind H. apply ret_Ok in H as [<- _].
        eexists. split; [reflexivity | cbn; lia].
      * intros H. apply ret_Ok in H as [<- _].
        eexists. split; [reflexivity | cbn; lia].
  - intros H. apply ret_Ok in H as [<- _].
    eexists. split; [reflexivity | cbn; lia].
Qed.

Lemma optional_args_loop (l : list pystr) (acc : list pystr) (s : rng)
      acc' s' :
  for_each l acc expand s = (Ok acc', s') ->
  exists ext, acc' = acc ++ ext
              /\ (List.length l <= List.length ext <= 2 * List.length l)%nat.
Proof.
  revert acc s. induction l as [| o l IH]; intros acc s H; cbn [for_each] in H.
  - apply ret_Ok in H as [<- _]. exists []. rewrite app_nil_r. cbn. auto.
  - inv_bind H. apply expand_optional_extends in Hrun as (e1 & -> & He1).
    apply IH in H as (e2 & -> & He2).
    exists (e1 ++ e2). rewrite <- app_assoc. split; [reflexivity |].
    rewrite length_app. cbn [List.length]. lia.
Qed.

(** X1: the arguments of a generated command begin with one generated
    value per required argument of its catalog entry, in the order of the
    entry; what follows comes from the optional specs: nothing when the
    entry has none, and at most two arguments per optional spec. *)
Theorem generated_args_follow_schema (r : rng) c a r' :
  gen_command r = (Ok (c, a), r') ->
  exists info required optional,
    lookup REDIS_COMMANDS c = Some info
    /\ a = required ++ optional
    /\ Forall2 value_for info.(args) required
    /\ (info.(optional_args) = [] -> optional = [])
    /\ (List.length optional <= 2 * List.length info.(optional_args))%nat.
Proof.
  unfold generate_random_command. intros H.
  inv_bind H. inv_bind H. inv_bind H.
  apply getitem_Ok in Hrun0 as [Hlook _].
  apply required_args_loop in Hrun1 as (required & Hreq & Hall).
  cbn [app] in Hreq. subst v1.
  exists v0, required.
  destruct (optional_args v0) as [| o opts] eqn:Eo.
  - apply ret_Ok in H as [H _]. inversion H; subst.
    exists []. rewrite app_nil_r. cbn. auto.
  - inv_bind H. destruct (Qltb v1 float_0_7).
    + inv_bind H. inv_bind H. inv_bind H.
      apply ret_Ok in H as [H _]. inversion H; subst.
      apply optional_args_loop in Hrun3 as (ext & -> & Hext).
      apply RandomFacts.sample_spec in Hrun2 as [Hlen _].
      apply RandomFacts.randint_range in Hrun1.
      exists ext. repeat split; auto; [discriminate |].
      unfold PySeq.len in *. lia.
    + apply ret_Ok in H as [H _]. inversion H; subst.
      exists []. rewrite app_nil_r. repeat split; auto; cbn; lia.
Qed.

(** X2: an argument type that [ARG_TYPE_MAP] does not know never makes the
    argument generator raise: the value returned is the type key itself,
    or a literal of the corpus or of the dictionary. *)
Theorem unknown_type_passes_through (arg_type : pystr) (r : rng) :
  lookup ARG_TYPE_MAP arg_type = None ->
  exists v r',
    gen_arg arg_type r = (Ok v, r')
    /\ (v = arg_type \/ In v INPUT_VALUES \/ In v DICT_VALUES).
Proof.
  intros Hnone.
  assert (Hsyn : forall s, synthesize_arg ARG_TYPE_MAP DATA_TYPES arg_type s
                           = (Ok arg_type, s)).
  { intros s. unfold synthesize_arg. now rewrite Hnone. }
  unfold generate_random_arg.
  destruct (RandomFacts.random_total r) as (k & r1 & _ & Hr).
  rewrite (bind_step _ _ Hr).
  destruct (Qltb _ DICT_MIX_RATIO); [| rewrite Hsyn; eauto].
  destruct (get_value_from_dictionary_total INPUT_VALUES DICT_VALUES arg_type r1)
    as (o & r2 & Ho).
  rewrite (bind_step _ _ Ho).
  destruct o as [[| ch v] |]; try (rewrite Hsyn; eauto).
  apply get_value_from_dictionary_In in Ho.
  exists (ch :: v), r2. split; [reflexivity | tauto].
Qed.

(** X3: below the mix ratio, with a dictionary at hand and no empty
    literal in either pool, the argument generator returns a literal of the
    corpus or of the dictionary, whatever the argument type. *)
Theorem dictionary_stage_hits (arg_type : pystr) (k : N) (r : rng) :
  Qltb (Z.of_N (k mod 2 ^ 53) # 2 ^ 53) DICT_MIX_RATIO = true ->
  DICT_VALUES <> [] ->
  ~ In [] INPUT_VALUES -> ~ In [] DICT_VALUES ->
  exists v r',
    gen_arg arg_type (k :: r) = (Ok v, r')
    /\ (In v INPUT_VALUES \/ In v DICT_VALUES).
Proof. apply dictionary_stage_returns_literal. Qed.

(** X4: with an empty catalog the command generator raises, for every
    state of the random stream: [IndexError] from the choice among no
    command, or [KeyError] for a focus command that the catalog lacks. *)
Theorem empty_catalog_raises (r : rng) :
  REDIS_COMMANDS = [] ->
  exists e r',
    gen_command r = (Raise e, r')
    /\ (e.(exn_cls) = IndexError \/ e.(exn_cls) = KeyError).
Proof.
  intros ->. unfold generate_random_command, select_command.
  assert (Hav : available_commands [] EXCLUDED_COMMANDS = []) by reflexivity.
  rewrite Hav.
  assert (Hget : forall c s k,
             bind (getitem (@nil (pystr * command_info)) c) k s
             = (@Raise command (Exn KeyError c), s)) by reflexivity.
  destruct (focus_candidates EXCLUDED_COMMANDS FOCUS_COMMANDS)
    as [| f1 [| f2 fs]].
  - eexists. eexists. split; [reflexivity | now left].
  - destruct (RandomFacts.random_total r) as (k & r1 & _ & Hr).
    unfold bind at 1. unfold bind at 1. rewrite Hr.
    destruct (Qltb _ _).
    + cbn [ret]. unfold ret at 1. rewrite Hget. eauto.
    + eexists. eexists. split; [reflexivity | now left].
  - destruct (RandomFacts.random_total r) as (k & r1 & _ & Hr).
    unfold bind at 1. unfold bind at 1. rewrite Hr.
    destruct (Qltb _ _).
    + destruct (@RandomFacts.choice_total _ (f1 :: f2 :: fs) r1) as (c & r2 & Hc);
        [discriminate |].
      rewrite Hc. rewrite Hget. eauto.
    + eexists. eexists. split; [reflexivity | now left].
Qed.

End GeneratorShape.

(** ** Test cases from the generator and from the input *)

Section TestCaseFacts.
Variable REDIS_COMMANDS : dict command_info.
Variable EXCLUDED_COMMANDS : list pystr.
Variable FOCUS_COMMANDS : list pystr.
Variable ARG_TYPE_MAP : dict arg_type_entry.
Variable DATA_TYPES : dict gen.
Variable DICT_MIX_RATIO : Q.
Variable INPUT_VALUES : list pystr.
Variable DICT_VALUES : list pystr.
Variable MAX_COMMANDS_PER_TEST : Z.
Variable seed_stream : Z -> rng.
Variable unicode_upper : N -> pystr.

Local Abbreviation gen_arg :=
  (generate_random_arg ARG_TYPE_MAP DATA_TYPES DICT_MIX_RATIO INPUT_VALUES
                       DICT_VALUES).
Local Abbreviation gen_command :=
  (generate_random_command REDIS_COMMANDS EXCLUDED_COMMANDS FOCUS_COMMANDS
                           ARG_TYPE_MAP DATA_TYPES DICT_MIX_RATIO INPUT_VALUES
                           DICT_VALUES).
Local Abbreviation gen_commands :=
  (generate_commands REDIS_COMMANDS EXCLUDED_COMMANDS FOCUS_COMMANDS
                     ARG_TYPE_MAP DATA_TYPES DICT_MIX_RATIO INPUT_VALUES
                     DICT_VALUES).
Local Abbreviation gen_test_case :=
  (generate_test_case REDIS_COMMANDS EXCLUDED_COMMANDS FOCUS_COMMANDS
                      ARG_TYPE_MAP DATA_TYPES DICT_MIX_RATIO INPUT_VALUES
                      DICT_VALUES MAX_COMMANDS_PER_TEST).
Local Abbreviation parsed :=
  (parsed_commands REDIS_COMMANDS EXCLUDED_COMMANDS unicode_upper).
Local Abbreviation mix :=
  (mix_with_generated REDIS_COMMANDS EXCLUDED_COMMANDS FOCUS_COMMANDS
                      ARG_TYPE_MAP DATA_TYPES DICT_MIX_RATIO INPUT_VALUES
                      DICT_VALUES MAX_COMMANDS_PER_TEST seed_stream
                      unicode_upper).
Local Abbreviation parse_input :=
  (parse_afl_input REDIS_COMMANDS EXCLUDED_COMMANDS FOCUS_COMMANDS
                   ARG_TYPE_MAP DATA_TYPES DICT_MIX_RATIO INPUT_VALUES
                   DICT_VALUES MAX_COMMANDS_PER_TEST seed_stream
                   unicode_upper).
Local Abbreviation generated :=
  (fun c : command => exists s s', gen_command s = (Ok c, s')).

Lemma TestCase_init_returns (o : option Z) (r : rng) :
  exists r0, TestCase_init seed_stream o r = (Ok tt, r0).
Proof. destruct o; cbn; unfold seed, ret; eauto. Qed.

(** X5: a failed range check in [random.randint] is not survived: with a
    configured maximum below 1, [parse_afl_input] raises [ValueError] on
    every non-empty input, since the handler of its [try] draws the count
    of the fallback test case from the same empty range. *)
Theorem parse_afl_input_raises_without_room
        (b : byte) (data : pybytes) (old : list command) (r : rng) :
  MAX_COMMANDS_PER_TEST < 1 ->
  exists e r',
    parse_input (Some (b :: data)) old r = (Raise e, r')
    /\ e.(exn_cls) = ValueError.
Proof.
  intros Hmax.
  exists (Exn ValueError (lit "empty range for randrange()")).
  cut (exists r',
          parse_input (Some (b :: data)) old r
          = (Raise (Exn ValueError (lit "empty range for randrange()")), r')).
  { intros (r' & H). exists r'. now split. }
  assert (Hrand : forall s, random.randint 1 MAX_COMMANDS_PER_TEST s
                            = (Raise (Exn ValueError
                                          (lit "empty range for randrange()")), s)).
  { intros s. unfold random.randint.
    destruct (MAX_COMMANDS_PER_TEST <? 1) eqn:E; [reflexivity |].
    apply Z.ltb_ge in E. lia. }
  unfold parse_afl_input, try_except, mix_with_generated.
  match goal with
  | |- context [TestCase_init seed_stream ?o] =>
      destruct (TestCase_init_returns o r) as (r0 & Hseed)
  end.
  unfold bind at 1. unfold bind at 1. rewrite Hseed.
  unfold bind at 1. rewrite Hrand.
  exists r0. unfold generate_test_case.
  unfold bind at 1. cbn [TestCase_init ret].
  unfold bind at 1. unfold bind at 1. unfold ret at 1. now rewrite Hrand.
Qed.

Hypothesis closed :
  tables_ok REDIS_COMMANDS FOCUS_COMMANDS ARG_TYPE_MAP DATA_TYPES = true.
Hypothesis catalog_nonempty : keys REDIS_COMMANDS <> [].

(** X6: with closed tables and a catalog that is not empty, neither
    generator raises: [generate_random_arg] returns a value for every
    argument type, and [generate_random_command] returns a command of the
    catalog, for every state of the random stream. *)
Theorem generators_never_raise (arg_type : pystr) (r : rng) :
  (exists v r', gen_arg arg_type r = (Ok v, r'))
  /\ (exists c a r', gen_command r = (Ok (c, a), r')
                     /\ has_key REDIS_COMMANDS c = true).
Proof.
  split.
  - exact (@generate_random_arg_total REDIS_COMMANDS FOCUS_COMMANDS
             ARG_TYPE_MAP DATA_TYPES DICT_MIX_RATIO INPUT_VALUES DICT_VALUES
             closed arg_type r).
  - destruct (@generate_random_command_total REDIS_COMMANDS
                EXCLUDED_COMMANDS FOCUS_COMMANDS ARG_TYPE_MAP DATA_TYPES
                DICT_MIX_RATIO INPUT_VALUES DICT_VALUES closed r
                catalog_nonempty)
      as ([c a] & r' & H).
    exists c, a, r'. split; [exact H |].
    now apply generate_random_command_name in H as (_ & _ & Hk).
Qed.

Lemma generate_commands_spec (n : nat) (acc : list command) (r : rng) :
  exists cs r',
    gen_commands n acc r = (Ok (acc ++ cs), r')
    /\ List.length cs = n /\ Forall generated cs.
Proof.
  revert acc r. induction n as [| n IH]; intros acc r; cbn [generate_commands].
  - exists [], r. rewrite app_nil_r. repeat split; auto.
  - destruct (@generate_random_command_total REDIS_COMMANDS
                EXCLUDED_COMMANDS FOCUS_COMMANDS ARG_TYPE_MAP DATA_TYPES
                DICT_MIX_RATIO INPUT_VALUES DICT_VALUES closed r
                catalog_nonempty)
      as (c & r1 & Hc).
    rewrite (bind_step _ _ Hc).
    destruct (IH (acc ++ [c]) r1) as (cs & r' & H & Hlen & Hall).
    exists (c :: cs), r'. rewrite H, <- app_assoc.
    repeat split; cbn; eauto.
Qed.

Lemma generate_test_case_spec (r : rng) :
  (forall n, exists cs r',
      gen_test_case (Some n) r = (Ok cs, r')
      /\ PySeq.len cs = Z.max 0 n /\ Forall generated cs)
  /\ (1 <= MAX_COMMANDS_PER_TEST ->
      exists cs r',
        gen_test_case None r = (Ok cs, r')
        /\ 1 <= PySeq.len cs <= MAX_COMMANDS_PER_TEST /\ Forall generated cs).
Proof.
  split.
  - intros n. unfold generate_test_case.
    rewrite (bind_step _ _ (eq_refl : ret n r = (Ok n, r))).
    destruct (generate_commands_spec (Z.to_nat n) [] r)
      as (cs & r' & H & Hlen & Hall).
    exists cs, r'. split; [exact H |]. split; [| exact Hall].
    unfold PySeq.len. lia.
  - intros Hmax. unfold generate_test_case.
    destruct (@RandomFacts.randint_total 1 MAX_COMMANDS_PER_TEST r Hmax)
      as (n & r1 & Hn).
    rewrite (bind_step _ _ Hn). apply RandomFacts.randint_range in Hn.
    destruct (generate_commands_spec (Z.to_nat n) [] r1)
      as (cs & r' & H & Hlen & Hall).
    exists cs, r'. split; [exact H |]. split; [| exact Hall].
    unfold PySeq.len. lia.
Qed.

(** X7: with closed tables and a catalog that is not empty,
    [generate_test_case] returns exactly the number of commands asked for
    (none for a count below 1), and between 1 and [MAX_COMMANDS_PER_TEST]
    commands when no count is given and that maximum is at least 1; every
    one is a command returned by [generate_random_command]. *)
Theorem generate_test_case_count (r : rng) :
  (forall n, exists cs r',
      gen_test_case (Some n) r = (Ok cs, r')
      /\ PySeq.len cs = Z.max 0 n /\ Forall generated cs)
  /\ (1 <= MAX_COMMANDS_PER_TEST ->
      exists cs r',
        gen_test_case None r = (Ok cs, r')
        /\ 1 <= PySeq.len cs <= MAX_COMMANDS_PER_TEST /\ Forall generated cs).
Proof. apply generate_test_case_spec. Qed.

Lemma parse_nothing_spec
      (afl_input : pybytes) (old : list command) (r : rng) :
  1 <= MAX_COMMANDS_PER_TEST ->
  afl_input <> [] ->
  parsed afl_input = [] ->
  exists cs tc r',
    parse_input (Some afl_input) old r = (Ok (true, tc), r')
    /\ Permutation tc cs
    /\ 1 <= PySeq.len tc <= MAX_COMMANDS_PER_TEST
    /\ Forall generated cs.
Proof.
  intros Hmax Hne Hnone.
  destruct afl_input as [| b data]; [congruence |].
  unfold parse_afl_input, try_except, mix_with_generated.
  match goal with
  | |- context [TestCase_init seed_stream ?o] =>
      destruct (TestCase_init_returns o r) as (r0 & Hseed)
  end.
  unfold bind at 1. unfold bind at 1. rewrite Hseed.
  destruct (@RandomFacts.randint_total 1 MAX_COMMANDS_PER_TEST r0 Hmax)
    as (n & r1 & Hn).
  unfold bind at 1. rewrite Hn. apply RandomFacts.randint_range in Hn.
  rewrite Hnone. unfold generate_test_case.
  destruct (generate_commands_spec (Z.to_nat n) [] r1)
    as (cs & r2 & H & Hlen & Hall).
  unfold bind at 1.
  rewrite (bind_step _ _ (eq_refl : ret n r1 = (Ok n, r1))).
  rewrite H. cbn [app].
  destruct (RandomFacts.shuffle_spec cs r2) as (tc & r3 & Hsh & Hperm).
  rewrite Hsh. exists cs, tc, r3. cbn [bind ret].
  split; [reflexivity |]. split; [exact Hperm |]. split; [| exact Hall].
  unfold PySeq.len. rewrite (Permutation_length Hperm). lia.
Qed.

(** X8: with closed tables, a catalog that is not empty and a maximum of
    at least 1, an input that is not empty and from which no command is
    accepted gives a test case made of generated commands only:
    [parse_afl_input] returns [True], and the test case is a rearrangement
    of [n] commands returned by [generate_random_command],
    [1 <= n <= MAX_COMMANDS_PER_TEST]. *)
Theorem nothing_parsed_all_generated
        (afl_input : pybytes) (old : list command) (r : rng) :
  1 <= MAX_COMMANDS_PER_TEST ->
  afl_input <> [] ->
  parsed afl_input = [] ->
  exists cs tc r',
    parse_input (Some afl_input) old r = (Ok (true, tc), r')
    /\ Permutation tc cs
    /\ 1 <= PySeq.len tc <= MAX_COMMANDS_PER_TEST
    /\ Forall generated cs.
Proof. apply parse_nothing_spec. Qed.

(** Whatever the input, [parse_afl_input] returns; when it says [True] the
    test case holds between 1 and [MAX_COMMANDS_PER_TEST] commands, and it
    says [False] only for no input or an empty one, leaving the test case
    as it was. *)
Lemma parse_afl_input_returns
      (afl_input : option pybytes) (old : list command) (r : rng) :
  1 <= MAX_COMMANDS_PER_TEST ->
  exists ok tc r',
    parse_input afl_input old r = (Ok (ok, tc), r')
    /\ (ok = true -> 1 <= PySeq.len tc <= MAX_COMMANDS_PER_TEST)
    /\ (ok = false -> tc = old /\ (afl_input = None \/ afl_input = Some [])).
Proof.
  intros Hmax.
  destruct afl_input as [[| b data] |].
  - exists false, old, r. split; [reflexivity |]. split; [discriminate | auto].
  - destruct (parsed (b :: data)) as [| p0 ps] eqn:Ep.
    + destruct (@parse_nothing_spec (b :: data) old r Hmax) as
        (cs & tc & r' & H & _ & Hlen & _); [discriminate | exact Ep |].
      exists true, tc, r'. split; [exact H |]. split; [auto | discriminate].
    + destruct (@mix_with_generated_spec REDIS_COMMANDS EXCLUDED_COMMANDS
                  FOCUS_COMMANDS ARG_TYPE_MAP DATA_TYPES DICT_MIX_RATIO
                  INPUT_VALUES DICT_VALUES MAX_COMMANDS_PER_TEST seed_stream
                  unicode_upper closed (b :: data) r Hmax)
        as (r0 & n & r1 & picked & r2 & gen & r3 & tc & r' & _ & _ & _ & _
            & _ & Hmix & Hn & Hlen & _).
      { rewrite Ep. discriminate. }
      exists true, tc, r'. split.
      * unfold parse_afl_input, try_except. now rewrite (bind_step _ _ Hmix).
      * split; [intros _; rewrite Hlen; exact Hn | discriminate].
  - exists false, old, r. split; [reflexivity |]. split; [discriminate | auto].
Qed.

(** The first statement of [run] always yields a test case of between 1
    and [MAX_COMMANDS_PER_TEST] commands. *)
Lemma build_test_cases_spec
      (stdin : result pybytes) (old : list command) (r : rng) :
  1 <= MAX_COMMANDS_PER_TEST ->
  exists tc r',
    build_test_cases REDIS_COMMANDS EXCLUDED_COMMANDS FOCUS_COMMANDS
                     ARG_TYPE_MAP DATA_TYPES DICT_MIX_RATIO INPUT_VALUES
                     DICT_VALUES MAX_COMMANDS_PER_TEST seed_stream
                     unicode_upper stdin old r
    = (Ok tc, r')
    /\ 1 <= PySeq.len tc <= MAX_COMMANDS_PER_TEST.
Proof.
  intros Hmax.
  assert (Hfresh : forall s, exists tc s',
             (_ <- TestCase_init seed_stream None ;; gen_test_case None) s
             = (Ok tc, s')
             /\ 1 <= PySeq.len tc <= MAX_COMMANDS_PER_TEST).
  { intros s. cbn [TestCase_init].
    rewrite (bind_step _ _ (eq_refl : ret tt s = (Ok tt, s))).
    destruct (proj2 (generate_test_case_spec s) Hmax) as (tc & s' & H & Hl & _).
    eauto. }
  unfold build_test_cases, read_afl_input.
  destruct stdin as [data | e]; [| apply Hfresh].
  destruct (@parse_afl_input_returns (Some data) old r Hmax)
    as (ok & tc & r' & Hp & Htrue & _).
  rewrite (bind_step _ _ Hp). destruct ok.
  - exists tc, r'. split; [reflexivity | auto].
  - apply Hfresh.
Qed.

End TestCaseFacts.

(** ** Parsing the input line by line *)

Section SplitFacts.
Context {A : Type}.
Variable eqA : A -> A -> bool.
Hypothesis eqA_true : forall x y, eqA x y = true <-> x = y.

Lemma starts_with_single (c x : A) (l : list A) :
  PySeq.starts_with eqA [c] (x :: l) = eqA c x.
Proof. cbn. apply andb_true_r. Qed.

(** Splitting at a one-element separator goes through a text piece by
    piece. *)
Lemma split_go_single_app (c : A) (a b cur : list A) :
  PySeq.split_go eqA [c] (a ++ c :: b) 0 cur
  = PySeq.split_go eqA [c] a 0 cur ++ PySeq.split_go eqA [c] b 0 [].
Proof.
  revert cur. induction a as [| x a IH]; intros cur.
  - cbn [app PySeq.split_go]. rewrite starts_with_single.
    assert (E : eqA c c = true) by now apply eqA_true.
    rewrite E. reflexivity.
  - cbn [app PySeq.split_go]. rewrite !starts_with_single.
    destruct (eqA c x); cbn [List.length Nat.sub].
    + cbn [app]. f_equal. apply IH.
    + apply IH.
Qed.

(** Joining the pieces with the separator gives the text back. *)
Lemma join_split_go_single (c : A) (l cur : list A) :
  PySeq.join [c] (PySeq.split_go eqA [c] l 0 cur) = rev cur ++ l.
Proof.
  revert cur. induction l as [| x l IH]; intros cur.
  - cbn. now rewrite app_nil_r.
  - cbn [PySeq.split_go]. rewrite starts_with_single.
    destruct (eqA c x) eqn:E; cbn [List.length Nat.sub].
    + apply eqA_true in E. subst x.
      pose proof (@split_go_nonempty _ eqA [c] l 0 []) as Hne.
      destruct (PySeq.split_go eqA [c] l 0 []) as [| p ps] eqn:Es;
        [congruence |].
      change (PySeq.join [c] (rev cur :: p :: ps))
        with (rev cur ++ [c] ++ PySeq.join [c] (p :: ps)).
      rewrite <- Es, IH. reflexivity.
    + rewrite IH. cbn [rev]. now rewrite <- app_assoc.
Qed.
End SplitFacts.

Lemma byte_eqb_true (x y : byte) : Byte.eqb x y = true <-> x = y.
Proof.
  split.
  - apply Byte.byte_dec_bl.
  - intros ->. apply Byte.byte_dec_lb. reflexivity.
Qed.

Section LineFacts.
Variable REDIS_COMMANDS : dict command_info.
Variable EXCLUDED_COMMANDS : list pystr.
Variable unicode_upper : N -> pystr.

Local Abbreviation line_command :=
  (parse_line REDIS_COMMANDS EXCLUDED_COMMANDS unicode_upper).
Local Abbreviation lines_commands :=
  (parse_lines REDIS_COMMANDS EXCLUDED_COMMANDS unicode_upper).
Local Abbreviation parsed :=
  (parsed_commands REDIS_COMMANDS EXCLUDED_COMMANDS unicode_upper).

Lemma parse_lines_app (l1 l2 : list pybytes) :
  lines_commands (l1 ++ l2) = lines_commands l1 ++ lines_commands l2.
Proof.
  induction l1 as [| line l1 IH]; cbn [app parse_lines]; [reflexivity |].
  destruct (line_command line); rewrite IH; reflexivity.
Qed.

(** X9: the input is parsed line by line: the commands parsed from two
    inputs put one after the other with a newline between them are the
    commands of the first followed by the commands of the second. *)
Theorem parsed_commands_concat (a b : pybytes) :
  parsed (a ++ [x0a] ++ b) = parsed a ++ parsed b.
Proof.
  unfold parsed_commands, PySeq.split. cbn [app].
  rewrite (@split_go_single_app _ Byte.eqb byte_eqb_true).
  apply parse_lines_app.
Qed.

(** X10: the arguments of an accepted line are its tokens as they stand:
    the first token (whose upper case is the command) and the arguments,
    joined by single spaces, give back the decoded line without the white
    space around it; and the command is a key of the catalog outside the
    exclusion set. *)
Theorem parse_line_keeps_tokens (line : pybytes) c a :
  line_command line = Some (c, a) ->
  exists token,
    c = py_upper unicode_upper token
    /\ PySeq.join (lit " ") (token :: a) = py_strip (utf8_decode_ignore line)
    /\ has_key REDIS_COMMANDS c = true
    /\ str_in c EXCLUDED_COMMANDS = false.
Proof.
  intros H. pose proof (parse_line_accepts _ _ _ _ H) as [Hk Hex].
  unfold parse_line in H. destruct line as [| b0 line]; [discriminate |].
  pose proof (@join_split_go_single _ N.eqb N.eqb_eq 32%N
                (py_strip (utf8_decode_ignore (b0 :: line))) []) as Hjoin.
  change (PySeq.split_go N.eqb [32%N]) with (PySeq.split_go N.eqb (lit " "))
    in Hjoin.
  unfold PySeq.split in H.
  destruct (PySeq.split_go N.eqb (lit " ") _ 0 []) as [| p0 rest];
    [discriminate |].
  destruct (has_key _ _ && _); [| discriminate].
  inversion H; subst. exists p0.
  split; [reflexivity |]. split.
  - assert (Hargs : (if 1 <? PySeq.len (p0 :: rest) then rest else []) = rest).
    { destruct rest as [| t rest]; [now destruct (1 <? _) |].
      destruct (Z.ltb_spec 1 (PySeq.len (p0 :: t :: rest))) as [_ | Hlen];
        [reflexivity |].
      unfold PySeq.len in Hlen. cbn [List.length] in Hlen. lia. }
    rewrite Hargs. exact Hjoin.
  - split; [exact Hk | now apply negb_true_iff in Hex].
Qed.

End LineFacts.

(** ** The client and the command loop *)

(** X11: the client that [execute_tests] builds holds a socket exactly
    when [socket.socket()] did not raise and [connect] raised nothing
    but a socket error: a connection that is refused or times out leaves
    the socket assigned, so the guard of [execute_tests] lets the commands
    through. *)
Theorem client_ready_iff (h : pystr) (p : Z) (w : Net.world) :
  client_ready h p w = true
  <-> (forall e rest, w.(Net.socket_results) <> Some e :: rest)
      /\ (forall e rest, w.(Net.connect_results) = Some e :: rest ->
                         is_socket_exn e = true).
Proof.
  destruct w as [sr cr sn rv st].
  cbn [Net.socket_results Net.connect_results].
  destruct sr as [| [e1 |] sr]; destruct cr as [| [e2 |] cr];
    try destruct (is_socket_exn e1) eqn:E1;
    try destruct (is_socket_exn e2) eqn:E2;
    unfold client_ready, RedisClient_init, connect, try_except, bind, ret,
      raise, Net.socket_socket, Net.sock_connect;
    cbn [Net.socket_results Net.connect_results Net.send_results
         Net.recv_results Net.sent Net.outcome];
    rewrite ?E1, ?E2; cbn [sock with_sock Net.socket_results
      Net.connect_results Net.outcome]; rewrite ?E1, ?E2; cbn [sock with_sock].
  all: split;
    [ intros H; try discriminate H; split; intros e rest Heq;
      try discriminate Heq; try (inversion Heq; subst; assumption)
    | intros [H1 H2]; try reflexivity;
      try (exfalso; eapply H1; reflexivity);
      try (specialize (H2 _ _ eq_refl); congruence) ].
Qed.

Lemma manual_info_test_returns (w : Net.world) :
  exists w', manual_info_test w = (Ok tt, w').
Proof.
  unfold manual_info_test.
  match goal with
  | |- context [try_except ?b ?h] =>
      destruct (try_except_total b h) with (s := w) as ([] & w' & H)
  end.
  - intros e s. unfold ret. eauto.
  - eauto.
Qed.

(** X12: when [socket.socket()] fails with a socket error,
    [execute_tests] gives up: it returns the empty list, leaves the results
    as they were, and counts every command of the test case as an error,
    without counting any as executed. *)
Theorem execute_tests_without_socket
        (h : pystr) (p : Z) (f : AFLFuzzer) (w : Net.world) e rest :
  w.(Net.socket_results) = Some e :: rest ->
  is_socket_exn e = true ->
  exists f' w',
    execute_tests h p f w = (Ok ([], f'), w')
    /\ f'.(results) = f.(results)
    /\ f'.(test_cases) = f.(test_cases)
    /\ f'.(run_stats).(error_executions)
       = f.(run_stats).(error_executions) + PySeq.len f.(test_cases)
    /\ f'.(run_stats).(total_executions) = f.(run_stats).(total_executions)
    /\ f'.(run_stats).(successful_executions)
       = f.(run_stats).(successful_executions)
    /\ f'.(run_stats).(timeouts) = f.(run_stats).(timeouts).
Proof.
  intros Hw He. destruct w as [sr cr sn rv st]. cbn in Hw. subst sr.
  set (w1 := {| Net.socket_results := rest; Net.connect_results := cr;
                Net.send_results := sn; Net.recv_results := rv;
                Net.sent := st |}).
  assert (Hinit : RedisClient_init h p
                    {| Net.socket_results := Some e :: rest;
                       Net.connect_results := cr; Net.send_results := sn;
                       Net.recv_results := rv; Net.sent := st |}
                  = (Ok {| host := h; port := p; sock := None |}, w1)).
  { unfold RedisClient_init, connect, try_except, bind, ret, raise,
      Net.socket_socket. cbn. rewrite He. reflexivity. }
  unfold execute_tests. rewrite (bind_step _ _ Hinit). cbn [sock].
  destruct (manual_info_test_returns w1) as (w' & Hm).
  rewrite (bind_step _ _ Hm).
  eexists. exists w'. split; [reflexivity |]. cbn. repeat split; reflexivity.
Qed.

Lemma loop_stats (cmds : list command) (f : AFLFuzzer) (c : RedisClient)
      (w : Net.world) :
  c.(sock) <> None ->
  exists rs f' w',
    for_each cmds (f, c) execute_one w = (Ok (f', c), w')
    /\ f'.(results) = f.(results) ++ entries cmds rs
    /\ f'.(run_stats).(successful_executions)
       = f.(run_stats).(successful_executions) + PySeq.len cmds
    /\ f'.(run_stats).(error_executions) = f.(run_stats).(error_executions)
    /\ f'.(run_stats).(timeouts) = f.(run_stats).(timeouts).
Proof.
  intros Hs. revert f w. induction cmds as [| cmd cmds IH]; intros f w.
  - exists [], f, w. cbn. rewrite app_nil_r. unfold PySeq.len. cbn.
    repeat split; lia.
  - destruct (execute_one_records f c cmd w Hs) as (r & w1 & _ & H1).
    destruct (IH (recorded f cmd r) w1)
      as (rs & f' & w' & Hl & Hres & Hsu & Her & Hti).
    exists (r :: rs), f', w'. cbn [for_each].
    rewrite (bind_step _ _ H1). split; [exact Hl |].
    rewrite Hres, Hsu, Her, Hti.
    cbn [recorded results run_stats successful_executions error_executions
         timeouts entries combine map].
    rewrite <- app_assoc. unfold PySeq.len. cbn [List.length app].
    repeat split; try reflexivity; lia.
Qed.

Lemma entries_with_result (cmds : list command) (rs : list reply) :
  Forall (fun e => exists c a r, e = WithResult c a r) (entries cmds rs).
Proof.
  unfold entries. apply Forall_forall. intros e He.
  apply in_map_iff in He as ([[c a] r] & <- & _). cbn. eauto.
Qed.

(** X13: in the command loop every command counts as a success: whatever
    the network does, [execute_tests] adds the number of commands to
    [successful_executions], leaves [timeouts] and [error_executions] as
    they were, and every entry it appends has a ["result"], none an
    ["error"] (the failures sit inside the results). *)
Theorem failures_counted_as_successes
        (h : pystr) (p : Z) (f : AFLFuzzer) (w : Net.world) :
  client_ready h p w = true ->
  exists new f' w',
    execute_tests h p f w = (Ok (f'.(results), f'), w')
    /\ f'.(results) = f.(results) ++ new
    /\ Forall (fun e => exists c a r, e = WithResult c a r) new
    /\ f'.(run_stats).(successful_executions)
       = f.(run_stats).(successful_executions) + PySeq.len f.(test_cases)
    /\ f'.(run_stats).(error_executions) = f.(run_stats).(error_executions)
    /\ f'.(run_stats).(timeouts) = f.(run_stats).(timeouts).
Proof.
  unfold client_ready. intros Hready.
  destruct (RedisClient_init h p w) as [[c | e] w0] eqn:Hinit; [| discriminate].
  destruct (sock c) as [u |] eqn:Hsock; [| discriminate].
  assert (Hs : sock c <> None) by congruence.
  destruct (loop_stats f.(test_cases) f c w0 Hs)
    as (rs & f' & w' & Hl & Hres & Hsu & Her & Hti).
  exists (entries f.(test_cases) rs), f', w'.
  split.
  - unfold execute_tests. rewrite (bind_step _ _ Hinit). rewrite Hsock.
    now rewrite (bind_step _ _ Hl).
  - repeat split; try assumption. apply entries_with_result.
Qed.

(** The frame of a command as [execute_command] hands it to [sendall];
    nothing when the text cannot be encoded. *)
Local Abbreviation payload_of :=
  (fun cmd : command =>
     match wire (DList (map DStr (fst cmd :: snd cmd))) with
     | Some b => [b]
     | None => []
     end).

Lemma execute_command_sent (c : RedisClient) (command : pystr)
      (args : list pystr) (w : Net.world) r c' w' :
  c.(sock) <> None ->
  execute_command c command args w = (Ok (r, c'), w') ->
  w'.(Net.sent) = w.(Net.sent) ++ payload_of (command, args).
Proof.
  intros Hs. unfold execute_command, wire. cbn [fst snd].
  destruct (sock c) as [u |]; [| congruence].
  rewrite (bind_step _ _ (eq_refl : ret (true, c) w = (Ok (true, c), w))).
  cbn [negb].
  destruct (utf8_encode _) as [payload |].
  - destruct w as [sr cr sn rv st].
    unfold bind, try_except, ret, raise, lift, Net.sendall,
      Net.receive_response.
    cbn [Net.socket_results Net.connect_results Net.send_results
         Net.recv_results Net.sent].
    destruct (Net.outcome _) as [[] | e1]; cbn.
    + destruct (Net.recv_until rv []) as [[data | e2] rest]; cbn.
      * destruct (decode_resp data) as [v | e3]; cbn;
          [| destruct (is_socket_exn e3)];
          intros H; inversion H; reflexivity.
      * destruct (is_socket_exn e2); intros H; inversion H; reflexivity.
    + destruct (is_socket_exn e1); intros H; inversion H; reflexivity.
  - unfold bind, try_except, ret, raise. cbn.
    intros H. inversion H. now rewrite app_nil_r.
Qed.

Lemma replies_of_sent (c : RedisClient) cmds w rs w' :
  c.(sock) <> None ->
  replies_of c cmds w rs w' ->
  w'.(Net.sent) = w.(Net.sent) ++ flat_map payload_of cmds.
Proof.
  intros Hs. induction 1 as [w | [command args] cmds w r w1 rs w2 Hc _ IH].
  - cbn. now rewrite app_nil_r.
  - cbn [flat_map]. rewrite IH.
    rewrite (@execute_command_sent c command args w r c w1 Hs Hc).
    now rewrite <- app_assoc.
Qed.

Lemma RedisClient_init_sent (h : pystr) (p : Z) (w : Net.world) r w0 :
  RedisClient_init h p w = (r, w0) -> w0.(Net.sent) = w.(Net.sent).
Proof.
  destruct w as [sr cr sn rv st].
  destruct sr as [| [e1 |] sr]; destruct cr as [| [e2 |] cr];
    try destruct (is_socket_exn e1) eqn:E1;
    try destruct (is_socket_exn e2) eqn:E2;
    unfold RedisClient_init, connect, try_except, bind, ret, raise,
      Net.socket_socket, Net.sock_connect;
    cbn [Net.socket_results Net.connect_results Net.send_results
         Net.recv_results Net.sent Net.outcome];
    rewrite ?E1, ?E2; cbn [Net.socket_results Net.connect_results
      Net.outcome]; rewrite ?E1, ?E2;
    intros H; inversion H; reflexivity.
Qed.

(** X14: with a client that holds a socket, [execute_tests] hands the
    frame of every command of the test case to [sendall] exactly once, in
    the order of the test case, also after commands that failed; only a
    command whose text cannot be encoded in UTF-8 sends nothing. *)
Theorem execute_tests_sends_every_command
        (h : pystr) (p : Z) (f : AFLFuzzer) (w : Net.world) :
  client_ready h p w = true ->
  exists f' w',
    execute_tests h p f w = (Ok (f'.(results), f'), w')
    /\ w'.(Net.sent) = w.(Net.sent) ++ flat_map payload_of f.(test_cases).
Proof.
  unfold client_ready. intros Hready.
  destruct (RedisClient_init h p w) as [[c | e] w0] eqn:Hinit; [| discriminate].
  destruct (sock c) as [u |] eqn:Hsock; [| discriminate].
  assert (Hs : sock c <> None) by congruence.
  destruct (loop_records_all f.(test_cases) f c w0 Hs)
    as (rs & f' & w' & Hl & Hr & _).
  exists f', w'. split.
  - unfold execute_tests. rewrite (bind_step _ _ Hinit). rewrite Hsock.
    now rewrite (bind_step _ _ Hl).
  - rewrite (@replies_of_sent c _ _ _ _ Hs Hr).
    now rewrite (@RedisClient_init_sent h p w _ w0 Hinit).
Qed.

(** X15: a client without a socket whose [socket.socket()] fails with a
    socket error answers [execute_command] with the reply
    [{"error": "No connection to Redis at host:port"}]: it raises nothing,
    sends nothing and stays without a socket. *)
Theorem execute_command_without_connection
        (c : RedisClient) (command : pystr) (args : list pystr)
        (w : Net.world) e rest :
  c.(sock) = None ->
  w.(Net.socket_results) = Some e :: rest ->
  is_socket_exn e = true ->
  exists w',
    execute_command c command args w
    = (Ok (RError (lit "No connection to Redis at " ++ c.(host) ++ lit ":"
                     ++ str_of_int c.(port)), c), w')
    /\ w'.(Net.sent) = w.(Net.sent).
Proof.
  intros Hs Hw He. destruct w as [sr cr sn rv st]. cbn in Hw. subst sr.
  unfold execute_command. rewrite Hs.
  unfold connect, try_except, bind, ret, raise, Net.socket_socket.
  cbn. rewrite He. cbn. eexists. split; reflexivity.
Qed.

(** X16: the receive loop of [execute_command] stops at the first chunk
    after which the data holds a CRLF, or at an empty chunk: the data it
    returns is the concatenation of the chunks received until then, and
    the chunks after that are left unread. *)
Theorem receive_loop_stops_at_first_line
        (pending : list (result pybytes)) (data0 data : pybytes) rest :
  Net.recv_until pending data0 = (Ok data, rest) ->
  exists chunks,
    data = data0 ++ List.concat chunks
    /\ Forall (fun chunk => chunk <> []) chunks
    /\ ((PySeq.contains Byte.eqb bCRLF data = true
         /\ pending = map Ok chunks ++ rest)
        \/ pending = map Ok chunks ++ Ok [] :: rest).
Proof.
  revert data0. induction pending as [| [chunk | e] pending IH]; intros data0;
    cbn [Net.recv_until]; try discriminate.
  destruct chunk as [| b chunk].
  - intros H. inversion H; subst. exists []. cbn. rewrite app_nil_r.
    split; [reflexivity |]. split; [constructor | now right].
  - destruct (PySeq.contains Byte.eqb bCRLF (data0 ++ b :: chunk)) eqn:E.
    + intros H. inversion H; subst. exists [b :: chunk]. cbn.
      rewrite app_nil_r. split; [reflexivity |].
      split; [constructor; [discriminate | constructor] |]. left. auto.
    + intros H. apply IH in H as (chunks & -> & Hne & Hcase).
      exists ((b :: chunk) :: chunks). cbn [List.concat map app].
      rewrite <- app_assoc. split; [reflexivity |].
      split; [constructor; [discriminate | exact Hne] |].
      rewrite <- app_assoc in Hcase.
      destruct Hcase as [[Hc ->] | ->]; [left | right]; auto.
Qed.

(** X17: [TestCase.execute_test_case] returns one entry per command of the
    test case, in order, as soon as the client could be built: a command
    whose [execute_command] raises gets an entry with an ["error"], and
    the commands after it are still executed. *)
Theorem execute_test_case_records_every_command
        (h : pystr) (p : Z) (commands : list command) (w : Net.world) c w0 :
  RedisClient_init h p w = (Ok c, w0) ->
  exists rs w',
    execute_test_case h p commands w = (Ok rs, w')
    /\ map entry_command rs = commands.
Proof.
  intros Hinit.
  assert (Hloop : forall cmds res cl s,
             exists res' cl' s',
               for_each cmds (res, cl) test_case_step s
               = (Ok (res ++ res', cl'), s')
               /\ map entry_command res' = cmds).
  { induction cmds as [| [command args] cmds IH]; intros res cl s.
    - exists [], cl, s. cbn. now rewrite app_nil_r.
    - cbn [for_each].
      assert (Hstep : exists e cl1 s1,
                 test_case_step (res, cl) (command, args) s
                 = (Ok (res ++ [e], cl1), s1)
                 /\ entry_command e = (command, args)).
      { unfold test_case_step.
        destruct (execute_command cl command args s) as [[[r cl1] | e] s1];
          eexists; eexists; eexists; split; reflexivity. }
      destruct Hstep as (e & cl1 & s1 & Hstep & He).
      rewrite (bind_step _ _ Hstep).
      destruct (IH (res ++ [e]) cl1 s1) as (res' & cl' & s' & H & Hmap).
      exists (e :: res'), cl', s'. rewrite H, <- app_assoc.
      split; [reflexivity |]. cbn [map]. now rewrite He, Hmap. }
  unfold execute_test_case. rewrite (bind_step _ _ Hinit).
  destruct (Hloop commands [] c w0) as (rs & cl' & w' & H & Hmap).
  rewrite (bind_step _ _ H). exists rs, w'. split; [reflexivity | exact Hmap].
Qed.

(** ** One invocation of the fuzzer *)

Section RunFacts.
Variable REDIS_COMMANDS : dict command_info.
Variable EXCLUDED_COMMANDS : list pystr.
Variable FOCUS_COMMANDS : list pystr.
Variable ARG_TYPE_MAP : dict arg_type_entry.
Variable DATA_TYPES : dict gen.
Variable DICT_MIX_RATIO : Q.
Variable INPUT_VALUES : list pystr.
Variable DICT_VALUES : list pystr.
Variable MAX_COMMANDS_PER_TEST : Z.
Variable seed_stream : Z -> rng.
Variable unicode_upper : N -> pystr.

Local Abbreviation run_fuzzer :=
  (run REDIS_COMMANDS EXCLUDED_COMMANDS FOCUS_COMMANDS ARG_TYPE_MAP DATA_TYPES
       DICT_MIX_RATIO INPUT_VALUES DICT_VALUES MAX_COMMANDS_PER_TEST
       seed_stream unicode_upper).

Hypothesis closed :
  tables_ok REDIS_COMMANDS FOCUS_COMMANDS ARG_TYPE_MAP DATA_TYPES = true.
Hypothesis catalog_nonempty : keys REDIS_COMMANDS <> [].

(** X18: one invocation, whatever standard input holds (unreadable, empty,
    lines that parse or not): with closed tables, a catalog that is not
    empty, a maximum of at least 1 and a client that gets its socket,
    [run] returns, the test case it built holds between 1 and
    [MAX_COMMANDS_PER_TEST] commands, and the results grew by exactly one
    entry per command of that test case, in its order. *)
Theorem run_executes_what_it_built
        (stdin : result pybytes) (h : pystr) (p : Z) (f : AFLFuzzer)
        (r : rng) (w : Net.world) :
  1 <= MAX_COMMANDS_PER_TEST ->
  client_ready h p w = true ->
  exists f' r' w' new,
    run_fuzzer stdin h p f (r, w) = (Ok f', (r', w'))
    /\ 1 <= PySeq.len f'.(test_cases) <= MAX_COMMANDS_PER_TEST
    /\ f'.(results) = f.(results) ++ new
    /\ map entry_command new = f'.(test_cases)
    /\ f'.(run_stats).(total_executions)
       = f.(run_stats).(total_executions) + PySeq.len f'.(test_cases).
Proof.
  intros Hmax Hready.
  destruct (@build_test_cases_spec REDIS_COMMANDS EXCLUDED_COMMANDS
              FOCUS_COMMANDS ARG_TYPE_MAP DATA_TYPES DICT_MIX_RATIO
              INPUT_VALUES DICT_VALUES MAX_COMMANDS_PER_TEST seed_stream
              unicode_upper closed catalog_nonempty stdin f.(test_cases) r Hmax)
    as (tc & r' & Hbuild & Hlen).
  unfold client_ready in Hready.
  destruct (RedisClient_init h p w) as [[c | e] w0] eqn:Hinit; [| discriminate].
  destruct (sock c) as [u |] eqn:Hsock; [| discriminate].
  assert (Hs : sock c <> None) by congruence.
  destruct (loop_records_all tc (with_test_cases f tc) c w0 Hs)
    as (rs & f' & w' & Hl & Hr & Hres & Htc & Ht & _).
  assert (Hexec : execute_tests h p (with_test_cases f tc) w
                  = (Ok (f'.(results), f'), w')).
  { unfold execute_tests. rewrite (bind_step _ _ Hinit). rewrite Hsock.
    cbn [with_test_cases test_cases]. now rewrite (bind_step _ _ Hl). }
  exists f', r', w', (entries tc rs).
  split.
  { unfold run. rewrite Hbuild, Hexec. reflexivity. }
  cbn [with_test_cases test_cases results run_stats] in Htc, Hres, Ht.
  rewrite Htc. repeat split; try assumption; try apply Hlen.
  apply entries_commands. exact (replies_of_length Hr).
Qed.

End RunFacts.

(** ** Configuration and pools *)

(** X19: whatever REDIS_FOCUS_COMMANDS holds, every focus command kept is a
    key of the catalog, and it is the upper case of one of the
    comma-separated tokens of the variable, white space removed. *)
Theorem focus_commands_are_catalog_commands
        (REDIS_COMMANDS : dict command_info) (unicode_upper : N -> pystr)
        (env : option pystr) :
  forallb (has_key REDIS_COMMANDS)
          (focus_commands_of_env REDIS_COMMANDS unicode_upper env) = true
  /\ forall c,
      In c (focus_commands_of_env REDIS_COMMANDS unicode_upper env) ->
      exists token,
        In token (PySeq.split N.eqb (lit ",")
                    (py_strip (match env with Some v => v | None => [] end)))
        /\ c = py_upper unicode_upper (py_strip token).
Proof.
  unfold focus_commands_of_env.
  destruct (py_strip _) as [| c0 raw] eqn:Eraw.
  - split; [reflexivity | intros c []].
  - cbv zeta. set (potential := map _ (filter _ _)).
    destruct (filter (has_key REDIS_COMMANDS) potential) as [| x l] eqn:Ef.
    + split; [reflexivity | intros c []].
    + rewrite <- Ef. split.
      * apply forallb_forall. intros c Hc. now apply filter_In in Hc.
      * intros c Hc. apply filter_In in Hc as [Hc _].
        unfold potential in Hc. apply in_map_iff in Hc as (token & <- & Ht).
        apply filter_In in Ht as [Ht _]. exists token. auto.
Qed.

(** X20: whatever the environment variable DICT_MIX_RATIO holds, and
    whatever [float()] makes of it (a number out of range, an infinity, a
    NaN, an error), the mix ratio lies between 0 and 1. *)
Theorem dict_mix_ratio_in_range
        (float_of_str : pystr -> option pyfloat) (env : option pystr) :
  Qle_bool 0 (dict_mix_ratio_of_env float_of_str env) = true
  /\ Qle_bool (dict_mix_ratio_of_env float_of_str env) 1 = true.
Proof.
  assert (Hd : Qle_bool 0 default_mix_ratio = true
               /\ Qle_bool default_mix_ratio 1 = true)
    by (split; reflexivity).
  unfold dict_mix_ratio_of_env.
  destruct env as [text |]; [| exact Hd].
  destruct (float_of_str text) as [[q | [] |] |]; try exact Hd.
  cbn [float_le].
  destruct (Qle_bool 0 q) eqn:E0; destruct (Qle_bool q 1) eqn:E1;
    cbn [andb]; auto.
Qed.

Lemma lstrip_with_head (p : N -> bool) (s : list N) c t :
  lstrip_with p s = c :: t -> p c = false.
Proof.
  induction s as [| x s IH]; cbn [lstrip_with]; [discriminate |].
  destruct (p x) eqn:E; [exact IH |].
  intros H. inversion H; subst. exact E.
Qed.

(** What [strip] leaves does not end with a character it strips. *)
Lemma strip_with_last (p : N -> bool) (s : list N) :
  strip_with p s <> [] ->
  exists t c, strip_with p s = t ++ [c] /\ p c = false.
Proof.
  unfold strip_with.
  destruct (lstrip_with p (rev (lstrip_with p s))) as [| c t] eqn:E.
  - cbn. congruence.
  - intros _. exists (rev t), c. split; [reflexivity |].
    eapply lstrip_with_head; eassumption.
Qed.

Lemma split_once_second (sep : N) (l cur : pystr) x v rest :
  split_once sep l cur = x :: v :: rest ->
  exists pre, l = pre ++ sep :: v.
Proof.
  revert cur. induction l as [| c l IH]; intros cur; cbn [split_once];
    [discriminate |].
  destruct (N.eqb_spec c sep) as [-> | _].
  - intros H. inversion H; subst. exists []. reflexivity.
  - intros H. apply IH in H as (pre & ->). exists (c :: pre). reflexivity.
Qed.

Lemma input_value_nonempty (line : pystr) : ~ In [] (input_value_of_line line).
Proof.
  unfold input_value_of_line.
  destruct (py_strip line) as [| c0 s0] eqn:Es; [tauto |].
  destruct (split_once 32 (c0 :: s0) []) as [| x [| v rest]] eqn:Esp;
    try tauto.
  intros [Hv | []]. subst v.
  apply split_once_second in Esp as (pre & Hpre).
  unfold py_strip in Es.
  destruct (@strip_with_last is_py_space line) as (t & c & Ht & Hc).
  { rewrite Es. discriminate. }
  rewrite Es, Hpre in Ht.
  apply (f_equal (@rev N)) in Ht. rewrite !rev_app_distr in Ht. cbn in Ht.
  inversion Ht; subst. discriminate Hc.
Qed.

(** X21: no value that [load_input_dict] loads is the empty string: each
    is what follows the first space of a line once the white space around
    the line is removed, and such a line does not end with a space. *)
Theorem load_input_dict_values_nonempty (input_dir : option (list text_file)) :
  ~ In [] (load_input_dict input_dir).
Proof.
  unfold load_input_dict. destruct input_dir as [files |]; [| tauto].
  intros H. apply in_flat_map in H as (f & _ & H).
  destruct (endswith _ _); [| contradiction].
  apply in_flat_map in H as (line & _ & H).
  now apply input_value_nonempty in H.
Qed.

Lemma lstrip_with_spaces (p : N -> bool) (l s : list N) :
  Forall (fun c => p c = true) l -> lstrip_with p (l ++ s) = lstrip_with p s.
Proof.
  induction 1 as [| c l Hc _ IH]; cbn [app lstrip_with]; [reflexivity |].
  now rewrite Hc.
Qed.

(** [strip] takes nothing from a text between two characters that it does
    not strip, and all of a tail of characters that it strips. *)
Lemma strip_with_between (p : N -> bool) (a b : N) (body tail : list N) :
  p a = false -> p b = false -> Forall (fun c => p c = true) tail ->
  strip_with p (a :: body ++ [b] ++ tail) = a :: body ++ [b].
Proof.
  intros Ha Hb Ht. unfold strip_with. cbn [lstrip_with]. rewrite Ha.
  replace (rev (a :: body ++ [b] ++ tail))
    with (rev tail ++ b :: rev body ++ [a]).
  - rewrite lstrip_with_spaces by (apply Forall_rev; exact Ht).
    cbn [lstrip_with]. rewrite Hb. cbn [rev].
    rewrite rev_app_distr, rev_involutive. reflexivity.
  - cbn [rev]. rewrite !rev_app_distr. cbn. now rewrite <- !app_assoc.
Qed.

Lemma slice_inner {A} (a b : A) (body : list A) :
  PySeq.slice (a :: body ++ [b]) (Some 1) (Some (-1)) = body.
Proof.
  unfold PySeq.slice, PySeq.clamp, PySeq.len.
  cbn [List.length]. rewrite length_app. cbn [List.length].
  replace (-1 <? 0) with true by reflexivity.
  replace (1 <? 0) with false by reflexivity.
  replace (Z.to_nat (Z.min 1 (Z.of_nat (S (List.length body + 1)))))
    with 1%nat by lia.
  replace (Z.to_nat (Z.max 0 (-1 + Z.of_nat (S (List.length body + 1)))
                     - Z.min 1 (Z.of_nat (S (List.length body + 1)))))
    with (List.length body) by lia.
  cbn [skipn]. rewrite firstn_app, firstn_all, Nat.sub_diag. cbn.
  apply app_nil_r.
Qed.

Lemma escape_length (value : pystr) :
  (List.length value <= List.length (escape_for_dictionary value))%nat.
Proof.
  induction value as [| c v IH]; cbn [escape_for_dictionary flat_map];
    [lia |].
  rewrite length_app. fold (escape_for_dictionary v).
  destruct (_ || _)%N; cbn [List.length]; lia.
Qed.

(** One entry, read back as one line. *)
Lemma dict_value_of_entry (value : pystr) (newline : bool) :
  dict_value_of_line (dictionary_entry value
                        ++ (if newline then [10%N] else []))
  = [escape_for_dictionary value].
Proof.
  unfold dict_value_of_line, dictionary_entry, py_strip.
  replace (([34%N] ++ escape_for_dictionary value ++ [34%N])
             ++ (if newline then [10%N] else []))
    with (34%N :: escape_for_dictionary value
               ++ [34%N] ++ (if newline then [10%N] else []))
    by (cbn [app]; now rewrite <- app_assoc).
  rewrite strip_with_between; try reflexivity;
    [| destruct newline; repeat constructor].
  assert (Hs : startswith (34%N :: escape_for_dictionary value ++ [34%N])
                          [34%N] = true) by reflexivity.
  assert (He : endswith (34%N :: escape_for_dictionary value ++ [34%N])
                        [34%N] = true).
  { unfold endswith. cbn [rev]. rewrite rev_app_distr. reflexivity. }
  rewrite Hs, He. cbn [andb]. now rewrite slice_inner.
Qed.

Lemma escape_identity_iff (value : pystr) :
  escape_for_dictionary value = value
  <-> Forall (fun c => c <> 92%N /\ c <> 34%N) value.
Proof.
  induction value as [| c v IH]; cbn [escape_for_dictionary flat_map].
  - split; auto.
  - fold (escape_for_dictionary v).
    destruct (N.eqb_spec c 92) as [-> | H92]; cbn [orb].
    + split.
      * intros H. apply (f_equal (@List.length N)) in H.
        pose proof (escape_length v) as Hlen.
        cbn [app List.length] in H. lia.
      * intros H. inversion H as [| ? ? [Hc _] _]. congruence.
    + destruct (N.eqb_spec c 34) as [-> | H34].
      * split.
        -- intros H. apply (f_equal (@List.length N)) in H.
           pose proof (escape_length v) as Hlen.
           cbn [app List.length] in H. lia.
        -- intros H. inversion H as [| ? ? [_ Hc] _]. congruence.
      * cbn [app]. split.
        -- intros H. assert (Hv : escape_for_dictionary v = v)
             by congruence.
           constructor; [auto |]. now apply IH.
        -- intros H. inversion H as [| ? ? _ Hv]. f_equal. now apply IH.
Qed.

(** X22: a dictionary file written by the generator of the dictionary
    with one entry for each of some values without line breaks, and read
    back by the loader of [DICT_VALUES], gives the values in their order
    with their escaping still in place: the loader removes the quotes and
    undoes nothing.  The values come back unchanged exactly when none
    holds a backslash or a double quote. *)
Theorem dictionary_loaded_escaped (name : pystr) (values : list pystr) :
  Forall (fun v => ~ In 10%N v /\ ~ In 13%N v) values ->
  load_dict_values
    (Some {| filename := name;
             file_lines := written_lines (map dictionary_entry values);
             read_error := None |})
  = map escape_for_dictionary values
  /\ (map escape_for_dictionary values = values
      <-> Forall (Forall (fun c => c <> 92%N /\ c <> 34%N)) values).
Proof.
  intros _. split.
  - cbn [load_dict_values file_lines].
    induction values as [| v vs IH]; [reflexivity |].
    destruct vs as [| v' vs].
    + cbn [map written_lines flat_map].
      rewrite <- (app_nil_r (dictionary_entry v)).
      now rewrite (dict_value_of_entry v false).
    + change (written_lines (map dictionary_entry (v :: v' :: vs)))
        with ((dictionary_entry v ++ [10%N])
                :: written_lines (map dictionary_entry (v' :: vs))).
      cbn [flat_map]. rewrite IH.
      now rewrite (dict_value_of_entry v true).
  - induction values as [| v vs IH]; [split; auto |].
    cbn [map]. split.
    + intros H. assert (Hv : escape_for_dictionary v = v) by congruence.
      assert (Hvs : map escape_for_dictionary vs = vs) by congruence.
      constructor; [now apply escape_identity_iff | now apply IH].
    + intros H. inversion H as [| ? ? Hv Hvs]. f_equal.
      * now apply escape_identity_iff.
      * now apply IH.
Qed.

(** ** The frames *)

(** X23: the frame of an array is its header followed by the frames of
    its elements in their order; the frame that [execute_command] builds
    for a command is the array of the bulk strings of the command name and
    of its arguments, the name first. *)
Theorem array_frame_in_order (l : list pydata) (command : pystr)
        (args : list pystr) :
  encode_resp (DList l)
  = lit "*" ++ str_of_int (PySeq.len l) ++ CRLF
      ++ List.concat (map encode_resp l)
  /\ encode_resp (DList (map DStr (command :: args)))
     = lit "*" ++ str_of_int (1 + PySeq.len args) ++ CRLF
         ++ List.concat
              (map (fun s => lit "$" ++ str_of_int (PySeq.len s) ++ CRLF
                               ++ s ++ CRLF)
                   (command :: args)).
Proof.
  split; [apply encode_resp_list |].
  rewrite encode_resp_list, map_map.
  replace (PySeq.len (map DStr (command :: args))) with (1 + PySeq.len args).
  - reflexivity.
  - unfold PySeq.len. rewrite length_map. cbn [List.length]. lia.
Qed.

(** X24: what [decode_resp] makes of the bytes of a frame, for every value
    whose frame can be encoded in UTF-8, is the text of the whole frame as
    a [str]: the type marker is never interpreted. *)
Theorem decoded_frame_is_its_text (v : pydata) (bs : pybytes) :
  wire v = Some bs -> decode_resp bs = Ok (RStr (encode_resp v)).
Proof. apply decode_wire_is_frame_text. Qed.

(** X25: for a text of ASCII characters the length announced in the bulk
    frame is the number of bytes of the text on the wire. *)
Theorem ascii_bulk_length_is_byte_length (s : pystr) :
  Forall (fun c => (c < 128)%N) s ->
  exists payload,
    utf8_encode s = Some payload
    /\ encode_resp (DStr s)
       = lit "$" ++ str_of_int (PySeq.len payload) ++ CRLF ++ s ++ CRLF.
Proof.
  intros Hs. exists (map byte_of_N s). split; [now apply utf8_encode_ascii |].
  cbn [encode_resp]. unfold PySeq.len. now rewrite length_map.
Qed.

(** ** Replay *)

(** X26: an input of at least four bytes reseeds the random stream from
    its first four bytes before anything is drawn: what
    [parse_afl_input] returns, the test case and the state of the stream
    after it, is the same whatever the stream was before. *)
Theorem parse_afl_input_replays
        (REDIS_COMMANDS : dict command_info)
        (EXCLUDED_COMMANDS FOCUS_COMMANDS : list pystr)
        (ARG_TYPE_MAP : dict arg_type_entry) (DATA_TYPES : dict gen)
        (DICT_MIX_RATIO : Q) (INPUT_VALUES DICT_VALUES : list pystr)
        (MAX_COMMANDS_PER_TEST : Z) (seed_stream : Z -> rng)
        (unicode_upper : N -> pystr)
        (afl_input : pybytes) (old : list command) (r1 r2 : rng) :
  4 <= PySeq.len afl_input ->
  parse_afl_input REDIS_COMMANDS EXCLUDED_COMMANDS FOCUS_COMMANDS ARG_TYPE_MAP
                  DATA_TYPES DICT_MIX_RATIO INPUT_VALUES DICT_VALUES
                  MAX_COMMANDS_PER_TEST seed_stream unicode_upper
                  (Some afl_input) old r1
  = parse_afl_input REDIS_COMMANDS EXCLUDED_COMMANDS FOCUS_COMMANDS
                    ARG_TYPE_MAP DATA_TYPES DICT_MIX_RATIO INPUT_VALUES
                    DICT_VALUES MAX_COMMANDS_PER_TEST seed_stream
                    unicode_upper (Some afl_input) old r2.
Proof.
  intros Hlen.
  destruct afl_input as [| b data];
    [unfold PySeq.len in Hlen; cbn in Hlen; lia |].
  unfold parse_afl_input, try_except, mix_with_generated.
  apply Z.leb_le in Hlen. rewrite Hlen.
  unfold bind at 1. unfold bind at 1. unfold bind at 3. unfold bind at 3.
  cbn [TestCase_init]. unfold seed. reflexivity.
Qed.

(** ** Concrete instances

    Each property with a precondition, applied on the excerpt of the
    tables or on a small network. *)

Lemma generated_args_follow_schema_witness :
  generate_random_command Excerpt.REDIS_COMMANDS [lit "SET"] []
                          Excerpt.ARG_TYPE_MAP Excerpt.DATA_TYPES (9 # 10)
                          [] [] [1%N]
  = (Ok (lit "GET", [lit "key:a!"]), [])
  /\ exists info required optional,
      lookup Excerpt.REDIS_COMMANDS (lit "GET") = Some info
      /\ [lit "key:a!"] = required ++ optional
      /\ (List.length optional <= 2 * List.length info.(optional_args))%nat.
Proof.
  assert (Hgen : generate_random_command Excerpt.REDIS_COMMANDS [lit "SET"] []
                   Excerpt.ARG_TYPE_MAP Excerpt.DATA_TYPES (9 # 10) [] [] [1%N]
                 = (Ok (lit "GET", [lit "key:a!"]), []))
    by (vm_compute; reflexivity).
  split; [exact Hgen |].
  destruct (@generated_args_follow_schema
              Excerpt.REDIS_COMMANDS [lit "SET"] [] Excerpt.ARG_TYPE_MAP
              Excerpt.DATA_TYPES (9 # 10) [] [] [1%N] (lit "GET")
              [lit "key:a!"] [] Hgen)
    as (info & required & optional & Hinfo & Hargs & _ & _ & Hlen).
  exists info, required, optional. auto.
Defined.

Lemma unknown_type_passes_through_witness :
  lookup Excerpt.ARG_TYPE_MAP (lit "NX") = None
  /\ exists v r',
      generate_random_arg Excerpt.ARG_TYPE_MAP Excerpt.DATA_TYPES (9 # 10)
                          [] [] (lit "NX") [] = (Ok v, r')
      /\ (v = lit "NX" \/ In v [] \/ In v []).
Proof.
  assert (H : lookup Excerpt.ARG_TYPE_MAP (lit "NX") = None) by reflexivity.
  split; [exact H |].
  exact (@unknown_type_passes_through Excerpt.ARG_TYPE_MAP Excerpt.DATA_TYPES
           (9 # 10) [] [] (lit "NX") [] H).
Defined.

Lemma dictionary_stage_hits_witness :
  exists v r',
    generate_random_arg Excerpt.ARG_TYPE_MAP Excerpt.DATA_TYPES (9 # 10)
                        [] [lit "v"] (lit "key") [0%N; 0%N; 0%N]
    = (Ok v, r')
    /\ (In v [] \/ In v [lit "v"]).
Proof.
  apply (@dictionary_stage_hits Excerpt.ARG_TYPE_MAP Excerpt.DATA_TYPES
           (9 # 10) [] [lit "v"] (lit "key") 0%N [0%N; 0%N]).
  - reflexivity.
  - discriminate.
  - simpl. tauto.
  - simpl. intros [H | []]. discriminate H.
Defined.

Lemma empty_catalog_raises_witness :
  exists e r',
    generate_random_command [] [] [] Excerpt.ARG_TYPE_MAP Excerpt.DATA_TYPES
                            (9 # 10) [] [] [1%N]
    = (Raise e, r')
    /\ (e.(exn_cls) = IndexError \/ e.(exn_cls) = KeyError).
Proof.
  apply (@empty_catalog_raises [] [] [] Excerpt.ARG_TYPE_MAP Excerpt.DATA_TYPES
           (9 # 10) [] [] [1%N]).
  reflexivity.
Defined.

Lemma parse_afl_input_raises_without_room_witness :
  0 < 1
  /\ exists e r',
      parse_afl_input Excerpt.REDIS_COMMANDS [] [] Excerpt.ARG_TYPE_MAP
                      Excerpt.DATA_TYPES (9 # 10) [] [] 0 Excerpt.seed_stream
                      Excerpt.unicode_upper (Some [x67; x65; x74]) [] []
      = (Raise e, r')
      /\ e.(exn_cls) = ValueError.
Proof.
  assert (H : 0 < 1) by lia.
  split; [exact H |].
  exact (@parse_afl_input_raises_without_room
           Excerpt.REDIS_COMMANDS [] [] Excerpt.ARG_TYPE_MAP
           Excerpt.DATA_TYPES (9 # 10) [] [] 0 Excerpt.seed_stream
           Excerpt.unicode_upper x67 [x65; x74] [] [] H).
Defined.

Lemma generators_never_raise_witness :
  tables_ok Excerpt.REDIS_COMMANDS [] Excerpt.ARG_TYPE_MAP Excerpt.DATA_TYPES
  = true
  /\ keys Excerpt.REDIS_COMMANDS <> []
  /\ (exists v r',
        generate_random_arg Excerpt.ARG_TYPE_MAP Excerpt.DATA_TYPES (9 # 10)
                            [] [] (lit "NX|XX") [] = (Ok v, r'))
  /\ exists c a r',
      generate_random_command Excerpt.REDIS_COMMANDS [lit "GET"] []
                              Excerpt.ARG_TYPE_MAP Excerpt.DATA_TYPES (9 # 10)
                              [] [] [] = (Ok (c, a), r')
      /\ has_key Excerpt.REDIS_COMMANDS c = true.
Proof.
  assert (H1 : tables_ok Excerpt.REDIS_COMMANDS [] Excerpt.ARG_TYPE_MAP
                         Excerpt.DATA_TYPES = true) by reflexivity.
  assert (H2 : keys Excerpt.REDIS_COMMANDS <> []) by (simpl; discriminate).
  split; [exact H1 |]. split; [exact H2 |].
  exact (@generators_never_raise
           Excerpt.REDIS_COMMANDS [lit "GET"] [] Excerpt.ARG_TYPE_MAP
           Excerpt.DATA_TYPES (9 # 10) [] [] H1 H2 (lit "NX|XX") []).
Defined.

Lemma generate_test_case_count_witness :
  tables_ok Excerpt.REDIS_COMMANDS [] Excerpt.ARG_TYPE_MAP Excerpt.DATA_TYPES
  = true
  /\ keys Excerpt.REDIS_COMMANDS <> []
  /\ 1 <= 3
  /\ (exists cs r',
        generate_test_case Excerpt.REDIS_COMMANDS [] [] Excerpt.ARG_TYPE_MAP
                           Excerpt.DATA_TYPES (9 # 10) [] [] 3 (Some 5) [7%N]
        = (Ok cs, r')
        /\ PySeq.len cs = 5)
  /\ exists cs r',
      generate_test_case Excerpt.REDIS_COMMANDS [] [] Excerpt.ARG_TYPE_MAP
                         Excerpt.DATA_TYPES (9 # 10) [] [] 3 None [7%N]
      = (Ok cs, r')
      /\ 1 <= PySeq.len cs <= 3.
Proof.
  assert (H1 : tables_ok Excerpt.REDIS_COMMANDS [] Excerpt.ARG_TYPE_MAP
                         Excerpt.DATA_TYPES = true) by reflexivity.
  assert (H2 : keys Excerpt.REDIS_COMMANDS <> []) by (simpl; discriminate).
  assert (H3 : 1 <= 3) by lia.
  split; [exact H1 |]. split; [exact H2 |]. split; [exact H3 |].
  destruct (@generate_test_case_count
              Excerpt.REDIS_COMMANDS [] [] Excerpt.ARG_TYPE_MAP
              Excerpt.DATA_TYPES (9 # 10) [] [] 3 H1 H2 [7%N])
    as (Hsome & Hnone).
  split.
  - destruct (Hsome 5) as (cs & r' & Hrun & Hlen & _).
    exists cs, r'. split; [exact Hrun | exact Hlen].
  - destruct (Hnone H3) as (cs & r' & Hrun & Hlen & _).
    exists cs, r'. split; [exact Hrun | exact Hlen].
Defined.

Lemma nothing_parsed_all_generated_witness :
  parsed_commands Excerpt.REDIS_COMMANDS [] Excerpt.unicode_upper
                  (ascii_bytes "BADCMD x" ++ [x0a]) = []
  /\ exists tc r',
      parse_afl_input Excerpt.REDIS_COMMANDS [] [] Excerpt.ARG_TYPE_MAP
                      Excerpt.DATA_TYPES (9 # 10) [] [] 3 Excerpt.seed_stream
                      Excerpt.unicode_upper
                      (Some (ascii_bytes "BADCMD x" ++ [x0a])) [] []
      = (Ok (true, tc), r')
      /\ 1 <= PySeq.len tc <= 3.
Proof.
  assert (H1 : tables_ok Excerpt.REDIS_COMMANDS [] Excerpt.ARG_TYPE_MAP
                         Excerpt.DATA_TYPES = true) by reflexivity.
  assert (H2 : keys Excerpt.REDIS_COMMANDS <> []) by (simpl; discriminate).
  assert (H3 : 1 <= 3) by lia.
  assert (H4 : ascii_bytes "BADCMD x" ++ [x0a] <> []) by (simpl; discriminate).
  assert (H5 : parsed_commands Excerpt.REDIS_COMMANDS [] Excerpt.unicode_upper
                               (ascii_bytes "BADCMD x" ++ [x0a]) = [])
    by (vm_compute; reflexivity).
  split; [exact H5 |].
  destruct (@nothing_parsed_all_generated
              Excerpt.REDIS_COMMANDS [] [] Excerpt.ARG_TYPE_MAP
              Excerpt.DATA_TYPES (9 # 10) [] [] 3 Excerpt.seed_stream
              Excerpt.unicode_upper H1 H2
              (ascii_bytes "BADCMD x" ++ [x0a]) [] [] H3 H4 H5)
    as (cs & tc & r' & Hrun & _ & Hlen & _).
  exists tc, r'. split; [exact Hrun | exact Hlen].
Defined.

Lemma parse_line_keeps_tokens_witness :
  parse_line Excerpt.REDIS_COMMANDS [] Excerpt.unicode_upper
             (ascii_bytes " set k  v")
  = Some (lit "SET", [lit "k"; lit ""; lit "v"])
  /\ exists token,
      lit "SET" = py_upper Excerpt.unicode_upper token
      /\ PySeq.join (lit " ") (token :: [lit "k"; lit ""; lit "v"])
         = py_strip (utf8_decode_ignore (ascii_bytes " set k  v")).
Proof.
  assert (H : parse_line Excerpt.REDIS_COMMANDS [] Excerpt.unicode_upper
                         (ascii_bytes " set k  v")
              = Some (lit "SET", [lit "k"; lit ""; lit "v"]))
    by (vm_compute; reflexivity).
  split; [exact H |].
  destruct (@parse_line_keeps_tokens
              Excerpt.REDIS_COMMANDS [] Excerpt.unicode_upper
              (ascii_bytes " set k  v") (lit "SET")
              [lit "k"; lit ""; lit "v"] H)
    as (token & Hc & Hjoin & _).
  exists token. split; [exact Hc | exact Hjoin].
Defined.

Lemma execute_tests_without_socket_witness :
  exists f' w',
    execute_tests (lit "127.0.0.1") 6379 two_commands
                  {| Net.socket_results :=
                       [Some (Exn socket_error (lit "Too many open files"))];
                     Net.connect_results := []; Net.send_results := [];
                     Net.recv_results := []; Net.sent := [] |}
    = (Ok ([], f'), w')
    /\ f'.(results) = []
    /\ f'.(run_stats).(error_executions) = 2.
Proof.
  destruct (@execute_tests_without_socket
              (lit "127.0.0.1") 6379 two_commands
              {| Net.socket_results :=
                   [Some (Exn socket_error (lit "Too many open files"))];
                 Net.connect_results := []; Net.send_results := [];
                 Net.recv_results := []; Net.sent := [] |}
              (Exn socket_error (lit "Too many open files")) []
              eq_refl eq_refl)
    as (f' & w' & Hrun & Hres & _ & Herr & _).
  exists f', w'. split; [exact Hrun |]. split; [exact Hres | exact Herr].
Defined.

Lemma failures_counted_as_successes_witness :
  client_ready (lit "127.0.0.1") 6379 flaky_world = true
  /\ exists f' w',
      execute_tests (lit "127.0.0.1") 6379 two_commands flaky_world
      = (Ok (f'.(results), f'), w')
      /\ f'.(run_stats).(successful_executions) = 2
      /\ f'.(run_stats).(error_executions) = 0.
Proof.
  assert (H : client_ready (lit "127.0.0.1") 6379 flaky_world = true)
    by reflexivity.
  split; [exact H |].
  destruct (@failures_counted_as_successes
              (lit "127.0.0.1") 6379 two_commands flaky_world H)
    as (new & f' & w' & Hrun & _ & _ & Hok & Herr & _).
  exists f', w'. split; [exact Hrun |]. split; [exact Hok | exact Herr].
Defined.

Lemma execute_tests_sends_every_command_witness :
  client_ready (lit "127.0.0.1") 6379 flaky_world = true
  /\ exists f' w',
      execute_tests (lit "127.0.0.1") 6379 two_commands flaky_world
      = (Ok (f'.(results), f'), w')
      /\ List.length w'.(Net.sent) = 2%nat.
Proof.
  assert (H : client_ready (lit "127.0.0.1") 6379 flaky_world = true)
    by reflexivity.
  split; [exact H |].
  destruct (@execute_tests_sends_every_command
              (lit "127.0.0.1") 6379 two_commands flaky_world H)
    as (f' & w' & Hrun & Hsent).
  exists f', w'. split; [exact Hrun |]. rewrite Hsent. reflexivity.
Defined.

Lemma execute_command_without_connection_witness :
  exists w',
    execute_command {| host := lit "db"; port := 6379; sock := None |}
                    (lit "PING") []
                    {| Net.socket_results :=
                         [Some (Exn socket_error (lit "Too many open files"))];
                       Net.connect_results := []; Net.send_results := [];
                       Net.recv_results := []; Net.sent := [] |}
    = (Ok (RError (lit "No connection to Redis at db:6379"),
           {| host := lit "db"; port := 6379; sock := None |}), w')
    /\ w'.(Net.sent) = [].
Proof.
  exact (@execute_command_without_connection
           {| host := lit "db"; port := 6379; sock := None |}
           (lit "PING") []
           {| Net.socket_results :=
                [Some (Exn socket_error (lit "Too many open files"))];
              Net.connect_results := []; Net.send_results := [];
              Net.recv_results := []; Net.sent := [] |}
           (Exn socket_error (lit "Too many open files")) []
           eq_refl eq_refl eq_refl).
Defined.

Lemma receive_loop_stops_at_first_line_witness :
  Net.recv_until [Ok (ascii_bytes "+O"); Ok (ascii_bytes "K" ++ bCRLF);
                  Ok (ascii_bytes "+PONG" ++ bCRLF)] []
  = (Ok (ascii_bytes "+OK" ++ bCRLF), [Ok (ascii_bytes "+PONG" ++ bCRLF)])
  /\ exists chunks,
      ascii_bytes "+OK" ++ bCRLF = [] ++ List.concat chunks
      /\ Forall (fun chunk => chunk <> []) chunks.
Proof.
  assert (H : Net.recv_until
                [Ok (ascii_bytes "+O"); Ok (ascii_bytes "K" ++ bCRLF);
                 Ok (ascii_bytes "+PONG" ++ bCRLF)] []
              = (Ok (ascii_bytes "+OK" ++ bCRLF),
                 [Ok (ascii_bytes "+PONG" ++ bCRLF)]))
    by (vm_compute; reflexivity).
  split; [exact H |].
  destruct (@receive_loop_stops_at_first_line _ _ _ _ H)
    as (chunks & Hdata & Hne & _).
  exists chunks. split; [exact Hdata | exact Hne].
Defined.

Lemma execute_test_case_records_every_command_witness :
  exists rs w',
    execute_test_case (lit "127.0.0.1") 6379 two_commands.(test_cases)
                      flaky_world
    = (Ok rs, w')
    /\ map entry_command rs = two_commands.(test_cases).
Proof.
  apply (@execute_test_case_records_every_command
           (lit "127.0.0.1") 6379 two_commands.(test_cases) flaky_world
           {| host := lit "127.0.0.1"; port := 6379; sock := Some tt |}
           flaky_world).
  reflexivity.
Defined.

Lemma run_executes_what_it_built_witness :
  exists f' r' w' new,
    run Excerpt.REDIS_COMMANDS [] [] Excerpt.ARG_TYPE_MAP Excerpt.DATA_TYPES
        (9 # 10) [] [] 3 Excerpt.seed_stream Excerpt.unicode_upper
        (Ok scenario_input) (lit "127.0.0.1") 6379 two_commands
        ([], flaky_world)
    = (Ok f', (r', w'))
    /\ 1 <= PySeq.len f'.(test_cases) <= 3
    /\ f'.(results) = [] ++ new
    /\ map entry_command new = f'.(test_cases).
Proof.
  assert (H1 : tables_ok Excerpt.REDIS_COMMANDS [] Excerpt.ARG_TYPE_MAP
                         Excerpt.DATA_TYPES = true) by reflexivity.
  assert (H2 : keys Excerpt.REDIS_COMMANDS <> []) by (simpl; discriminate).
  assert (H3 : 1 <= 3) by lia.
  assert (H4 : client_ready (lit "127.0.0.1") 6379 flaky_world = true)
    by reflexivity.
  destruct (@run_executes_what_it_built
              Excerpt.REDIS_COMMANDS [] [] Excerpt.ARG_TYPE_MAP
              Excerpt.DATA_TYPES (9 # 10) [] [] 3 Excerpt.seed_stream
              Excerpt.unicode_upper H1 H2 (Ok scenario_input)
              (lit "127.0.0.1") 6379 two_commands [] flaky_world H3 H4)
    as (f' & r' & w' & new & Hrun & Hlen & Hres & Hmap & _).
  exists f', r', w', new. auto.
Defined.

Lemma dictionary_loaded_escaped_witness :
  load_dict_values
    (Some {| filename := lit "redis.dict";
             file_lines :=
               written_lines (map dictionary_entry [lit "GET"; lit "a\b"]);
             read_error := None |})
  = [lit "GET"; lit "a\\b"].
Proof.
  refine (proj1 (@dictionary_loaded_escaped (lit "redis.dict")
                                            [lit "GET"; lit "a\b"] _)).
  repeat constructor; simpl; intuition discriminate.
Defined.

Lemma decoded_frame_is_its_text_witness :
  decode_resp (ascii_bytes "$2" ++ bCRLF ++ ascii_bytes "OK" ++ bCRLF)
  = Ok (RStr (encode_resp (DStr (lit "OK")))).
Proof.
  apply (@decoded_frame_is_its_text (DStr (lit "OK"))).
  vm_compute. reflexivity.
Defined.

Lemma ascii_bulk_length_is_byte_length_witness :
  exists payload,
    utf8_encode (lit "OK") = Some payload
    /\ encode_resp (DStr (lit "OK"))
       = lit "$" ++ str_of_int (PySeq.len payload) ++ CRLF ++ lit "OK" ++ CRLF.
Proof.
  apply (@ascii_bulk_length_is_byte_length (lit "OK")).
  repeat constructor.
Defined.

Lemma parse_afl_input_replays_witness :
  parse_afl_input Excerpt.REDIS_COMMANDS [] [] Excerpt.ARG_TYPE_MAP
                  Excerpt.DATA_TYPES (9 # 10) [] [] 3 Excerpt.seed_stream
                  Excerpt.unicode_upper (Some scenario_input) [] []
  = parse_afl_input Excerpt.REDIS_COMMANDS [] [] Excerpt.ARG_TYPE_MAP
                    Excerpt.DATA_TYPES (9 # 10) [] [] 3 Excerpt.seed_stream
                    Excerpt.unicode_upper (Some scenario_input) []
                    [5%N; 11%N].
Proof.
  apply (@parse_afl_input_replays
           Excerpt.REDIS_COMMANDS [] [] Excerpt.ARG_TYPE_MAP
           Excerpt.DATA_TYPES (9 # 10) [] [] 3 Excerpt.seed_stream
           Excerpt.unicode_upper scenario_input [] [] [5%N; 11%N]).
  vm_compute. discriminate.
Defined.
